(** * fifodev: a FIFO character device built on a kfifo and three semaphores

    Shallow embedding of [fifodev.c] and verification of its
    natural-language specification.

    Layout of the development:
    - machine integers and errno constants;
    - [kfifo]: the kernel ring buffer used by the driver, with its
      cursors and backing array, and its abstraction to a byte queue;
    - the kernel state of the module (globals of [fifodev.c]) and the
      atomic actions a system call performs on it;
    - the four file operations, [cond_wait] and the signalling block,
      written in a small resumption monad so that every access to
      shared state is one step;
    - three semantics built on the same action semantics: a run of one
      call without interference, the set of control paths of a call
      under arbitrary interference, and the interleaving of any number
      of threads;
    - the theorems. *)

From Stdlib Require Import ZArith Lia List.
From stdpp Require Import base option list gmap.

Local Open Scope Z_scope.

(** ** Machine integers *)

(** [unsigned int]: values are taken modulo 2^32. *)
Definition uint (z : Z) : Z := z mod 2 ^ 32.

(** [int] arithmetic of the kernel (built with wrapping overflow). *)
Definition wrap_int (z : Z) : Z := (z + 2 ^ 31) mod 2 ^ 32 - 2 ^ 31.

Definition EINTR : Z := 4.
Definition ENOMEM : Z := 12.
Definition EPIPE : Z := 32.

Definition MAX_KBUF : Z := 4096.
Definition MAX_CBUFFER_LEN : Z := 4096.
Definition FMODE_READ : Z := 1.

Abbreviation byte := Byte.byte.

(** ** The kernel ring buffer

    [struct kfifo] of <linux/kfifo.h> for one-byte elements: two free
    running [unsigned int] cursors, a mask (size - 1, the size being a
    power of two) and the backing array.  The functions below follow
    lib/kfifo.c; the driver only calls them. *)

Module Kfifo.

Record kfifo : Type := mk {
  kf_in : Z;
  kf_out : Z;
  kf_mask : Z;
  kf_data : list byte
}.

(** [memcpy(dst + off, src, length src)] on an array held as a list. *)
Definition memcpy (dst : list byte) (off : Z) (src : list byte) : list byte :=
  take (Z.to_nat off) dst ++ src ++ drop (Z.to_nat off + length src) dst.

(** [kfifo_alloc(&fifo, size, GFP_KERNEL)] for [size] a power of two;
    the array comes from [kmalloc] with whatever it contains. *)
Definition kfifo_alloc (size : Z) (mem : list byte) : kfifo :=
  mk 0 0 (size - 1) mem.

Definition kfifo_len (k : kfifo) : Z := uint (kf_in k - kf_out k).

Definition kfifo_unused (k : kfifo) : Z :=
  uint (kf_mask k + 1 - (kf_in k - kf_out k)).

Definition kfifo_avail (k : kfifo) : Z := kfifo_unused k.

Definition kfifo_is_empty (k : kfifo) : bool := kf_in k =? kf_out k.

Definition kfifo_reset (k : kfifo) : kfifo :=
  mk 0 0 (kf_mask k) (kf_data k).

Definition kfifo_copy_in (k : kfifo) (src : list byte) (len off : Z) : list byte :=
  let size := kf_mask k + 1 in
  let off := Z.land off (kf_mask k) in
  let l := Z.min len (size - off) in
  let data := memcpy (kf_data k) off (take (Z.to_nat l) src) in
  memcpy data 0 (take (Z.to_nat (len - l)) (drop (Z.to_nat l) src)).

Definition kfifo_copy_out (k : kfifo) (len off : Z) : list byte :=
  let size := kf_mask k + 1 in
  let off := Z.land off (kf_mask k) in
  let l := Z.min len (size - off) in
  take (Z.to_nat l) (drop (Z.to_nat off) (kf_data k))
    ++ take (Z.to_nat (len - l)) (kf_data k).

(** [kfifo_in(&fifo, buf, len)]: stores at most [kfifo_unused] bytes and
    returns how many were stored. *)
Definition kfifo_in (k : kfifo) (buf : list byte) (len : Z) : kfifo * Z :=
  let len := uint len in
  let l := kfifo_unused k in
  let len := if l <? len then l else len in
  (mk (uint (kf_in k + len)) (kf_out k) (kf_mask k)
      (kfifo_copy_in k buf len (kf_in k)),
   len).

Definition kfifo_out_peek (k : kfifo) (len : Z) : list byte * Z :=
  let len := uint len in
  let l := uint (kf_in k - kf_out k) in
  let len := if l <? len then l else len in
  (kfifo_copy_out k len (kf_out k), len).

(** [kfifo_out(&fifo, buf, len)]: the bytes written to [buf] and their
    number; the read cursor advances by that number. *)
Definition kfifo_out (k : kfifo) (len : Z) : kfifo * list byte * Z :=
  let '(buf, len) := kfifo_out_peek k len in
  (mk (kf_in k) (uint (kf_out k + len)) (kf_mask k) (kf_data k), buf, len).

(** The queue a ring buffer stands for: what peeking at all of it
    returns, oldest byte first. *)
Definition kfifo_contents (k : kfifo) : list byte :=
  kfifo_copy_out k (kfifo_len k) (kf_out k).

(** The shape [kfifo_alloc(&cbuffer, MAX_CBUFFER_LEN, ...)] establishes
    and every kfifo function keeps. *)
Record kfifo_wf (k : kfifo) : Prop := {
  wf_mask : kf_mask k = MAX_CBUFFER_LEN - 1;
  wf_data : length (kf_data k) = Z.to_nat MAX_CBUFFER_LEN;
  wf_in : 0 <= kf_in k < 2 ^ 32;
  wf_out : 0 <= kf_out k < 2 ^ 32;
  wf_len : kfifo_len k <= MAX_CBUFFER_LEN
}.

End Kfifo.

(** ** State of the module

    The globals of [fifodev.c] (lines 19-26), and the memory of the
    calling processes that [copy_from_user] and [copy_to_user] reach.
    A semaphore is its count. *)

Record kstate : Type := mkState {
  cbuffer : Kfifo.kfifo;
  prod_count : Z;
  cons_count : Z;
  mtx : Z;
  sem_prod : Z;
  sem_cons : Z;
  nr_prod_waiting : Z;
  nr_cons_waiting : Z;
  user_mem : gmap Z byte
}.

(** Addresses of the globals, as the code passes them around
    ([&sem_cons], [&nr_cons_waiting], ...). *)
Inductive sem_ref : Type := ref_mtx | ref_sem_prod | ref_sem_cons.
Inductive int_ref : Type :=
  ref_prod_count | ref_cons_count | ref_nr_prod_waiting | ref_nr_cons_waiting.
Inductive kfifo_ref : Type := ref_cbuffer.

Notation "&mtx" := ref_mtx.
Notation "&sem_prod" := ref_sem_prod.
Notation "&sem_cons" := ref_sem_cons.
Notation "&prod_count" := ref_prod_count.
Notation "&cons_count" := ref_cons_count.
Notation "&nr_prod_waiting" := ref_nr_prod_waiting.
Notation "&nr_cons_waiting" := ref_nr_cons_waiting.
Notation "&cbuffer" := ref_cbuffer.

#[global] Instance sem_ref_eq_dec : EqDecision sem_ref.
Proof. solve_decision. Defined.
#[global] Instance int_ref_eq_dec : EqDecision int_ref.
Proof. solve_decision. Defined.

Definition sem_count (s : kstate) (p : sem_ref) : Z :=
  match p with
  | &mtx => mtx s
  | &sem_prod => sem_prod s
  | &sem_cons => sem_cons s
  end.

Definition set_sem (p : sem_ref) (c : Z) (s : kstate) : kstate :=
  match p with
  | &mtx =>
      mkState (cbuffer s) (prod_count s) (cons_count s) c (sem_prod s)
        (sem_cons s) (nr_prod_waiting s) (nr_cons_waiting s) (user_mem s)
  | &sem_prod =>
      mkState (cbuffer s) (prod_count s) (cons_count s) (mtx s) c
        (sem_cons s) (nr_prod_waiting s) (nr_cons_waiting s) (user_mem s)
  | &sem_cons =>
      mkState (cbuffer s) (prod_count s) (cons_count s) (mtx s) (sem_prod s)
        c (nr_prod_waiting s) (nr_cons_waiting s) (user_mem s)
  end.

Definition int_val (s : kstate) (p : int_ref) : Z :=
  match p with
  | &prod_count => prod_count s
  | &cons_count => cons_count s
  | &nr_prod_waiting => nr_prod_waiting s
  | &nr_cons_waiting => nr_cons_waiting s
  end.

Definition set_int (p : int_ref) (v : Z) (s : kstate) : kstate :=
  match p with
  | &prod_count =>
      mkState (cbuffer s) v (cons_count s) (mtx s) (sem_prod s)
        (sem_cons s) (nr_prod_waiting s) (nr_cons_waiting s) (user_mem s)
  | &cons_count =>
      mkState (cbuffer s) (prod_count s) v (mtx s) (sem_prod s)
        (sem_cons s) (nr_prod_waiting s) (nr_cons_waiting s) (user_mem s)
  | &nr_prod_waiting =>
      mkState (cbuffer s) (prod_count s) (cons_count s) (mtx s) (sem_prod s)
        (sem_cons s) v (nr_cons_waiting s) (user_mem s)
  | &nr_cons_waiting =>
      mkState (cbuffer s) (prod_count s) (cons_count s) (mtx s) (sem_prod s)
        (sem_cons s) (nr_prod_waiting s) v (user_mem s)
  end.

Definition set_cbuffer (k : Kfifo.kfifo) (s : kstate) : kstate :=
  mkState k (prod_count s) (cons_count s) (mtx s) (sem_prod s)
    (sem_cons s) (nr_prod_waiting s) (nr_cons_waiting s) (user_mem s).

Definition set_user_mem (m : gmap Z byte) (s : kstate) : kstate :=
  mkState (cbuffer s) (prod_count s) (cons_count s) (mtx s) (sem_prod s)
    (sem_cons s) (nr_prod_waiting s) (nr_cons_waiting s) m.

(** ** User memory

    An address is mapped or it faults.  Both copy routines stop at the
    first fault and return the number of bytes they did not copy. *)

Definition ulong (z : Z) : Z := z mod 2 ^ 64.

Fixpoint user_read (m : gmap Z byte) (a : Z) (n : nat) : list byte :=
  match n with
  | O => []
  | S n' =>
      match m !! a with
      | Some b => b :: user_read m (a + 1) n'
      | None => []
      end
  end.

Fixpoint user_write (m : gmap Z byte) (a : Z) (bs : list byte) : gmap Z byte * Z :=
  match bs with
  | [] => (m, 0)
  | b :: bs' =>
      match m !! a with
      | Some _ => user_write (<[a := b]> m) (a + 1) bs'
      | None => (m, Z.of_nat (length bs))
      end
  end.

Definition do_copy_from_user (m : gmap Z byte) (from n : Z) : list byte * Z :=
  let bs := user_read m from (Z.to_nat (ulong n)) in
  (bs, ulong n - Z.of_nat (length bs)).

Definition do_copy_to_user (m : gmap Z byte) (to : Z) (buf : list byte) (n : Z)
  : gmap Z byte * Z :=
  user_write m to (take (Z.to_nat (ulong n)) buf).

(** ** Actions

    What one step of a system call does to the state.  The index is the
    type of the value the step hands back to the code. *)

Inductive action : Type -> Type :=
| ADown (p : sem_ref) : action Z
| AUp (p : sem_ref) : action unit
| ALoad (p : int_ref) : action Z
| AStore (p : int_ref) (v : Z) : action unit
| AKfifoLen (f : kfifo_ref) : action Z
| AKfifoAvail (f : kfifo_ref) : action Z
| AKfifoIsEmpty (f : kfifo_ref) : action bool
| AKfifoIn (f : kfifo_ref) (buf : list byte) (len : Z) : action Z
| AKfifoOut (f : kfifo_ref) (len : Z) : action (list byte * Z)
| AKfifoReset (f : kfifo_ref) : action unit
| ACopyFromUser (from n : Z) : action (list byte * Z)
| ACopyToUser (to : Z) (buf : list byte) (n : Z) : action Z.

(** [astep a sig s]: the value returned and the next state, or [None]
    when the step cannot be taken now (a [down_interruptible] on a
    semaphore whose count is 0, with no signal pending: the thread
    sleeps).  [down_interruptible] takes the semaphore when its count is
    positive and otherwise fails with [-EINTR] once a signal is pending;
    [up] adds one to the count. *)
Definition astep {R : Type} (a : action R) (sig : bool) (s : kstate)
  : option (R * kstate) :=
  match a in action R return option (R * kstate) with
  | ADown p =>
      if 0 <? sem_count s p then Some (0, set_sem p (sem_count s p - 1) s)
      else if sig then Some (- EINTR, s)
      else None
  | AUp p => Some (tt, set_sem p (sem_count s p + 1) s)
  | ALoad p => Some (int_val s p, s)
  | AStore p v => Some (tt, set_int p v s)
  | AKfifoLen _ => Some (Kfifo.kfifo_len (cbuffer s), s)
  | AKfifoAvail _ => Some (Kfifo.kfifo_avail (cbuffer s), s)
  | AKfifoIsEmpty _ => Some (Kfifo.kfifo_is_empty (cbuffer s), s)
  | AKfifoIn _ buf len =>
      let o := Kfifo.kfifo_in (cbuffer s) buf len in
      Some (snd o, set_cbuffer (fst o) s)
  | AKfifoOut _ len =>
      let o := Kfifo.kfifo_out (cbuffer s) len in
      Some ((snd (fst o), snd o), set_cbuffer (fst (fst o)) s)
  | AKfifoReset _ => Some (tt, set_cbuffer (Kfifo.kfifo_reset (cbuffer s)) s)
  | ACopyFromUser from n => Some (do_copy_from_user (user_mem s) from n, s)
  | ACopyToUser to buf n =>
      let o := do_copy_to_user (user_mem s) to buf n in
      Some (snd o, set_user_mem (fst o) s)
  end.

(** What a thread did, with the value it got back. *)
Inductive event : Type :=
| EDown (p : sem_ref) (r : Z)
| EUp (p : sem_ref)
| ELoad (p : int_ref) (v : Z)
| EStore (p : int_ref) (v : Z)
| EKfifoLen (v : Z)
| EKfifoAvail (v : Z)
| EKfifoIsEmpty (b : bool)
| EKfifoIn (buf : list byte) (len : Z) (r : Z)
| EKfifoOut (len : Z) (buf : list byte) (r : Z)
| EKfifoReset
| ECopyFromUser (from n : Z) (buf : list byte) (r : Z)
| ECopyToUser (to : Z) (buf : list byte) (n : Z) (r : Z).

Definition event_of {R : Type} (a : action R) : R -> event :=
  match a in action R return R -> event with
  | ADown p => fun r => EDown p r
  | AUp p => fun _ => EUp p
  | ALoad p => fun v => ELoad p v
  | AStore p v => fun _ => EStore p v
  | AKfifoLen _ => fun v => EKfifoLen v
  | AKfifoAvail _ => fun v => EKfifoAvail v
  | AKfifoIsEmpty _ => fun b => EKfifoIsEmpty b
  | AKfifoIn _ buf len => fun r => EKfifoIn buf len r
  | AKfifoOut _ len => fun r => EKfifoOut len (fst r) (snd r)
  | AKfifoReset _ => fun _ => EKfifoReset
  | ACopyFromUser from n => fun r => ECopyFromUser from n (fst r) (snd r)
  | ACopyToUser to buf n => fun r => ECopyToUser to buf n r
  end.

(** ** Programs

    A system call is a tree of actions: each node is one action and the
    subtree chosen by the value it returns.  [Spin] stands for a loop
    that has used up its unrolling budget. *)

Inductive prog (A : Type) : Type :=
| Ret (a : A)
| Spin
| Act {R : Type} (a : action R) (k : R -> prog A).

Arguments Ret {A} a.
Arguments Spin {A}.
Arguments Act {A R} a k.

Fixpoint prog_bind {A B : Type} (f : A -> prog B) (p : prog A) : prog B :=
  match p with
  | Ret a => f a
  | Spin => Spin
  | Act a k => Act a (fun r => prog_bind f (k r))
  end.

#[global] Instance prog_ret : MRet prog := @Ret.
#[global] Instance prog_mbind : MBind prog := @prog_bind.

Definition down_interruptible (p : sem_ref) : prog Z := Act (ADown p) Ret.
Definition up (p : sem_ref) : prog unit := Act (AUp p) Ret.
Definition load (p : int_ref) : prog Z := Act (ALoad p) Ret.
Definition store (p : int_ref) (v : Z) : prog unit := Act (AStore p v) Ret.
Definition kfifo_len (f : kfifo_ref) : prog Z := Act (AKfifoLen f) Ret.
Definition kfifo_avail (f : kfifo_ref) : prog Z := Act (AKfifoAvail f) Ret.
Definition kfifo_is_empty (f : kfifo_ref) : prog bool := Act (AKfifoIsEmpty f) Ret.
Definition kfifo_in (f : kfifo_ref) (buf : list byte) (len : Z) : prog Z :=
  Act (AKfifoIn f buf len) Ret.
Definition kfifo_out (f : kfifo_ref) (len : Z) : prog (list byte * Z) :=
  Act (AKfifoOut f len) Ret.
Definition kfifo_reset (f : kfifo_ref) : prog unit := Act (AKfifoReset f) Ret.
Definition copy_from_user (from n : Z) : prog (list byte * Z) :=
  Act (ACopyFromUser from n) Ret.
Definition copy_to_user (to : Z) (buf : list byte) (n : Z) : prog Z :=
  Act (ACopyToUser to buf n) Ret.

(** [v++] and [v--] on an [int] global. *)
Definition incr (p : int_ref) : prog unit :=
  v ← load p; store p (wrap_int (v + 1)).
Definition decr (p : int_ref) : prog unit :=
  v ← load p; store p (wrap_int (v - 1)).

(** C truth of an integer. *)
Definition nonzero (z : Z) : bool := negb (z =? 0).

(** A statement either falls through ([None]) or returns from the
    function with a value. *)
Definition Return {A : Type} (v : A) : prog (option A) := Ret (Some v).
Definition fallthrough {A : Type} : prog (option A) := Ret None.

(** [while (cond) body], unrolled at most [fuel] times. *)
Fixpoint while {A : Type} (fuel : nat) (cond : prog bool) (body : prog (option A))
  : prog (option A) :=
  match fuel with
  | O => Spin
  | S n =>
      c ← cond;
      if c : bool then
        r ← body;
        match r with
        | Some v => Return v
        | None => while n cond body
        end
      else fallthrough
  end.

(** ** The driver *)

(** The signalling block, written out six times in the source (lines
    72-75, 86-89, 112-115, 120-123, 158-161, 196-199) and named there
    by the comment [cond_signal(prod)]:
    [if (nr_X_waiting > 0) { nr_X_waiting--; up(&sem_X); }]. *)
Definition cond_signal (counter : int_ref) (sem : sem_ref) : prog unit :=
  n ← load counter;
  if 0 <? n then
    decr counter;;
    up sem
  else Ret tt.

(** [cond_wait(int *prod)], lines 36-57.  [prod] is the value of the
    caller's local [isProducer]. *)
Definition cond_wait (prod : Z) : prog Z :=
  let aux := if prod =? 0 then &sem_cons else &sem_prod in
  let counter := if prod =? 0 then &nr_cons_waiting else &nr_prod_waiting in
  up &mtx;;
  r ← down_interruptible aux;
  if nonzero r then
    _ ← down_interruptible &mtx;
    decr counter;;
    up &mtx;;
    Ret (- EINTR)
  else
    r ← down_interruptible &mtx;
    if nonzero r then Ret (- EINTR)
    else Ret 0.

(** [fifoproc_open], lines 60-101; [f_mode] is [f->f_mode]. *)
Definition fifoproc_open (fuel : nat) (f_mode : Z) : prog Z :=
  r ← down_interruptible &mtx;
  if nonzero r then Ret (- EINTR) else
  ret ← (if nonzero (Z.land f_mode FMODE_READ) then
           incr &cons_count;;
           let isProducer := 0 in
           cond_signal &nr_prod_waiting &sem_prod;;
           while fuel (c ← load &prod_count; Ret (c =? 0))
             (incr &nr_cons_waiting;;
              r ← cond_wait isProducer;
              if nonzero r then Return (- EINTR) else fallthrough)
         else
           incr &prod_count;;
           let isProducer := 1 in
           cond_signal &nr_cons_waiting &sem_cons;;
           while fuel (c ← load &cons_count; Ret (c =? 0))
             (incr &nr_prod_waiting;;
              r ← cond_wait isProducer;
              if nonzero r then Return (- EINTR) else fallthrough));
  match ret with
  | Some v => Ret v
  | None =>
      up &mtx;;
      Ret 0
  end.

(** [fifoproc_release], lines 104-130. *)
Definition fifoproc_release (f_mode : Z) : prog Z :=
  r ← down_interruptible &mtx;
  if nonzero r then Ret (- EINTR) else
  (if nonzero (Z.land f_mode FMODE_READ) then
     decr &cons_count;;
     cond_signal &nr_prod_waiting &sem_prod
   else
     decr &prod_count;;
     cond_signal &nr_cons_waiting &sem_cons);;
  p ← load &prod_count;
  both ← (if p =? 0 then c ← load &cons_count; Ret (c =? 0) else Ret false);
  (if both : bool then kfifo_reset &cbuffer else Ret tt);;
  up &mtx;;
  Ret 0.

(** [fifoproc_read], lines 133-169.  [kbuffer] holds the bytes
    [kfifo_out] wrote to the local array; [buff] is the user address. *)
Definition fifoproc_read (fuel : nat) (buff size : Z) : prog Z :=
  let isProducer := 0 in
  r ← down_interruptible &mtx;
  if nonzero r then Ret (- EINTR) else
  ret ← while fuel
          (l ← kfifo_len &cbuffer;
           if l =? 0 then p ← load &prod_count; Ret (0 <? p) else Ret false)
          (incr &nr_cons_waiting;;
           r ← cond_wait isProducer;
           if nonzero r then Return (- EINTR) else fallthrough);
  match ret with
  | Some v => Ret v
  | None =>
      e ← kfifo_is_empty &cbuffer;
      if e : bool then
        up &mtx;;
        Ret 0
      else
        l ← kfifo_len &cbuffer;
        len ← (if l <=? size then kfifo_len &cbuffer else Ret size);
        let len := wrap_int len in
        '(kbuffer, n) ← kfifo_out &cbuffer len;
        let len := wrap_int n in
        cond_signal &nr_prod_waiting &sem_prod;;
        up &mtx;;
        r ← copy_to_user buff kbuffer len;
        if nonzero r then Ret (- ENOMEM)
        else Ret len
  end.

(** [fifoproc_write], lines 172-204.  [kbuffer] holds the bytes
    [copy_from_user] wrote to the local array. *)
Definition fifoproc_write (fuel : nat) (buff size : Z) : prog Z :=
  let isProducer := 1 in
  if MAX_KBUF <? size then Ret (- ENOMEM) else
  '(kbuffer, r) ← copy_from_user buff size;
  if nonzero r then Ret (- ENOMEM) else
  r ← down_interruptible &mtx;
  if nonzero r then Ret (- EINTR) else
  ret ← while fuel
          (a ← kfifo_avail &cbuffer;
           if a <? size then c ← load &cons_count; Ret (0 <? c) else Ret false)
          (incr &nr_prod_waiting;;
           r ← cond_wait isProducer;
           if nonzero r then Return (- EINTR) else fallthrough);
  match ret with
  | Some v => Ret v
  | None =>
      kfifo_in &cbuffer kbuffer size;;
      c ← load &cons_count;
      if c =? 0 then
        up &mtx;;
        Ret (- EPIPE)
      else
        cond_signal &nr_cons_waiting &sem_cons;;
        up &mtx;;
        Ret size
  end.

(** The state [modulo_fifo_init] leaves (lines 219 and 234-236, and the
    initialisers of lines 20-26): an empty ring of [MAX_CBUFFER_LEN]
    bytes, the mutex free, both queues empty, no session. *)
Definition modulo_fifo_init (mem : list byte) (um : gmap Z byte) : kstate :=
  mkState (Kfifo.kfifo_alloc MAX_CBUFFER_LEN mem) 0 0 1 0 0 0 0 um.

(** ** Semantics *)

(** *** One call on its own

    [run p sig s] executes [p] from [s] with no other thread taking a
    step in between; [sig] tells whether a signal is delivered to the
    thread once it would sleep.  It returns the events of the thread and
    how the call ended: it returned, it is asleep on a semaphore (with
    the program left to run once woken), or a loop ran out of budget. *)

Inductive outcome (A : Type) : Type :=
| Done (a : A) (s : kstate)
| Blocked (p : prog A) (s : kstate)
| OutOfFuel (s : kstate).

Arguments Done {A} a s.
Arguments Blocked {A} p s.
Arguments OutOfFuel {A} s.

Definition prepend {A : Type} (tr : list event) (x : list event * outcome A)
  : list event * outcome A :=
  match x with
  | (tr', o) => (tr ++ tr', o)
  end.

Fixpoint run {A : Type} (p : prog A) (sig : bool) (s : kstate)
  : list event * outcome A :=
  match p with
  | Ret a => ([], Done a s)
  | Spin => ([], OutOfFuel s)
  | Act a k =>
      match astep a sig s with
      | Some (r, s') => prepend [event_of a r] (run (k r) sig s')
      | None => ([], Blocked p s)
      end
  end.

(** Whether the thread holds the mutex after the events [tr], given
    whether it held it before: a successful [down_interruptible(&mtx)]
    takes it, [up(&mtx)] gives it away. *)
Definition holds_step (h : bool) (e : event) : bool :=
  match e with
  | EDown &mtx r => if r =? 0 then true else h
  | EUp &mtx => false
  | _ => h
  end.

Definition holds_mtx (h : bool) (tr : list event) : bool :=
  fold_left holds_step tr h.

(** *** Control paths

    [path p tr p']: following [tr], whatever values the actions return,
    leads from [p] to [p'].  Every execution of a thread, alone or
    interleaved with others, follows a path of its program. *)

Inductive path {A : Type} : prog A -> list event -> prog A -> Prop :=
| path_nil (p : prog A) : path p [] p
| path_cons {R : Type} (a : action R) (k : R -> prog A) (r : R)
    (tr : list event) (p' : prog A) :
    path (k r) tr p' -> path (Act a k) (event_of a r :: tr) p'.

(** *** Any number of threads

    Each thread is in a system call (the rest of its program) or between
    two calls, and has a signal pending or not.  A step of the system
    is: a thread enters a call, a signal is sent to a thread, or a
    thread takes the next step of its call.  A step of a call is one
    action: an operation on a semaphore or on an [int], which the
    kernel makes one at a time as well, a copy from or to user memory,
    or a whole call of a kfifo function.  The kfifo functions are
    sequences of unlocked accesses: [fine_step] below splits
    [kfifo_in]. *)

Inductive call : Type :=
| Open (f_mode : Z)
| Release (f_mode : Z)
| Read (buff size : Z)
| Write (buff size : Z).

Definition call_prog (fuel : nat) (c : call) : prog Z :=
  match c with
  | Open f_mode => fifoproc_open fuel f_mode
  | Release f_mode => fifoproc_release f_mode
  | Read buff size => fifoproc_read fuel buff size
  | Write buff size => fifoproc_write fuel buff size
  end.

Definition idle (t : option (prog Z * bool)) : Prop :=
  match t with
  | None => True
  | Some (Ret _, _) => True
  | Some _ => False
  end.

Inductive gstep : kstate * gmap nat (prog Z * bool) ->
                  kstate * gmap nat (prog Z * bool) -> Prop :=
| gstep_call s pool tid fuel c :
    idle (pool !! tid) ->
    gstep (s, pool) (s, <[tid := (call_prog fuel c, false)]> pool)
| gstep_signal s pool tid p sig :
    pool !! tid = Some (p, sig) ->
    gstep (s, pool) (s, <[tid := (p, true)]> pool)
| gstep_act s pool tid {R : Type} (a : action R) k sig r s' :
    pool !! tid = Some (Act a k, sig) ->
    astep a sig s = Some (r, s') ->
    gstep (s, pool) (s', <[tid := (k r, sig)]> pool).

(** The states the system can be in after the module is loaded. *)
Definition reachable (g : kstate * gmap nat (prog Z * bool)) : Prop :=
  exists mem um,
    length mem = Z.to_nat MAX_CBUFFER_LEN /\
    rtc gstep (modulo_fifo_init mem um, ∅) g.

Definition outcome_state {A : Type} (o : outcome A) : kstate :=
  match o with
  | Done _ s => s
  | Blocked _ s => s
  | OutOfFuel s => s
  end.

Definition outcome_prog {A : Type} (o : outcome A) : prog A :=
  match o with
  | Done a _ => Ret a
  | Blocked p _ => p
  | OutOfFuel _ => Spin
  end.

(** Running [p] and then [f]. *)
Definition run_then {A B : Type} (x : list event * outcome A) (f : A -> prog B)
    (sig : bool) : list event * outcome B :=
  match snd x with
  | Done a s => prepend (fst x) (run (f a) sig s)
  | Blocked p s => (fst x, Blocked (p ≫= f) s)
  | OutOfFuel s => (fst x, OutOfFuel s)
  end.

(** *** Threads inside [kfifo_in]

    [gstep] takes each action of a thread, a whole call of a kfifo
    function included, as one step.  That is the granularity at which
    threads interleave as long as the mutex keeps them apart.  The
    functions of lib/kfifo.c take no lock of their own: [__kfifo_in]
    reads the free room, copies the bytes in and only then adds their
    number to the write cursor,

      l = kfifo_unused(fifo); if (len > l) len = l;
      kfifo_copy_in(fifo, buf, len, fifo->in);
      fifo->in += len; return len;

    [fine_step] lets another thread run between the copy and the
    update of the cursor.  (It splits [kfifo_in] only, and in two only;
    every execution it has is one of the module.) *)

(** [__kfifo_in] up to and including [kfifo_copy_in]: the bytes are in
    the array, the cursor is not moved yet; [len] as clamped. *)
Definition kfifo_in_store (k : Kfifo.kfifo) (buf : list byte) (len : Z)
  : Kfifo.kfifo * Z :=
  let len := uint len in
  let l := Kfifo.kfifo_unused k in
  let len := if l <? len then l else len in
  (Kfifo.mk (Kfifo.kf_in k) (Kfifo.kf_out k) (Kfifo.kf_mask k)
     (Kfifo.kfifo_copy_in k buf len (Kfifo.kf_in k)),
   len).

(** [fifo->in += len]. *)
Definition kfifo_in_advance (k : Kfifo.kfifo) (len : Z) : Kfifo.kfifo :=
  Kfifo.mk (uint (Kfifo.kf_in k + len)) (Kfifo.kf_out k) (Kfifo.kf_mask k)
    (Kfifo.kf_data k).

(** A thread is at an action of its call, or inside [__kfifo_in] with
    its [len] and what it does with the value returned. *)
Inductive thread : Type :=
| Running (p : prog Z) (sig : bool)
| InKfifoIn (len : Z) (k : Z -> prog Z) (sig : bool).

Definition between_calls (t : option thread) : Prop :=
  match t with
  | None => True
  | Some (Running (Ret _) _) => True
  | Some _ => False
  end.

Inductive fine_step : kstate * gmap nat thread ->
                      kstate * gmap nat thread -> Prop :=
| fine_call s pool tid fuel c :
    between_calls (pool !! tid) ->
    fine_step (s, pool) (s, <[tid := Running (call_prog fuel c) false]> pool)
| fine_signal s pool tid p sig :
    pool !! tid = Some (Running p sig) ->
    fine_step (s, pool) (s, <[tid := Running p true]> pool)
| fine_act s pool tid {R : Type} (a : action R) k sig r s' :
    pool !! tid = Some (Running (Act a k) sig) ->
    astep a sig s = Some (r, s') ->
    fine_step (s, pool) (s', <[tid := Running (k r) sig]> pool)
| fine_kfifo_in_store s pool tid c buf len k sig :
    pool !! tid = Some (Running (Act (AKfifoIn c buf len) k) sig) ->
    fine_step (s, pool)
      (set_cbuffer (fst (kfifo_in_store (cbuffer s) buf len)) s,
       <[tid := InKfifoIn (snd (kfifo_in_store (cbuffer s) buf len)) k sig]> pool)
| fine_kfifo_in_advance s pool tid len k sig :
    pool !! tid = Some (InKfifoIn len k sig) ->
    fine_step (s, pool)
      (set_cbuffer (kfifo_in_advance (cbuffer s) len) s,
       <[tid := Running (k len) sig]> pool).

Definition fine_reachable (g : kstate * gmap nat thread) : Prop :=
  exists mem um,
    length mem = Z.to_nat MAX_CBUFFER_LEN /\
    rtc fine_step (modulo_fifo_init mem um, ∅) g.

(** The first [n] actions of a thread that runs alone. *)
Fixpoint exec (n : nat) (p : prog Z) (sig : bool) (s : kstate) : prog Z * kstate :=
  match n with
  | O => (p, s)
  | S n' =>
      match p with
      | Act a k =>
          match astep a sig s with
          | Some (r, s') => exec n' (k r) sig s'
          | None => (p, s)
          end
      | _ => (p, s)
      end
  end.

(** What a thread that is at a [kfifo_in] is about to store, and what
    it does with the value returned. *)
Definition kfifo_in_pending (p : prog Z)
  : option (list byte * Z * (Z -> prog Z)) :=
  match p with
  | Act a k =>
      match a in action R return (R -> prog Z) -> option _ with
      | AKfifoIn _ buf len => fun k => Some (buf, len, k)
      | _ => fun _ => None
      end k
  | _ => None
  end.

Definition at_kfifo_in (p : prog Z) : bool :=
  match kfifo_in_pending p with
  | Some _ => true
  | None => false
  end.
Definition pending_buf (p : prog Z) : list byte :=
  match kfifo_in_pending p with
  | Some (buf, _, _) => buf
  | None => []
  end.
Definition pending_len (p : prog Z) : Z :=
  match kfifo_in_pending p with
  | Some (_, len, _) => len
  | None => 0
  end.
Definition pending_cont (p : prog Z) : Z -> prog Z :=
  match kfifo_in_pending p with
  | Some (_, _, k) => k
  | None => fun _ => Spin
  end.

(** *** Properties of all control paths

    [safe ok h p Q]: along every path of [p], started after the events
    [h] (latest first), each event is allowed by [ok] given the events
    before it, and [Q] holds of the value returned and of the events up
    to the return. *)

Fixpoint safe {A : Type} (ok : list event -> event -> Prop) (h : list event)
    (p : prog A) (Q : A -> list event -> Prop) : Prop :=
  match p with
  | Ret a => Q a h
  | Spin => True
  | Act a k =>
      forall r, ok h (event_of a r) /\ safe ok (event_of a r :: h) (k r) Q
  end.

(** The counter that registers the sleepers of a queue. *)
Definition waiting_counter (sem : sem_ref) : option int_ref :=
  match sem with
  | &mtx => None
  | &sem_prod => Some &nr_prod_waiting
  | &sem_cons => Some &nr_cons_waiting
  end.

(** An [up] on a queue comes right after the test of its counter, which
    read a positive value, and the decrement of that counter. *)
Definition signal_ok (h : list event) (e : event) : Prop :=
  match e with
  | EUp sem =>
      match waiting_counter sem with
      | None => True
      | Some c =>
          exists v v' h',
            h = EStore c (wrap_int (v' - 1)) :: ELoad c v' :: ELoad c v :: h'
            /\ 0 < v
      end
  | _ => True
  end.

Definition no_reset (h : list event) (e : event) : Prop := e <> EKfifoReset.


(** *** Mapped user memory *)

Definition user_mapped (m : gmap Z byte) (a : Z) (n : nat) : Prop :=
  forall i : nat, (i < n)%nat -> is_Some (m !! (a + Z.of_nat i)).

(** User memory holding [bs] from address [a] on, and nothing else. *)
Fixpoint user_bytes (a : Z) (bs : list byte) : gmap Z byte :=
  match bs with
  | [] => ∅
  | b :: bs' => <[a := b]> (user_bytes (a + 1) bs')
  end.

(** *** What the signalling block does to the state *)

Definition signalled (counter : int_ref) (sem : sem_ref) (s : kstate) : kstate :=
  if 0 <? int_val s counter
  then set_sem sem (sem_count s sem + 1)
         (set_int counter (wrap_int (int_val s counter - 1)) s)
  else s.

Definition signal_trace (counter : int_ref) (sem : sem_ref) (s : kstate)
  : list event :=
  if 0 <? int_val s counter
  then [ELoad counter (int_val s counter); ELoad counter (int_val s counter);
        EStore counter (wrap_int (int_val s counter - 1)); EUp sem]
  else [ELoad counter (int_val s counter)].

(** *** States used as examples *)

(** The module just loaded, with [bs] at user address [a]. *)
Definition loaded (a : Z) (bs : list byte) : kstate :=
  modulo_fifo_init (replicate 4096 Byte.x00) (user_bytes a bs).

(** Three bytes, and the device after a first thread wrote them while
    nobody had it open for reading. *)
Definition abc : list byte := [Byte.x61; Byte.x62; Byte.x63].
Definition abc_queued : kstate :=
  outcome_state (snd (run (fifoproc_write 1 100 3) false (loaded 100 abc))).

(** *** Definitions for the further properties *)

Definition FMODE_WRITE : Z := 2.

Definition after {A : Type} (x : list event * outcome A) : kstate :=
  outcome_state (snd x).
Definition rest {A : Type} (x : list event * outcome A) : prog A :=
  outcome_prog (snd x).

(** The queue a thread sleeps on in [cond_wait] and the counter that
    registers it (the locals [aux] and [counter], lines 41-42). *)
Definition wait_sem (prod : Z) : sem_ref :=
  if prod =? 0 then &sem_cons else &sem_prod.
Definition wait_counter (prod : Z) : int_ref :=
  if prod =? 0 then &nr_cons_waiting else &nr_prod_waiting.

(** [cond_wait] from line 47 on: what is left to run for a thread that
    released the mutex at line 45. *)
Definition cond_wait_asleep (prod : Z) : prog Z :=
  r ← down_interruptible (wait_sem prod);
  if nonzero r then
    _ ← down_interruptible &mtx;
    decr (wait_counter prod);;
    up &mtx;;
    Ret (- EINTR)
  else
    r ← down_interruptible &mtx;
    if nonzero r then Ret (- EINTR)
    else Ret 0.


(** *** The two roles of an open file

    [fifoproc_open] and [fifoproc_release] branch on
    [f->f_mode & FMODE_READ] (lines 67 and 109): a reader is a consumer,
    anything else a producer. *)

Definition is_reader (f_mode : Z) : bool := nonzero (Z.land f_mode FMODE_READ).

(** The session count a role increments, the one it waits on, the value
    of its [isProducer], and the queue and counter of the other role,
    which it signals. *)
Definition own_count (f_mode : Z) : int_ref :=
  if is_reader f_mode then &cons_count else &prod_count.
Definition peer_count (f_mode : Z) : int_ref :=
  if is_reader f_mode then &prod_count else &cons_count.
Definition isProducer (f_mode : Z) : Z :=
  if is_reader f_mode then 0 else 1.
Definition peer_counter (f_mode : Z) : int_ref :=
  if is_reader f_mode then &nr_prod_waiting else &nr_cons_waiting.
Definition peer_sem (f_mode : Z) : sem_ref :=
  if is_reader f_mode then &sem_prod else &sem_cons.

(** Some small states: a consumer opened the fresh device and sleeps, a
    producer then opened it, and the consumer woke up. *)
Definition consumer_asleep (a : Z) (bs : list byte) :=
  run (fifoproc_open 2 FMODE_READ) false (loaded a bs).
Definition producer_in (a : Z) (bs : list byte) :=
  run (fifoproc_open 2 FMODE_WRITE) false (after (consumer_asleep a bs)).
Definition pipe_ready (a : Z) (bs : list byte) : kstate :=
  after (run (rest (consumer_asleep a bs)) false (after (producer_in a bs))).

(** A page of user data, and the device with one consumer, one producer
    and three bytes queued, the page lying at user address 100. *)
Definition page : list byte := replicate 4096 Byte.x61.
Definition three_queued : kstate :=
  after (run (fifoproc_write 1 100 3) false (pipe_ready 100 page)).

(** Nobody has the device open, nobody sleeps, the mutex is free. *)
Definition idle_device (cb : Kfifo.kfifo) (um : gmap Z byte) : kstate :=
  mkState cb 0 0 1 0 0 0 0 um.

(** The device with nobody on the reading side and a buffer that is
    full: a page was written to the fresh device. *)
Definition full_no_consumer : kstate :=
  after (run (fifoproc_write 1 100 4096) false (loaded 100 page)).


(** *** What is left of a call that sleeps

    A thread asleep in the [cond_wait] of a wait loop has the rest of
    [cond_wait] to run, then the test of its result, then the loop
    again ([n] more rounds at most). *)
Definition wait_loop_asleep (prod : Z) (n : nat) (cond : prog bool)
    (body : prog (option Z)) : prog (option Z) :=
  (cond_wait_asleep prod
     ≫= (fun r => if nonzero r then Return (- EINTR) else fallthrough))
    ≫= (fun r => match r with
                 | Some v => Return v
                 | None => while n cond body
                 end).

(** [fifoproc_open] asleep at line 79 or 93. *)
Definition open_asleep (n : nat) (f_mode : Z) : prog Z :=
  ret ← wait_loop_asleep (isProducer f_mode) n
          (c ← load (peer_count f_mode); Ret (c =? 0))
          (incr (wait_counter (isProducer f_mode));;
           r ← cond_wait (isProducer f_mode);
           if nonzero r then Return (- EINTR) else fallthrough);
  match ret with
  | Some v => Ret v
  | None =>
      up &mtx;;
      Ret 0
  end.

(** [fifoproc_write] asleep at line 186; [kbuffer] holds the bytes
    copied from user memory. *)
Definition write_asleep (n : nat) (kbuffer : list byte) (size : Z) : prog Z :=
  ret ← wait_loop_asleep 1 n
          (a ← kfifo_avail &cbuffer;
           if a <? size then c ← load &cons_count; Ret (0 <? c) else Ret false)
          (incr &nr_prod_waiting;;
           r ← cond_wait 1;
           if nonzero r then Return (- EINTR) else fallthrough);
  match ret with
  | Some v => Ret v
  | None =>
      kfifo_in &cbuffer kbuffer size;;
      c ← load &cons_count;
      if c =? 0 then
        up &mtx;;
        Ret (- EPIPE)
      else
        cond_signal &nr_cons_waiting &sem_cons;;
        up &mtx;;
        Ret size
  end.

(** [fifoproc_read] asleep at line 146. *)
Definition read_asleep (n : nat) (buff size : Z) : prog Z :=
  ret ← wait_loop_asleep 0 n
          (l ← kfifo_len &cbuffer;
           if l =? 0 then p ← load &prod_count; Ret (0 <? p) else Ret false)
          (incr &nr_cons_waiting;;
           r ← cond_wait 0;
           if nonzero r then Return (- EINTR) else fallthrough);
  match ret with
  | Some v => Ret v
  | None =>
      e ← kfifo_is_empty &cbuffer;
      if e : bool then
        up &mtx;;
        Ret 0
      else
        l ← kfifo_len &cbuffer;
        len ← (if l <=? size then kfifo_len &cbuffer else Ret size);
        let len := wrap_int len in
        '(kbuffer, n) ← kfifo_out &cbuffer len;
        let len := wrap_int n in
        cond_signal &nr_prod_waiting &sem_prod;;
        up &mtx;;
        r ← copy_to_user buff kbuffer len;
        if nonzero r then Ret (- ENOMEM)
        else Ret len
  end.

(** [fifoproc_write] from line 183 on: the caller holds the mutex and
    [kbuffer] holds the bytes copied from user memory. *)
Definition write_locked (fuel : nat) (kbuffer : list byte) (size : Z) : prog Z :=
  ret ← while fuel
          (a ← kfifo_avail &cbuffer;
           if a <? size then c ← load &cons_count; Ret (0 <? c) else Ret false)
          (incr &nr_prod_waiting;;
           r ← cond_wait 1;
           if nonzero r then Return (- EINTR) else fallthrough);
  match ret with
  | Some v => Ret v
  | None =>
      kfifo_in &cbuffer kbuffer size;;
      c ← load &cons_count;
      if c =? 0 then
        up &mtx;;
        Ret (- EPIPE)
      else
        cond_signal &nr_cons_waiting &sem_cons;;
        up &mtx;;
        Ret size
  end.

(** *** The locking discipline

    Whether the thread holds the mutex after the events [h], latest
    first, of a call it entered without it. *)
Fixpoint held (h : list event) : bool :=
  match h with
  | [] => false
  | e :: h' => holds_step (held h') e
  end.

(** The two counts of open sessions. *)
Definition session_count (c : int_ref) : bool :=
  match c with
  | &prod_count | &cons_count => true
  | _ => false
  end.

(** What a call may do next, given what it did so far ([in_release]
    tells whether the call is [fifoproc_release]):
    - it waits on a semaphore, and touches user memory, only while it
      does not hold the mutex;
    - it touches the ring buffer and the session counts only while it
      holds the mutex;
    - it resets the ring buffer only in [fifoproc_release];
    - it posts a queue only right after it saw a registered waiter and
      took one off the count. *)
Definition discipline (in_release : bool) (h : list event) (e : event) : Prop :=
  match e with
  | EDown _ _ => held h = false
  | ECopyFromUser _ _ _ _ | ECopyToUser _ _ _ _ => held h = false
  | EUp _ => signal_ok h e
  | ELoad c _ | EStore c _ => session_count c = true -> held h = true
  | EKfifoLen _ | EKfifoAvail _ | EKfifoIsEmpty _
  | EKfifoIn _ _ _ | EKfifoOut _ _ _ => held h = true
  | EKfifoReset => held h = true /\ in_release = true
  end.

Definition is_release (c : call) : bool :=
  match c with
  | Release _ => true
  | _ => false
  end.

(** The values a call can return, given what it did: [read] returns a
    count only if it is the one [kfifo_out] gave it. *)
Definition may_return (c : call) (v : Z) (h : list event) : Prop :=
  match c with
  | Open _ | Release _ => v = 0 \/ v = - EINTR
  | Read _ _ =>
      v = 0 \/ v = - EINTR \/ v = - ENOMEM \/
      exists len buf r, EKfifoOut len buf r ∈ h /\ v = wrap_int r
  | Write _ size => v = size \/ v = - EINTR \/ v = - ENOMEM \/ v = - EPIPE
  end.

(** The events that touch the ring buffer or a session count, and those
    at which a thread may have to wait: for a semaphore, or for a page
    of user memory. *)
Definition touches_shared (e : event) : bool :=
  match e with
  | EKfifoLen _ | EKfifoAvail _ | EKfifoIsEmpty _
  | EKfifoIn _ _ _ | EKfifoOut _ _ _ | EKfifoReset => true
  | ELoad c _ | EStore c _ => session_count c
  | _ => false
  end.

Definition may_wait (e : event) : bool :=
  match e with
  | EDown _ _ | ECopyFromUser _ _ _ _ | ECopyToUser _ _ _ _ => true
  | _ => false
  end.

(** *** Loading the module

    [modulo_fifo_init] (lines 215-256) talks to the kernel only: what it
    does is the list of kernel functions it calls, given what each of
    them answers. *)

Module Loading.

Inductive kcall : Type :=
| alloc_chrdev_region (ret : Z)
| kfifo_alloc (ret : Z)
| cdev_alloc (null : bool)
| cdev_init
| cdev_add (ret : Z)
| sema_init (p : sem_ref) (val : Z)
| class_create (err : option Z)
| device_create (null : bool)
| class_destroy
| device_destroy
| cdev_del
| unregister_chrdev_region
| kfifo_free
| printk.

(** The answers of the kernel: the values returned by
    [alloc_chrdev_region], [kfifo_alloc] and [cdev_add], whether
    [cdev_alloc] and [device_create] return [NULL], and the error
    [class_create] returns, if it returns one ([IS_ERR], [PTR_ERR]). *)
Record kernel : Type := {
  alloc_chrdev_region_ret : Z;
  kfifo_alloc_ret : Z;
  cdev_alloc_null : bool;
  cdev_add_ret : Z;
  class_create_err : option Z;
  device_create_null : bool
}.

(** An error pointer holds one of the values -4095 .. -1. *)
Definition MAX_ERRNO : Z := 4095.
Definition answers_ok (k : kernel) : Prop :=
  match class_create_err k with
  | Some err => - MAX_ERRNO <= err <= -1
  | None => True
  end.

(** The value returned and the calls made, in order. *)
Definition modulo_fifo_init (k : kernel) : Z * list kcall :=
  let ret := alloc_chrdev_region_ret k in
  if nonzero ret then
    (- ENOMEM, [alloc_chrdev_region ret; printk])
  else if nonzero (kfifo_alloc_ret k) then
    (- ENOMEM, [alloc_chrdev_region ret; kfifo_alloc (kfifo_alloc_ret k); printk])
  else
    let calls := [alloc_chrdev_region ret; kfifo_alloc (kfifo_alloc_ret k)] in
    if cdev_alloc_null k then (- ENOMEM, calls ++ [cdev_alloc true])
    else
      let calls := calls ++ [cdev_alloc false; cdev_init] in
      let ret := cdev_add_ret k in
      if nonzero ret then (- ENOMEM, calls ++ [cdev_add ret])
      else
        let calls := calls ++ [cdev_add ret; sema_init &mtx 1;
                               sema_init &sem_prod 0; sema_init &sem_cons 0] in
        match class_create_err k with
        | Some err =>
            (wrap_int err, calls ++ [class_create (Some err); printk])
        | None =>
            let calls := calls ++ [class_create None] in
            if device_create_null k then
              (- ENOMEM, calls ++ [device_create true; printk; class_destroy])
            else
              (ret, calls ++ [device_create false; printk])
        end.

(** The calls that give something back to the kernel. *)
Definition gives_back (c : kcall) : bool :=
  match c with
  | class_destroy | device_destroy | cdev_del
  | unregister_chrdev_region | kfifo_free => true
  | _ => false
  end.

End Loading.

(** What [device_create] may return: [NULL], an error pointer
    ([ERR_PTR(err)], which is how the kernel's [device_create] reports a
    failure), or the device it made.  Line 246 tests the pointer against
    [NULL] only. *)
Inductive device_create_result : Type :=
| device_NULL
| device_ERR_PTR (err : Z)
| device_made.

(** The answers [k] with [dev] as the answer of [device_create]. *)
Definition with_device_create (k : Loading.kernel) (dev : device_create_result)
  : Loading.kernel :=
  {| Loading.alloc_chrdev_region_ret := Loading.alloc_chrdev_region_ret k;
     Loading.kfifo_alloc_ret := Loading.kfifo_alloc_ret k;
     Loading.cdev_alloc_null := Loading.cdev_alloc_null k;
     Loading.cdev_add_ret := Loading.cdev_add_ret k;
     Loading.class_create_err := Loading.class_create_err k;
     Loading.device_create_null :=
       match dev with
       | device_NULL => true
       | _ => false
       end |}.

(** ** Facts about the ring buffer *)

Module KfifoFacts.

Import Kfifo.

Section kfifo_facts.

Local Ltac Zify.zify_post_hook ::= Z.div_mod_to_equations.

Lemma land_mask (off : Z) : Z.land off (MAX_CBUFFER_LEN - 1) = off mod 4096.
Proof. exact (Z.land_ones off 12 ltac:(lia)). Qed.

Lemma uint_small (z : Z) : 0 <= z < 2 ^ 32 -> uint z = z.
Proof. intros H. unfold uint. apply Z.mod_small. exact H. Qed.

Lemma uint_range (z : Z) : 0 <= uint z < 2 ^ 32.
Proof. unfold uint. apply Z.mod_pos_bound. reflexivity. Qed.

Lemma memcpy_length (dst src : list byte) (off : Z) :
  (Z.to_nat off + length src <= length dst)%nat ->
  length (memcpy dst off src) = length dst.
Proof.
  intros H. unfold memcpy.
  rewrite !length_app, length_take, length_drop. lia.
Qed.

Lemma memcpy_lookup (dst src : list byte) (off : Z) (j : nat) :
  (Z.to_nat off + length src <= length dst)%nat ->
  memcpy dst off src !! j =
    if decide (Z.to_nat off <= j < Z.to_nat off + length src)%nat
    then src !! (j - Z.to_nat off)%nat else dst !! j.
Proof.
  intros H. unfold memcpy.
  destruct (decide (j < Z.to_nat off)%nat) as [Hlt | Hge].
  - rewrite lookup_app_l by (rewrite length_take; lia).
    rewrite lookup_take_lt by lia.
    case_decide; [lia | reflexivity].
  - rewrite lookup_app_r by (rewrite length_take; lia).
    rewrite length_take, Nat.min_l by lia.
    case_decide as Hin.
    + rewrite lookup_app_l by lia. reflexivity.
    + rewrite lookup_app_r by lia. rewrite lookup_drop. f_equal. lia.
Qed.

Lemma copy_out_length (k : kfifo) (len off : Z) :
  kf_mask k = MAX_CBUFFER_LEN - 1 ->
  length (kf_data k) = Z.to_nat MAX_CBUFFER_LEN ->
  0 <= len <= MAX_CBUFFER_LEN ->
  length (kfifo_copy_out k len off) = Z.to_nat len.
Proof.
  intros Hm Hd Hl. unfold kfifo_copy_out. rewrite Hm, land_mask.
  change (MAX_CBUFFER_LEN - 1 + 1) with 4096.
  unfold MAX_CBUFFER_LEN in *.
  rewrite length_app, !length_take, length_drop, Hd. lia.
Qed.

Lemma copy_out_lookup (k : kfifo) (len off : Z) (i : nat) :
  kf_mask k = MAX_CBUFFER_LEN - 1 ->
  length (kf_data k) = Z.to_nat MAX_CBUFFER_LEN ->
  0 <= len <= MAX_CBUFFER_LEN ->
  (i < Z.to_nat len)%nat ->
  kfifo_copy_out k len off !! i =
    kf_data k !! Z.to_nat ((off + Z.of_nat i) mod 4096).
Proof.
  intros Hm Hd Hl Hi. unfold kfifo_copy_out. rewrite Hm, land_mask.
  change (MAX_CBUFFER_LEN - 1 + 1) with 4096.
  unfold MAX_CBUFFER_LEN in *.
  set (o := off mod 4096).
  assert (Ho : 0 <= o < 4096) by (apply Z.mod_pos_bound; lia).
  set (l := Z.min len (4096 - o)).
  destruct (decide (i < Z.to_nat l)%nat) as [Hlt | Hge].
  - rewrite lookup_app_l by (rewrite length_take, length_drop; lia).
    rewrite lookup_take_lt, lookup_drop by lia.
    f_equal. subst o l. lia.
  - rewrite lookup_app_r by (rewrite length_take, length_drop; lia).
    rewrite length_take, length_drop.
    rewrite lookup_take_lt by lia.
    f_equal. subst o l. lia.
Qed.

Lemma copy_in_length (k : kfifo) (src : list byte) (len off : Z) :
  kf_mask k = MAX_CBUFFER_LEN - 1 ->
  length (kf_data k) = Z.to_nat MAX_CBUFFER_LEN ->
  0 <= len <= MAX_CBUFFER_LEN ->
  length (kfifo_copy_in k src len off) = Z.to_nat MAX_CBUFFER_LEN.
Proof.
  intros Hm Hd Hl. unfold kfifo_copy_in. rewrite Hm, land_mask.
  change (MAX_CBUFFER_LEN - 1 + 1) with 4096.
  unfold MAX_CBUFFER_LEN in *.
  set (o := off mod 4096).
  assert (Ho : 0 <= o < 4096) by (apply Z.mod_pos_bound; lia).
  set (l := Z.min len (4096 - o)).
  assert (H1 : length (memcpy (kf_data k) o (take (Z.to_nat l) src))
               = length (kf_data k)).
  { apply memcpy_length. rewrite length_take. lia. }
  rewrite memcpy_length; [rewrite H1; exact Hd |].
  rewrite H1, length_take, length_drop. lia.
Qed.

Lemma copy_in_lookup (k : kfifo) (src : list byte) (len off : Z) (j : nat) :
  kf_mask k = MAX_CBUFFER_LEN - 1 ->
  length (kf_data k) = Z.to_nat MAX_CBUFFER_LEN ->
  0 <= len <= MAX_CBUFFER_LEN ->
  (Z.to_nat len <= length src)%nat ->
  (j < Z.to_nat MAX_CBUFFER_LEN)%nat ->
  kfifo_copy_in k src len off !! j =
    if decide ((Z.of_nat j - off) mod 4096 < len)
    then src !! Z.to_nat ((Z.of_nat j - off) mod 4096)
    else kf_data k !! j.
Proof.
  intros Hm Hd Hl Hs Hj. unfold kfifo_copy_in. rewrite Hm, land_mask.
  change (MAX_CBUFFER_LEN - 1 + 1) with 4096.
  unfold MAX_CBUFFER_LEN in *.
  set (o := off mod 4096).
  assert (Ho : 0 <= o < 4096) by (apply Z.mod_pos_bound; lia).
  set (l := Z.min len (4096 - o)).
  assert (H1 : length (memcpy (kf_data k) o (take (Z.to_nat l) src))
               = length (kf_data k)).
  { apply memcpy_length. rewrite length_take. lia. }
  rewrite memcpy_lookup by (rewrite H1, length_take, length_drop; lia).
  rewrite length_take, length_drop.
  case_decide as Hlow.
  - rewrite lookup_take_lt, lookup_drop by lia.
    case_decide as Hc; [f_equal | exfalso]; subst o l; lia.
  - rewrite memcpy_lookup by (rewrite length_take; lia).
    rewrite length_take.
    case_decide as Hmid.
    + rewrite lookup_take_lt by lia.
      case_decide as Hc; [f_equal | exfalso]; subst o l; lia.
    + case_decide as Hc; [exfalso; subst o l; lia | reflexivity].
Qed.

Lemma kfifo_len_range (k : kfifo) :
  kfifo_wf k -> 0 <= kfifo_len k <= MAX_CBUFFER_LEN.
Proof.
  intros [_ _ _ _ Hlen]. split; [apply uint_range | exact Hlen].
Qed.

Lemma kfifo_unused_eq (k : kfifo) :
  kfifo_wf k -> kfifo_unused k = MAX_CBUFFER_LEN - kfifo_len k.
Proof.
  intros [Hm _ Hi Ho Hlen]. unfold kfifo_unused, kfifo_len, uint in *.
  rewrite Hm. unfold MAX_CBUFFER_LEN in *.
  change (2 ^ 32) with 4294967296 in *. lia.
Qed.

Lemma kfifo_is_empty_len (k : kfifo) :
  kfifo_wf k -> kfifo_is_empty k = (kfifo_len k =? 0).
Proof.
  intros [_ _ Hi Ho _]. unfold kfifo_is_empty, kfifo_len, uint.
  change (2 ^ 32) with 4294967296 in *.
  destruct (Z.eqb_spec (kf_in k) (kf_out k)) as [He | Hne]; symmetry;
    [apply Z.eqb_eq | apply Z.eqb_neq]; lia.
Qed.

Lemma kfifo_contents_length (k : kfifo) :
  kfifo_wf k -> length (kfifo_contents k) = Z.to_nat (kfifo_len k).
Proof.
  intros Hwf. unfold kfifo_contents.
  apply copy_out_length; [apply Hwf | apply Hwf |].
  apply kfifo_len_range, Hwf.
Qed.

Lemma kfifo_contents_lookup (k : kfifo) (i : nat) :
  kfifo_wf k -> (i < Z.to_nat (kfifo_len k))%nat ->
  kfifo_contents k !! i =
    kf_data k !! Z.to_nat ((kf_out k + Z.of_nat i) mod 4096).
Proof.
  intros Hwf Hi. unfold kfifo_contents.
  apply copy_out_lookup; [apply Hwf | apply Hwf | | exact Hi].
  apply kfifo_len_range, Hwf.
Qed.

Lemma kfifo_alloc_wf (mem : list byte) :
  length mem = Z.to_nat MAX_CBUFFER_LEN ->
  kfifo_wf (kfifo_alloc MAX_CBUFFER_LEN mem).
Proof. intros H. split; simpl; try done. Qed.

Lemma kfifo_reset_wf (k : kfifo) : kfifo_wf k -> kfifo_wf (kfifo_reset k).
Proof. intros [Hm Hd _ _ _]. split; simpl; try done. Qed.

Lemma kfifo_reset_len (k : kfifo) : kfifo_len (kfifo_reset k) = 0.
Proof. reflexivity. Qed.

Lemma kfifo_len_0_contents (k : kfifo) :
  kfifo_wf k -> kfifo_len k = 0 -> kfifo_contents k = [].
Proof.
  intros Hwf H0. apply nil_length_inv.
  rewrite kfifo_contents_length, H0 by exact Hwf. reflexivity.
Qed.

(** [kfifo_in] keeps the shape of the buffer whatever it is given. *)
Lemma kfifo_in_wf (k : kfifo) (buf : list byte) (len : Z) :
  kfifo_wf k -> kfifo_wf (fst (kfifo_in k buf len)).
Proof.
  intros Hwf. pose proof (kfifo_unused_eq k Hwf) as Hu.
  pose proof (kfifo_len_range k Hwf) as Hr.
  pose proof (uint_range len) as Hlen.
  destruct Hwf as [Hm Hd Hi Ho Hl].
  unfold kfifo_in. simpl.
  set (n := if kfifo_unused k <? uint len then kfifo_unused k else uint len).
  assert (Hn : 0 <= n <= MAX_CBUFFER_LEN - kfifo_len k).
  { subst n. destruct (Z.ltb_spec (kfifo_unused k) (uint len)); lia. }
  split; simpl; try done.
  - apply copy_in_length; [done | done | lia].
  - apply uint_range.
  - unfold kfifo_len, uint, MAX_CBUFFER_LEN in *. simpl.
    change (2 ^ 32) with 4294967296 in *. lia.
Qed.

Lemma kfifo_in_ret (k : kfifo) (buf : list byte) (len : Z) :
  kfifo_wf k ->
  snd (kfifo_in k buf len) = Z.min (uint len) (MAX_CBUFFER_LEN - kfifo_len k).
Proof.
  intros Hwf. unfold kfifo_in. simpl. rewrite kfifo_unused_eq by exact Hwf.
  destruct (Z.ltb_spec (MAX_CBUFFER_LEN - kfifo_len k) (uint len)); lia.
Qed.

Lemma kfifo_in_len (k : kfifo) (buf : list byte) (len : Z) :
  kfifo_wf k ->
  kfifo_len (fst (kfifo_in k buf len)) = kfifo_len k + snd (kfifo_in k buf len).
Proof.
  intros Hwf. pose proof (kfifo_in_ret k buf len Hwf) as Hret.
  pose proof (kfifo_len_range k Hwf) as Hr.
  pose proof (uint_range len) as Hlen.
  destruct Hwf as [Hm Hd Hi Ho Hl].
  unfold kfifo_in in *. simpl in *.
  set (n := if kfifo_unused k <? uint len then kfifo_unused k else uint len) in *.
  unfold kfifo_len, uint, MAX_CBUFFER_LEN in *. simpl.
  change (2 ^ 32) with 4294967296 in *. lia.
Qed.

(** Enqueuing appends, at the tail of the queue, as many bytes of
    [buf] as fit. *)
Lemma kfifo_in_contents (k : kfifo) (buf : list byte) (len : Z) :
  kfifo_wf k ->
  (Z.to_nat (snd (kfifo_in k buf len)) <= length buf)%nat ->
  kfifo_contents (fst (kfifo_in k buf len)) =
    kfifo_contents k ++ take (Z.to_nat (snd (kfifo_in k buf len))) buf.
Proof.
  intros Hwf Hbuf.
  pose proof (kfifo_in_wf k buf len Hwf) as Hwf'.
  pose proof (kfifo_in_len k buf len Hwf) as Hlen'.
  pose proof (kfifo_in_ret k buf len Hwf) as Hret.
  pose proof (kfifo_len_range k Hwf) as Hr.
  pose proof (uint_range len) as Hul.
  set (n := snd (kfifo_in k buf len)) in *.
  assert (Hn : 0 <= n <= MAX_CBUFFER_LEN - kfifo_len k) by lia.
  apply list_eq. intros i.
  destruct (decide (i < Z.to_nat (kfifo_len k + n))%nat) as [Hi | Hi].
  - rewrite kfifo_contents_lookup by (rewrite ?Hlen'; done).
    change (kf_data (kfifo_in k buf len).1)
      with (kfifo_copy_in k buf n (kf_in k)).
    change (kf_out (kfifo_in k buf len).1) with (kf_out k).
    assert (Hj : 0 <= (kf_out k + Z.of_nat i) mod 4096 < 4096)
      by (apply Z.mod_pos_bound; lia).
    rewrite copy_in_lookup;
      [ | apply Hwf | apply Hwf | lia | exact Hbuf | unfold MAX_CBUFFER_LEN; lia ].
    rewrite Z2Nat.id by lia.
    destruct Hwf as [Hm Hd Hin Hout Hl].
    assert (Hlen : kfifo_len k = (kf_in k - kf_out k) mod 4294967296)
      by reflexivity.
    unfold MAX_CBUFFER_LEN in *. change (2 ^ 32) with 4294967296 in *.
    destruct (decide (i < Z.to_nat (kfifo_len k))%nat) as [Hlo | Hhi].
    + rewrite lookup_app_l by (rewrite kfifo_contents_length; [lia | done]).
      rewrite kfifo_contents_lookup by (done || lia).
      case_decide as Hc; [exfalso; lia | reflexivity].
    + rewrite lookup_app_r by (rewrite kfifo_contents_length; [lia | done]).
      rewrite kfifo_contents_length by done.
      rewrite lookup_take_lt by lia.
      case_decide as Hc; [f_equal; lia | exfalso; lia].
  - rewrite !lookup_ge_None_2; [done | |].
    + rewrite length_app, length_take, kfifo_contents_length by done. lia.
    + rewrite kfifo_contents_length, Hlen' by done. lia.
Qed.

Lemma kfifo_out_wf (k : kfifo) (len : Z) :
  kfifo_wf k -> kfifo_wf (fst (fst (kfifo_out k len))).
Proof.
  intros Hwf. pose proof (uint_range len) as Hul.
  pose proof (kfifo_len_range k Hwf) as Hr.
  destruct Hwf as [Hm Hd Hi Ho Hl].
  unfold kfifo_out, kfifo_out_peek. simpl.
  change (uint (kf_in k - kf_out k)) with (kfifo_len k).
  set (n := if kfifo_len k <? uint len then kfifo_len k else uint len).
  assert (Hn : 0 <= n <= kfifo_len k).
  { subst n. destruct (Z.ltb_spec (kfifo_len k) (uint len)); lia. }
  split; simpl; try done.
  - apply uint_range.
  - unfold kfifo_len, uint, MAX_CBUFFER_LEN in *. simpl.
    change (2 ^ 32) with 4294967296 in *. lia.
Qed.

Lemma kfifo_out_ret (k : kfifo) (len : Z) :
  snd (kfifo_out k len) = Z.min (uint len) (kfifo_len k).
Proof.
  unfold kfifo_out, kfifo_out_peek. simpl.
  change (uint (kf_in k - kf_out k)) with (kfifo_len k).
  destruct (Z.ltb_spec (kfifo_len k) (uint len)); lia.
Qed.

Lemma kfifo_out_len (k : kfifo) (len : Z) :
  kfifo_wf k ->
  kfifo_len (fst (fst (kfifo_out k len))) = kfifo_len k - snd (kfifo_out k len).
Proof.
  intros Hwf. pose proof (kfifo_out_ret k len) as Hret.
  pose proof (uint_range len) as Hul.
  pose proof (kfifo_len_range k Hwf) as Hr.
  destruct Hwf as [Hm Hd Hi Ho Hl].
  unfold kfifo_out, kfifo_out_peek in *. simpl in *.
  change (uint (kf_in k - kf_out k)) with (kfifo_len k) in *.
  set (n := if kfifo_len k <? uint len then kfifo_len k else uint len) in *.
  unfold kfifo_len, uint, MAX_CBUFFER_LEN in *. simpl.
  change (2 ^ 32) with 4294967296 in *. lia.
Qed.

(** Dequeuing hands out the oldest bytes, in order... *)
Lemma kfifo_out_bytes (k : kfifo) (len : Z) :
  kfifo_wf k ->
  snd (fst (kfifo_out k len)) =
    take (Z.to_nat (snd (kfifo_out k len))) (kfifo_contents k).
Proof.
  intros Hwf. pose proof (kfifo_out_ret k len) as Hret.
  pose proof (uint_range len) as Hul.
  pose proof (kfifo_len_range k Hwf) as Hr.
  set (n := snd (kfifo_out k len)) in *.
  change (snd (fst (kfifo_out k len))) with (kfifo_copy_out k n (kf_out k)).
  assert (Hn : 0 <= n <= kfifo_len k) by lia.
  apply list_eq. intros i.
  destruct (decide (i < Z.to_nat n)%nat) as [Hi | Hi].
  - rewrite lookup_take_lt by lia.
    rewrite kfifo_contents_lookup by (done || lia).
    apply copy_out_lookup; [apply Hwf | apply Hwf | lia | done].
  - rewrite !lookup_ge_None_2; [done | |].
    + rewrite length_take, kfifo_contents_length by done. lia.
    + rewrite copy_out_length; [lia | apply Hwf | apply Hwf | lia].
Qed.

(** ... and leaves the rest. *)
Lemma kfifo_out_contents (k : kfifo) (len : Z) :
  kfifo_wf k ->
  kfifo_contents (fst (fst (kfifo_out k len))) =
    drop (Z.to_nat (snd (kfifo_out k len))) (kfifo_contents k).
Proof.
  intros Hwf. pose proof (kfifo_out_ret k len) as Hret.
  pose proof (kfifo_out_wf k len Hwf) as Hwf'.
  pose proof (kfifo_out_len k len Hwf) as Hlen'.
  pose proof (uint_range len) as Hul.
  pose proof (kfifo_len_range k Hwf) as Hr.
  set (n := snd (kfifo_out k len)) in *.
  assert (Hn : 0 <= n <= kfifo_len k) by lia.
  apply list_eq. intros i. rewrite lookup_drop.
  destruct (decide (i < Z.to_nat (kfifo_len k - n))%nat) as [Hi | Hi].
  - rewrite !kfifo_contents_lookup by (rewrite ?Hlen'; done || lia).
    change (kf_data (kfifo_out k len).1.1) with (kf_data k).
    change (kf_out (kfifo_out k len).1.1) with (uint (kf_out k + n)).
    f_equal. f_equal. destruct Hwf as [Hm Hd Hin Hout Hl].
    unfold uint. change (2 ^ 32) with 4294967296 in *. lia.
  - rewrite !lookup_ge_None_2; [done | |].
    + rewrite kfifo_contents_length by done. lia.
    + rewrite kfifo_contents_length, Hlen' by done. lia.
Qed.

End kfifo_facts.

End KfifoFacts.

(** ** General facts *)

Arguments wrap_int : simpl never.
Arguments uint : simpl never.
Arguments ulong : simpl never.
Arguments user_read : simpl never.
Arguments user_write : simpl never.
Arguments Kfifo.kfifo_len : simpl never.
Arguments Kfifo.kfifo_unused : simpl never.
Arguments Kfifo.kfifo_avail : simpl never.
Arguments Kfifo.kfifo_is_empty : simpl never.
Arguments Kfifo.kfifo_in : simpl never.
Arguments Kfifo.kfifo_out : simpl never.
Arguments Kfifo.kfifo_reset : simpl never.
Arguments Kfifo.kfifo_contents : simpl never.

Lemma wrap_int_small (z : Z) : - 2 ^ 31 <= z < 2 ^ 31 -> wrap_int z = z.
Proof.
  intros H. unfold wrap_int. rewrite Z.mod_small; lia.
Qed.

Lemma wrap_int_succ_neq (z : Z) : wrap_int (z + 1) <> z.
Proof.
  unfold wrap_int. change (2 ^ 32) with 4294967296.
  change (2 ^ 31) with 2147483648.
  pose proof (Z.mod_pos_bound (z + 1 + 2147483648) 4294967296 ltac:(lia)).
  pose proof (Z.div_mod (z + 1 + 2147483648) 4294967296 ltac:(lia)).
  lia.
Qed.

Lemma prepend_fst {A : Type} (t : list event) (x : list event * outcome A) :
  fst (prepend t x) = t ++ fst x.
Proof. destruct x. reflexivity. Qed.

Lemma prepend_snd {A : Type} (t : list event) (x : list event * outcome A) :
  snd (prepend t x) = snd x.
Proof. destruct x. reflexivity. Qed.

Lemma prepend_prepend {A : Type} (t1 t2 : list event) (x : list event * outcome A) :
  prepend t1 (prepend t2 x) = prepend (t1 ++ t2) x.
Proof. destruct x. unfold prepend. rewrite app_assoc. reflexivity. Qed.

Lemma run_bind {A B : Type} (p : prog A) (f : A -> prog B) (sig : bool) (s : kstate) :
  run (p ≫= f) sig s = run_then (run p sig s) f sig.
Proof.
  revert s. induction p as [a | | R a k IH]; intros s.
  - unfold run_then. simpl. destruct (run (f a) sig s). reflexivity.
  - reflexivity.
  - change (run (Act a (fun r => k r ≫= f)) sig s
            = run_then (run (Act a k) sig s) f sig).
    simpl. destruct (astep a sig s) as [[r s'] |]; [| reflexivity].
    rewrite IH. unfold run_then.
    destruct (run (k r) sig s') as [tr [v s1 | q s1 | s1]]; simpl;
      try reflexivity.
    destruct (run (f v) sig s1). reflexivity.
Qed.

(** A run on its own follows a control path of the program. *)
Lemma run_path {A : Type} (p : prog A) (sig : bool) (s : kstate) :
  path p (fst (run p sig s)) (outcome_prog (snd (run p sig s))).
Proof.
  revert s. induction p as [a | | R a k IH]; intros s; simpl.
  - constructor.
  - constructor.
  - destruct (astep a sig s) as [[r s'] |]; simpl.
    + rewrite prepend_fst, prepend_snd. apply path_cons, IH.
    + constructor.
Qed.

(** A run on its own is an execution of the system in which only that
    thread takes steps. *)
Lemma run_gsteps (p : prog Z) (sig : bool) (s : kstate)
    (pool : gmap nat (prog Z * bool)) (tid : nat) :
  pool !! tid = Some (p, sig) ->
  rtc gstep (s, pool)
    (outcome_state (snd (run p sig s)),
     <[tid := (outcome_prog (snd (run p sig s)), sig)]> pool).
Proof.
  revert s pool. induction p as [a | | R a k IH]; intros s pool Hp; simpl.
  - rewrite insert_id by done. constructor.
  - rewrite insert_id by done. constructor.
  - destruct (astep a sig s) as [[r s'] |] eqn:Ha; simpl.
    + rewrite prepend_snd.
      eapply rtc_l; [eapply gstep_act; eassumption |].
      specialize (IH r s' (<[tid := (k r, sig)]> pool)).
      rewrite insert_insert_eq in IH. apply IH, lookup_insert_eq.
    + rewrite insert_id by done. constructor.
Qed.

(** No action damages the ring buffer. *)
Lemma astep_wf {R : Type} (a : action R) (sig : bool) (s s' : kstate) (r : R) :
  astep a sig s = Some (r, s') ->
  Kfifo.kfifo_wf (cbuffer s) -> Kfifo.kfifo_wf (cbuffer s').
Proof.
  intros Ha Hwf. destruct a; simpl in Ha.
  - destruct (0 <? sem_count s p); [| destruct sig]; simplify_eq;
      try done; destruct p; done.
  - simplify_eq. destruct p; done.
  - simplify_eq. done.
  - simplify_eq. destruct p; done.
  - simplify_eq. done.
  - simplify_eq. done.
  - simplify_eq. done.
  - simplify_eq. simpl. apply KfifoFacts.kfifo_in_wf, Hwf.
  - simplify_eq. simpl. apply KfifoFacts.kfifo_out_wf, Hwf.
  - simplify_eq. simpl. apply KfifoFacts.kfifo_reset_wf, Hwf.
  - simplify_eq. done.
  - simplify_eq. done.
Qed.

Lemma gstep_wf (g g' : kstate * gmap nat (prog Z * bool)) :
  gstep g g' ->
  Kfifo.kfifo_wf (cbuffer (fst g)) -> Kfifo.kfifo_wf (cbuffer (fst g')).
Proof.
  intros Hstep. destruct Hstep as [| | s pool tid R a k sig r s' _ Ha]; simpl;
    try done.
  eapply astep_wf, Ha.
Qed.

Lemma reachable_wf (g : kstate * gmap nat (prog Z * bool)) :
  reachable g -> Kfifo.kfifo_wf (cbuffer (fst g)).
Proof.
  intros (mem & um & Hmem & Hsteps).
  pose proof (KfifoFacts.kfifo_alloc_wf mem Hmem) as Hinit.
  change (Kfifo.kfifo_wf (cbuffer (fst (modulo_fifo_init mem um,
            (∅ : gmap nat (prog Z * bool)))))) in Hinit.
  induction Hsteps as [| g1 g2 g3 Hstep _ IH]; [exact Hinit |].
  apply IH. eapply gstep_wf; eassumption.
Qed.

(** ** Facts about control paths *)

Lemma path_inv {A : Type} (p : prog A) (tr : list event) (p' : prog A) :
  path p tr p' ->
  (tr = [] /\ p' = p) \/
  match p with
  | Act a k => exists r tr', tr = event_of a r :: tr' /\ path (k r) tr' p'
  | _ => False
  end.
Proof.
  intros H. destruct H as [p | R a k r tr p' H]; [left | right]; eauto.
Qed.

Section safe_facts.

Context {A : Type} (ok : list event -> event -> Prop).

Lemma safe_mono (h : list event) (p : prog A) (Q Q' : A -> list event -> Prop) :
  (forall a h', Q a h' -> Q' a h') -> safe ok h p Q -> safe ok h p Q'.
Proof.
  intros HQ. revert h. induction p as [a | | R a k IH]; intros h; simpl.
  - apply HQ.
  - done.
  - intros H r. destruct (H r) as [Hok Hk]. split; [exact Hok |].
    apply IH, Hk.
Qed.

Lemma safe_path_ok (h : list event) (p p' : prog A) (Q : A -> list event -> Prop)
    (tr pre post : list event) (e : event) :
  safe ok h p Q -> path p tr p' -> tr = pre ++ e :: post ->
  ok (rev pre ++ h) e.
Proof.
  intros Hs Hp. revert h pre Hs.
  induction Hp as [p | R a k r tr p' Hp IH]; intros h pre Hs Heq.
  - destruct pre; discriminate.
  - simpl in Hs. destruct (Hs r) as [Hok Hk].
    destruct pre as [| e' pre]; simpl in Heq; simplify_eq.
    + exact Hok.
    + simpl. rewrite <- app_assoc. simpl. apply IH; [exact Hk | reflexivity].
Qed.

Lemma safe_path_ret (h : list event) (p : prog A) (Q : A -> list event -> Prop)
    (tr : list event) (a : A) :
  safe ok h p Q -> path p tr (Ret a) -> Q a (rev tr ++ h).
Proof.
  intros Hs Hp. revert h Hs. remember (Ret a) as p' eqn:Hp'.
  induction Hp as [p | R b k r tr p' Hp IH]; intros h Hs.
  - subst p. exact Hs.
  - simpl in Hs. destruct (Hs r) as [_ Hk].
    simpl. rewrite <- app_assoc. simpl. apply IH; [exact Hp' | exact Hk].
Qed.

End safe_facts.

Lemma safe_bind {A B : Type} (ok : list event -> event -> Prop) (h : list event)
    (p : prog A) (f : A -> prog B) (Q : B -> list event -> Prop) :
  safe ok h p (fun a h' => safe ok h' (f a) Q) -> safe ok h (p ≫= f) Q.
Proof.
  revert h. induction p as [a | | R a k IH]; intros h; simpl.
  - done.
  - done.
  - intros H r. destruct (H r) as [Hok Hk]. split; [exact Hok |].
    apply IH, Hk.
Qed.

(** ** Facts about user memory *)

Lemma user_read_S (m : gmap Z byte) (a : Z) (n : nat) :
  user_read m a (S n) =
    match m !! a with
    | Some b => b :: user_read m (a + 1) n
    | None => []
    end.
Proof. reflexivity. Qed.

Lemma user_write_cons (m : gmap Z byte) (a : Z) (b : byte) (bs : list byte) :
  user_write m a (b :: bs) =
    match m !! a with
    | Some _ => user_write (<[a := b]> m) (a + 1) bs
    | None => (m, Z.of_nat (length (b :: bs)))
    end.
Proof. reflexivity. Qed.

Lemma user_write_keeps (bs : list byte) (m : gmap Z byte) (a a' : Z) (b : byte) :
  a < a' -> m !! a = Some b -> fst (user_write m a' bs) !! a = Some b.
Proof.
  revert m a'. induction bs as [| b' bs IH]; intros m a' Hlt Hm; [done |].
  rewrite user_write_cons. destruct (m !! a'); [| done].
  apply IH; [lia |]. rewrite lookup_insert_ne by lia. exact Hm.
Qed.

Lemma user_write_mapped (m : gmap Z byte) (a : Z) (bs : list byte) :
  user_mapped m a (length bs) ->
  snd (user_write m a bs) = 0 /\
  user_read (fst (user_write m a bs)) a (length bs) = bs.
Proof.
  revert m a. induction bs as [| b bs IH]; intros m a Hmap.
  - done.
  - rewrite user_write_cons. simpl length. rewrite user_read_S.
    destruct (Hmap 0%nat ltac:(simpl; lia)) as [b0 Hb0].
    rewrite Z.add_0_r in Hb0. rewrite Hb0.
    assert (Hmap' : user_mapped (<[a := b]> m) (a + 1) (length bs)).
    { intros i Hi. destruct (Hmap (S i) ltac:(simpl; lia)) as [x Hx].
      exists x. rewrite lookup_insert_ne by lia. rewrite <- Hx. f_equal. lia. }
    destruct (IH _ _ Hmap') as [IH1 IH2]. split; [exact IH1 |].
    rewrite (user_write_keeps bs _ a (a + 1) b) by (lia || apply lookup_insert_eq).
    f_equal. exact IH2.
Qed.

Lemma user_write_unmapped (m : gmap Z byte) (a : Z) (b : byte) (bs : list byte) :
  m !! a = None -> user_write m a (b :: bs) = (m, Z.of_nat (length (b :: bs))).
Proof. intros H. rewrite user_write_cons, H. reflexivity. Qed.

Lemma user_read_length (m : gmap Z byte) (a : Z) (n : nat) :
  (length (user_read m a n) <= n)%nat.
Proof.
  revert a. induction n as [| n IH]; intros a; [done |].
  rewrite user_read_S. destruct (m !! a); simpl; [| lia].
  specialize (IH (a + 1)). lia.
Qed.

(** ** Facts about runs *)

Arguments cond_signal : simpl never.
Arguments cond_wait : simpl never.
Arguments while : simpl never.
Arguments fifoproc_open : simpl never.
Arguments fifoproc_release : simpl never.
Arguments fifoproc_read : simpl never.
Arguments fifoproc_write : simpl never.

Lemma while_S {A : Type} (n : nat) (cond : prog bool) (body : prog (option A)) :
  while (S n) cond body =
    (c ← cond;
     if c : bool then
       r ← body;
       match r with
       | Some v => Return v
       | None => while n cond body
       end
     else fallthrough).
Proof. reflexivity. Qed.

Lemma sem_count_set_int (c : int_ref) (v : Z) (s : kstate) (sem : sem_ref) :
  sem_count (set_int c v s) sem = sem_count s sem.
Proof. destruct c, sem; reflexivity. Qed.

Lemma run_cond_signal (counter : int_ref) (sem : sem_ref) (sig : bool) (s : kstate) :
  run (cond_signal counter sem) sig s =
    (signal_trace counter sem s, Done tt (signalled counter sem s)).
Proof.
  unfold cond_signal, signal_trace, signalled. cbn.
  destruct (0 <? int_val s counter) eqn:Hn; cbn; [| reflexivity].
  rewrite sem_count_set_int. reflexivity.
Qed.

Lemma signalled_cbuffer (c : int_ref) (sem : sem_ref) (s : kstate) :
  cbuffer (signalled c sem s) = cbuffer s.
Proof. unfold signalled. destruct (0 <? int_val s c), c, sem; reflexivity. Qed.

Lemma signalled_user_mem (c : int_ref) (sem : sem_ref) (s : kstate) :
  user_mem (signalled c sem s) = user_mem s.
Proof. unfold signalled. destruct (0 <? int_val s c), c, sem; reflexivity. Qed.

Lemma signalled_mtx (c : int_ref) (sem : sem_ref) (s : kstate) :
  sem <> &mtx -> mtx (signalled c sem s) = mtx s.
Proof.
  intros H. unfold signalled. destruct (0 <? int_val s c), c, sem; done.
Qed.

Lemma signalled_prod_count (c : int_ref) (sem : sem_ref) (s : kstate) :
  c <> &prod_count -> prod_count (signalled c sem s) = prod_count s.
Proof.
  intros H. unfold signalled. destruct (0 <? int_val s c), c, sem; done.
Qed.

Lemma signalled_cons_count (c : int_ref) (sem : sem_ref) (s : kstate) :
  c <> &cons_count -> cons_count (signalled c sem s) = cons_count s.
Proof.
  intros H. unfold signalled. destruct (0 <? int_val s c), c, sem; done.
Qed.

(** A call run on its own from a reachable state, by a thread that is
    between two calls, ends in a reachable state. *)
Lemma reachable_run (s : kstate) (pool : gmap nat (prog Z * bool)) (tid : nat)
    (fuel : nat) (c : call) :
  reachable (s, pool) -> idle (pool !! tid) ->
  reachable
    (outcome_state (snd (run (call_prog fuel c) false s)),
     <[tid := (outcome_prog (snd (run (call_prog fuel c) false s)), false)]> pool).
Proof.
  intros (mem & um & Hmem & Hsteps) Hidle. exists mem, um. split; [exact Hmem |].
  eapply rtc_trans; [exact Hsteps |].
  eapply rtc_l; [apply (gstep_call s pool tid fuel c Hidle) |].
  pose proof (run_gsteps (call_prog fuel c) false s
                (<[tid := (call_prog fuel c, false)]> pool) tid
                (lookup_insert_eq _ _ _)) as H.
  rewrite insert_insert_eq in H. exact H.
Qed.

Lemma reachable_init (mem : list byte) (um : gmap Z byte) :
  length mem = Z.to_nat MAX_CBUFFER_LEN ->
  reachable (modulo_fifo_init mem um, ∅).
Proof. intros H. exists mem, um. split; [exact H | constructor]. Qed.

(** ** The capacity of the buffer *)

(** With every call of a kfifo function taken as one step, as [gstep]
    takes it, the ring buffer holds between 0 and [MAX_CBUFFER_LEN] =
    4096 bytes in every state the system can reach, and that many bytes
    are queued in it. *)
Lemma length_within_capacity_whole_kfifo_calls
    (g : kstate * gmap nat (prog Z * bool)) :
  reachable g ->
  0 <= Kfifo.kfifo_len (cbuffer (fst g)) <= MAX_CBUFFER_LEN /\
  length (Kfifo.kfifo_contents (cbuffer (fst g)))
    = Z.to_nat (Kfifo.kfifo_len (cbuffer (fst g))).
Proof.
  intros Hr. pose proof (reachable_wf g Hr) as Hwf. split.
  - apply KfifoFacts.kfifo_len_range, Hwf.
  - apply KfifoFacts.kfifo_contents_length, Hwf.
Qed.

(** A call that runs from its first to its last action without another
    thread in between keeps the shape of the ring buffer. *)
Lemma run_wf {A : Type} (p : prog A) (sig : bool) (s : kstate) :
  Kfifo.kfifo_wf (cbuffer s) ->
  Kfifo.kfifo_wf (cbuffer (outcome_state (snd (run p sig s)))).
Proof.
  revert s. induction p as [a | | R a k IH]; intros s Hwf; simpl; try exact Hwf.
  destruct (astep a sig s) as [[r s'] |] eqn:Ha; simpl; [| exact Hwf].
  rewrite prepend_snd. apply IH. eapply astep_wf; eassumption.
Qed.

(** Calls made one after the other, each left to run until it returns
    or sleeps, keep the buffer within its capacity. *)
Lemma calls_in_turn_keep_capacity (fuel : nat) (cs : list (call * bool))
    (s : kstate) :
  Kfifo.kfifo_wf (cbuffer s) ->
  let s' := fold_left
              (fun s c => outcome_state (snd (run (call_prog fuel (fst c)) (snd c) s)))
              cs s in
  0 <= Kfifo.kfifo_len (cbuffer s') <= MAX_CBUFFER_LEN.
Proof.
  intros Hwf s'. apply KfifoFacts.kfifo_len_range. subst s'.
  revert s Hwf. induction cs as [| c cs IH]; intros s Hwf; simpl; [exact Hwf |].
  apply IH, run_wf, Hwf.
Qed.

(** *** Two writers inside [kfifo_in] *)

(** The two halves of [__kfifo_in] make up [kfifo_in]. *)
Lemma kfifo_in_split (k : Kfifo.kfifo) (buf : list byte) (len : Z) :
  Kfifo.kfifo_in k buf len =
    (kfifo_in_advance (fst (kfifo_in_store k buf len))
       (snd (kfifo_in_store k buf len)),
     snd (kfifo_in_store k buf len)).
Proof. reflexivity. Qed.

Lemma exec_fine_steps (n : nat) (p : prog Z) (sig : bool) (s : kstate)
    (pool : gmap nat thread) (tid : nat) :
  pool !! tid = Some (Running p sig) ->
  rtc fine_step (s, pool)
    (snd (exec n p sig s), <[tid := Running (fst (exec n p sig s)) sig]> pool).
Proof.
  revert p s pool. induction n as [| n IH]; intros p s pool Hp; simpl.
  - rewrite insert_id by done. constructor.
  - destruct p as [v | | R a k]; simpl; try (rewrite insert_id by done; constructor).
    destruct (astep a sig s) as [[r s'] |] eqn:Ha; simpl.
    + eapply rtc_l; [eapply fine_act; eassumption |].
      specialize (IH (k r) s' (<[tid := Running (k r) sig]> pool)).
      rewrite insert_insert_eq in IH. apply IH, lookup_insert_eq.
    + rewrite insert_id by done. constructor.
Qed.

Lemma run_fine_steps (p : prog Z) (sig : bool) (s : kstate)
    (pool : gmap nat thread) (tid : nat) :
  pool !! tid = Some (Running p sig) ->
  rtc fine_step (s, pool)
    (outcome_state (snd (run p sig s)),
     <[tid := Running (outcome_prog (snd (run p sig s))) sig]> pool).
Proof.
  revert s pool. induction p as [a | | R a k IH]; intros s pool Hp; simpl.
  - rewrite insert_id by done. constructor.
  - rewrite insert_id by done. constructor.
  - destruct (astep a sig s) as [[r s'] |] eqn:Ha; simpl.
    + rewrite prepend_snd.
      eapply rtc_l; [eapply fine_act; eassumption |].
      specialize (IH r s' (<[tid := Running (k r) sig]> pool)).
      rewrite insert_insert_eq in IH. apply IH, lookup_insert_eq.
    + rewrite insert_id by done. constructor.
Qed.

Lemma fine_kfifo_in_store_pending (s : kstate) (pool : gmap nat thread)
    (tid : nat) (p : prog Z) (sig : bool) :
  pool !! tid = Some (Running p sig) ->
  at_kfifo_in p = true ->
  fine_step (s, pool)
    (set_cbuffer
       (fst (kfifo_in_store (cbuffer s) (pending_buf p) (pending_len p))) s,
     <[tid := InKfifoIn
                (snd (kfifo_in_store (cbuffer s) (pending_buf p) (pending_len p)))
                (pending_cont p) sig]> pool).
Proof.
  intros Hp Hx.
  destruct p as [v | | R a k]; try discriminate.
  unfold pending_buf, pending_len, pending_cont.
  destruct a; try discriminate. cbn.
  eapply fine_kfifo_in_store. exact Hp.
Qed.

Ltac find_thread :=
  repeat first [ rewrite lookup_insert_eq
               | rewrite lookup_insert_ne by done
               | rewrite lookup_empty ].

(** [H] says how far the system got; [step] takes it further. *)
Ltac then_ H step :=
  let H' := fresh "H" in
  eassert (H' : rtc fine_step _ _)
    by (eapply rtc_trans; [exact H | step]);
  clear H; rename H' into H;
  match type of H with
  | rtc _ _ (?s, _) =>
      tryif is_var s then idtac
      else (let sn := fresh "s" in set (sn := s) in H)
  end.

(** C9: the length of the ring buffer can leave 0 .. [MAX_CBUFFER_LEN].
    A consumer sleeps in [open]; a second consumer takes the mutex; a
    signal reaches the first, whose [down_interruptible(&mtx)] at line
    48 fails and which executes [up(&mtx)] at line 50 all the same; the
    second goes on and sleeps, and the count of the mutex is 2.  Two
    producers open the device and each writes 4096 bytes: both take the
    mutex, both find 4096 bytes free, both copy their bytes in, and both
    add 4096 to the write cursor.  The buffer of 4096 bytes then has a
    length of 8192. *)
Theorem C9_interleaved_writes_exceed_capacity :
  exists g,
    fine_reachable g /\
    Kfifo.kfifo_len (cbuffer (fst g)) = 2 * MAX_CBUFFER_LEN.
Proof.
  set (s0 := modulo_fifo_init (replicate 4096 Byte.x00) (user_bytes 100 page)).
  assert (H : rtc fine_step (s0, (∅ : gmap nat thread)) (s0, ∅)) by apply rtc_refl.
  (* a consumer opens the device and sleeps *)
  then_ H ltac:(eapply rtc_once, fine_call
                  with (tid := 1%nat) (fuel := 1%nat) (c := Open FMODE_READ);
                find_thread; exact I).
  then_ H ltac:(eapply run_fine_steps with (sig := false) (tid := 1%nat);
                find_thread; reflexivity).
  (* a second consumer takes the mutex *)
  then_ H ltac:(eapply rtc_once, fine_call
                  with (tid := 2%nat) (fuel := 1%nat) (c := Open FMODE_READ);
                find_thread; exact I).
  then_ H ltac:(eapply exec_fine_steps with (n := 1%nat) (sig := false) (tid := 2%nat);
                find_thread; reflexivity).
  (* a signal reaches the first, which leaves through lines 48-51 *)
  then_ H ltac:(eapply rtc_once, fine_signal with (tid := 1%nat);
                find_thread; reflexivity).
  then_ H ltac:(eapply run_fine_steps with (sig := true) (tid := 1%nat);
                find_thread; reflexivity).
  (* the second goes on and sleeps *)
  then_ H ltac:(eapply run_fine_steps with (sig := false) (tid := 2%nat);
                find_thread; reflexivity).
  (* two producers open the device *)
  then_ H ltac:(eapply rtc_once, fine_call
                  with (tid := 3%nat) (fuel := 1%nat) (c := Open FMODE_WRITE);
                find_thread; exact I).
  then_ H ltac:(eapply run_fine_steps with (sig := false) (tid := 3%nat);
                find_thread; reflexivity).
  then_ H ltac:(eapply rtc_once, fine_call
                  with (tid := 4%nat) (fuel := 1%nat) (c := Open FMODE_WRITE);
                find_thread; exact I).
  then_ H ltac:(eapply run_fine_steps with (sig := false) (tid := 4%nat);
                find_thread; reflexivity).
  (* each writes a page, up to its [kfifo_in] *)
  then_ H ltac:(eapply rtc_once, fine_call
                  with (tid := 3%nat) (fuel := 1%nat) (c := Write 100 4096);
                find_thread; vm_compute; exact I).
  then_ H ltac:(eapply exec_fine_steps with (n := 3%nat) (sig := false) (tid := 3%nat);
                find_thread; reflexivity).
  then_ H ltac:(eapply rtc_once, fine_call
                  with (tid := 4%nat) (fuel := 1%nat) (c := Write 100 4096);
                find_thread; vm_compute; exact I).
  then_ H ltac:(eapply exec_fine_steps with (n := 3%nat) (sig := false) (tid := 4%nat);
                find_thread; reflexivity).
  (* both copy their bytes in, then both move the cursor *)
  then_ H ltac:(eapply rtc_once, fine_kfifo_in_store_pending with (tid := 3%nat);
                [find_thread; reflexivity | vm_compute; reflexivity]).
  then_ H ltac:(eapply rtc_once, fine_kfifo_in_store_pending with (tid := 4%nat);
                [find_thread; reflexivity | vm_compute; reflexivity]).
  then_ H ltac:(eapply rtc_once, fine_kfifo_in_advance with (tid := 3%nat);
                find_thread; reflexivity).
  then_ H ltac:(eapply rtc_once, fine_kfifo_in_advance with (tid := 4%nat);
                find_thread; reflexivity).
  match type of H with
  | rtc _ _ (?s, ?P) => exists (s, P)
  end.
  split.
  - exists (replicate 4096 Byte.x00), (user_bytes 100 page).
    split; [vm_compute; reflexivity | exact H].
  - cbn [fst]. vm_compute. reflexivity.
Qed.

(** ** End of file on read

    A [kfifo_wf] ring and a free mutex are what the calls below start
    from: [0 < mtx s] says that nobody is inside the critical section,
    so that the call does not have to wait for the mutex itself. *)

(** C5: [read] on an empty buffer while no producer has the device open
    returns 0 at once: it takes the mutex, finds the buffer empty and
    [prod_count] at 0, releases the mutex and returns, without waiting
    on a queue and without changing the state, signal pending or not. *)
Theorem C5_read_eof (fuel : nat) (buff size : Z) (sig : bool) (s : kstate) :
  (0 < fuel)%nat ->
  Kfifo.kfifo_wf (cbuffer s) ->
  0 < mtx s ->
  Kfifo.kfifo_len (cbuffer s) = 0 ->
  prod_count s = 0 ->
  run (fifoproc_read fuel buff size) sig s =
    ([EDown &mtx 0; EKfifoLen 0; ELoad &prod_count 0; EKfifoIsEmpty true;
      EUp &mtx],
     Done 0 s).
Proof.
  intros Hf Hwf Hm Hlen Hp.
  destruct fuel as [| fuel]; [lia |].
  apply Z.ltb_lt in Hm.
  unfold fifoproc_read. cbn. rewrite Hm. cbn. rewrite while_S. cbn.
  rewrite Hlen. cbn. rewrite Hp. cbn.
  rewrite KfifoFacts.kfifo_is_empty_len, Hlen by exact Hwf. cbn.
  destruct s; cbn in *. do 3 f_equal; lia.
Qed.

Lemma C5_read_eof_witness :
  run (fifoproc_read 1 100 10) false (loaded 100 []) =
    ([EDown &mtx 0; EKfifoLen 0; ELoad &prod_count 0; EKfifoIsEmpty true;
      EUp &mtx],
     Done 0 (loaded 100 [])).
Proof.
  apply C5_read_eof.
  - lia.
  - split; vm_compute; (reflexivity || (split; congruence) || congruence).
  - reflexivity.
  - reflexivity.
  - reflexivity.
Defined.

(** ** Reading from a buffer that holds bytes *)

Lemma ulong_small (z : Z) : 0 <= z < 2 ^ 64 -> ulong z = z.
Proof. intros H. unfold ulong. apply Z.mod_small. exact H. Qed.

(** [read] on a buffer that holds bytes: the oldest [count] bytes leave
    the ring, a producer is signalled, the mutex is released, and only
    then are the bytes copied to user memory; the value returned
    depends on that copy. *)
Lemma run_read_nonempty (fuel : nat) (buff size : Z) (sig : bool) (s : kstate) :
  (0 < fuel)%nat ->
  Kfifo.kfifo_wf (cbuffer s) ->
  0 < mtx s ->
  0 < Kfifo.kfifo_len (cbuffer s) ->
  0 <= size ->
  let count := Z.min size (Kfifo.kfifo_len (cbuffer s)) in
  let bytes := take (Z.to_nat count) (Kfifo.kfifo_contents (cbuffer s)) in
  let s1 := set_sem &mtx (mtx s - 1)
              (set_cbuffer (fst (fst (Kfifo.kfifo_out (cbuffer s) count))) s) in
  let s2 := set_sem &mtx (mtx s) (signalled &nr_prod_waiting &sem_prod s1) in
  let cp := do_copy_to_user (user_mem s) buff bytes count in
  exists t,
    run (fifoproc_read fuel buff size) sig s =
      (t ++ [EKfifoOut count bytes count]
         ++ signal_trace &nr_prod_waiting &sem_prod s1
         ++ [EUp &mtx; ECopyToUser buff bytes count (snd cp)],
       Done (if nonzero (snd cp) then - ENOMEM else count)
         (set_user_mem (fst cp) s2)).
Proof.
  intros Hf Hwf Hm Hlen Hsize count bytes s1 s2 cp.
  pose proof (KfifoFacts.kfifo_len_range _ Hwf) as Hr.
  unfold MAX_CBUFFER_LEN in Hr.
  set (l := Kfifo.kfifo_len (cbuffer s)) in *.
  assert (Hcount : 0 <= count <= 4096) by (subst count; lia).
  destruct fuel as [| fuel]; [lia |].
  apply Z.ltb_lt in Hm.
  assert (Hl0 : (l =? 0) = false) by (apply Z.eqb_neq; lia).
  assert (Hw : wrap_int count = count) by (apply wrap_int_small; lia).
  assert (Hret : snd (Kfifo.kfifo_out (cbuffer s) count) = count).
  { rewrite KfifoFacts.kfifo_out_ret.
    rewrite KfifoFacts.uint_small by lia. fold l. subst count. lia. }
  assert (Hbytes : snd (fst (Kfifo.kfifo_out (cbuffer s) count)) = bytes).
  { rewrite KfifoFacts.kfifo_out_bytes by exact Hwf. rewrite Hret. reflexivity. }
  unfold fifoproc_read. cbn. rewrite Hm. cbn. rewrite while_S. cbn.
  fold l. rewrite Hl0. cbn.
  rewrite KfifoFacts.kfifo_is_empty_len by exact Hwf. fold l. rewrite Hl0. cbn.
  fold l. rewrite run_bind.
  assert (Hsel : exists t,
             run (if l <=? size then kfifo_len &cbuffer else Ret size) sig
               (set_sem &mtx (mtx s - 1) s)
             = (t, Done count (set_sem &mtx (mtx s - 1) s))).
  { destruct (Z.leb_spec l size).
    - eexists. cbn. fold l. replace count with l by (subst count; lia).
      reflexivity.
    - eexists. cbn. replace count with size by (subst count; lia).
      reflexivity. }
  destruct Hsel as [t Hsel]. cbn in Hsel. rewrite Hsel. cbn.
  rewrite Hw, Hret, Hbytes, Hw.
  rewrite run_bind, run_cond_signal. cbn.
  rewrite signalled_mtx, signalled_user_mem by done. cbn.
  fold cp.
  exists ([EDown &mtx 0; EKfifoLen l; EKfifoIsEmpty false; EKfifoLen l] ++ t).
  replace (mtx s - 1 + 1) with (mtx s) by lia.
  destruct (nonzero (snd cp)); cbn; rewrite <- ?app_assoc; reflexivity.
Qed.

Ltac solve_kfifo_wf :=
  split; vm_compute; first [reflexivity | split; congruence | congruence].

(** C6: [read(size)] on a buffer that holds bytes, into user memory that
    is mapped, returns [min size length]; the bytes delivered to the
    user are the oldest that many bytes of the queue, in order; they are
    gone from the queue and the rest stays; the count is between 0 and
    [size]; the mutex is free again. *)
Theorem C6_read_pops_oldest (fuel : nat) (buff size : Z) (sig : bool) (s : kstate) :
  (0 < fuel)%nat ->
  Kfifo.kfifo_wf (cbuffer s) ->
  0 < mtx s ->
  0 < Kfifo.kfifo_len (cbuffer s) ->
  0 <= size ->
  user_mapped (user_mem s) buff
    (Z.to_nat (Z.min size (Kfifo.kfifo_len (cbuffer s)))) ->
  exists tr s',
    run (fifoproc_read fuel buff size) sig s
      = (tr, Done (Z.min size (Kfifo.kfifo_len (cbuffer s))) s') /\
    0 <= Z.min size (Kfifo.kfifo_len (cbuffer s)) <= size /\
    user_read (user_mem s') buff
        (Z.to_nat (Z.min size (Kfifo.kfifo_len (cbuffer s))))
      = take (Z.to_nat (Z.min size (Kfifo.kfifo_len (cbuffer s))))
          (Kfifo.kfifo_contents (cbuffer s)) /\
    Kfifo.kfifo_contents (cbuffer s')
      = drop (Z.to_nat (Z.min size (Kfifo.kfifo_len (cbuffer s))))
          (Kfifo.kfifo_contents (cbuffer s)) /\
    Kfifo.kfifo_len (cbuffer s')
      = Kfifo.kfifo_len (cbuffer s) - Z.min size (Kfifo.kfifo_len (cbuffer s)) /\
    mtx s' = mtx s.
Proof.
  intros Hf Hwf Hm Hlen Hsize Hmap.
  destruct (run_read_nonempty fuel buff size sig s Hf Hwf Hm Hlen Hsize)
    as [t Hrun].
  pose proof (KfifoFacts.kfifo_len_range _ Hwf) as Hr.
  unfold MAX_CBUFFER_LEN in Hr.
  pose proof (KfifoFacts.kfifo_contents_length _ Hwf) as Hcl.
  set (l := Kfifo.kfifo_len (cbuffer s)) in *.
  set (count := Z.min size l) in *.
  set (bytes := take (Z.to_nat count) (Kfifo.kfifo_contents (cbuffer s))) in *.
  assert (Hcount : 0 <= count <= l) by (subst count; lia).
  assert (Hbl : length bytes = Z.to_nat count)
    by (subst bytes; rewrite length_take; lia).
  assert (Hret : snd (Kfifo.kfifo_out (cbuffer s) count) = count).
  { rewrite KfifoFacts.kfifo_out_ret.
    rewrite KfifoFacts.uint_small by lia. fold l. lia. }
  assert (Hcp : do_copy_to_user (user_mem s) buff bytes count
                = user_write (user_mem s) buff bytes).
  { unfold do_copy_to_user. rewrite ulong_small by lia.
    rewrite take_ge by lia. reflexivity. }
  rewrite <- Hbl in Hmap.
  destruct (user_write_mapped _ _ _ Hmap) as [Hw0 Hrd].
  rewrite Hcp, Hw0 in Hrun. cbn in Hrun.
  eexists _, _. split; [exact Hrun |].
  cbn. rewrite signalled_cbuffer. cbn.
  split; [subst count; lia |].
  split; [rewrite <- Hbl; exact Hrd |].
  pose proof (KfifoFacts.kfifo_out_contents (cbuffer s) count Hwf) as Hc.
  pose proof (KfifoFacts.kfifo_out_len (cbuffer s) count Hwf) as Hl.
  rewrite Hret in Hc, Hl. fold l in Hl.
  split; [exact Hc |]. split; [exact Hl | reflexivity].
Qed.

Lemma abc_queued_wf : Kfifo.kfifo_wf (cbuffer abc_queued).
Proof. solve_kfifo_wf. Qed.

Lemma C6_read_pops_oldest_witness :
  exists tr s',
    run (fifoproc_read 1 100 2) false abc_queued = (tr, Done 2 s') /\
    0 <= 2 <= 2 /\
    user_read (user_mem s') 100 2 = [Byte.x61; Byte.x62] /\
    Kfifo.kfifo_contents (cbuffer s') = [Byte.x63] /\
    Kfifo.kfifo_len (cbuffer s') = 1 /\
    mtx s' = 1.
Proof.
  assert (Hmap : user_mapped (user_mem abc_queued) 100
            (Z.to_nat (Z.min 2 (Kfifo.kfifo_len (cbuffer abc_queued))))).
  { intros i Hi. change (i < 2)%nat in Hi.
    destruct i as [| [| i]]; [vm_compute; eauto | vm_compute; eauto | lia]. }
  exact (C6_read_pops_oldest 1 100 2 false abc_queued ltac:(lia) abc_queued_wf
           ltac:(reflexivity) ltac:(reflexivity) ltac:(lia) Hmap).
Defined.

(** C10: in [read] the bytes leave the ring ([kfifo_out]) and the mutex
    is released before the copy to user memory is attempted; when that
    copy fails [read] returns [-ENOMEM], and the bytes it took are no
    longer in the buffer. *)
Theorem C10_read_copy_failure (fuel : nat) (buff size : Z) (sig : bool) (s : kstate) :
  (0 < fuel)%nat ->
  Kfifo.kfifo_wf (cbuffer s) ->
  0 < mtx s ->
  0 < Kfifo.kfifo_len (cbuffer s) ->
  0 <= size ->
  snd (do_copy_to_user (user_mem s) buff
         (take (Z.to_nat (Z.min size (Kfifo.kfifo_len (cbuffer s))))
            (Kfifo.kfifo_contents (cbuffer s)))
         (Z.min size (Kfifo.kfifo_len (cbuffer s)))) <> 0 ->
  exists tr1 tr2 r s',
    run (fifoproc_read fuel buff size) sig s =
      (tr1 ++ [EKfifoOut (Z.min size (Kfifo.kfifo_len (cbuffer s)))
                 (take (Z.to_nat (Z.min size (Kfifo.kfifo_len (cbuffer s))))
                    (Kfifo.kfifo_contents (cbuffer s)))
                 (Z.min size (Kfifo.kfifo_len (cbuffer s)))]
           ++ tr2
           ++ [EUp &mtx;
               ECopyToUser buff
                 (take (Z.to_nat (Z.min size (Kfifo.kfifo_len (cbuffer s))))
                    (Kfifo.kfifo_contents (cbuffer s)))
                 (Z.min size (Kfifo.kfifo_len (cbuffer s))) r],
       Done (- ENOMEM) s') /\
    r <> 0 /\
    Kfifo.kfifo_contents (cbuffer s')
      = drop (Z.to_nat (Z.min size (Kfifo.kfifo_len (cbuffer s))))
          (Kfifo.kfifo_contents (cbuffer s)) /\
    Kfifo.kfifo_len (cbuffer s')
      = Kfifo.kfifo_len (cbuffer s) - Z.min size (Kfifo.kfifo_len (cbuffer s)) /\
    mtx s' = mtx s.
Proof.
  intros Hf Hwf Hm Hlen Hsize Hfail.
  destruct (run_read_nonempty fuel buff size sig s Hf Hwf Hm Hlen Hsize)
    as [t Hrun].
  pose proof (KfifoFacts.kfifo_len_range _ Hwf) as Hr.
  unfold MAX_CBUFFER_LEN in Hr.
  set (l := Kfifo.kfifo_len (cbuffer s)) in *.
  set (count := Z.min size l) in *.
  set (bytes := take (Z.to_nat count) (Kfifo.kfifo_contents (cbuffer s))) in *.
  set (cp := do_copy_to_user (user_mem s) buff bytes count) in *.
  assert (Hret : snd (Kfifo.kfifo_out (cbuffer s) count) = count).
  { rewrite KfifoFacts.kfifo_out_ret.
    rewrite KfifoFacts.uint_small by lia. fold l. lia. }
  assert (Hnz : nonzero (snd cp) = true).
  { unfold nonzero. apply negb_true_iff, Z.eqb_neq, Hfail. }
  rewrite Hnz in Hrun.
  eexists t, _, (snd cp), _. split; [exact Hrun |].
  split; [exact Hfail |].
  cbn. rewrite signalled_cbuffer. cbn.
  pose proof (KfifoFacts.kfifo_out_contents (cbuffer s) count Hwf) as Hc.
  pose proof (KfifoFacts.kfifo_out_len (cbuffer s) count Hwf) as Hl.
  rewrite Hret in Hc, Hl. fold l in Hl.
  split; [exact Hc |]. split; [exact Hl | reflexivity].
Qed.

Lemma C10_read_copy_failure_witness :
  exists tr1 tr2 r s',
    run (fifoproc_read 1 200 10) false abc_queued =
      (tr1 ++ [EKfifoOut 3 abc 3] ++ tr2 ++ [EUp &mtx; ECopyToUser 200 abc 3 r],
       Done (- ENOMEM) s') /\
    r <> 0 /\
    Kfifo.kfifo_contents (cbuffer s') = [] /\
    Kfifo.kfifo_len (cbuffer s') = 0 /\
    mtx s' = 1.
Proof.
  exact (C10_read_copy_failure 1 200 10 false abc_queued ltac:(lia) abc_queued_wf
           ltac:(reflexivity) ltac:(reflexivity) ltac:(lia)
           ltac:(vm_compute; congruence)).
Defined.

(** Side conditions on states whose integers are known. *)
Ltac eval_side :=
  first [ lia
        | vm_compute; repeat split;
          first [ reflexivity | discriminate | (intro; discriminate) | lia ] ].

Arguments cond_wait_asleep : simpl never.

Lemma cond_wait_unfold (prod : Z) :
  cond_wait prod = Act (AUp &mtx) (fun _ => cond_wait_asleep prod).
Proof. reflexivity. Qed.


Lemma sem_count_set_sem_ne (p q : sem_ref) (c : Z) (s : kstate) :
  p <> q -> sem_count (set_sem p c s) q = sem_count s q.
Proof. destruct p, q; done. Qed.




(** Nobody posted the queue and no signal comes: the thread gives the
    mutex away and sleeps. *)
Lemma run_cond_wait_sleeps (prod : Z) (s : kstate) :
  sem_count s (wait_sem prod) <= 0 ->
  run (cond_wait prod) false s =
    ([EUp &mtx], Blocked (cond_wait_asleep prod) (set_sem &mtx (mtx s + 1) s)).
Proof.
  intros Hq. apply Z.ltb_ge in Hq.
  unfold cond_wait, cond_wait_asleep, wait_sem, wait_counter in *.
  destruct (prod =? 0); cbn in *; rewrite Hq; reflexivity.
Qed.

(** Nobody posted the queue and a signal comes. *)
Lemma run_cond_wait_interrupted (prod : Z) (s : kstate) :
  sem_count s (wait_sem prod) <= 0 ->
  0 <= mtx s ->
  run (cond_wait prod) true s =
    ([EUp &mtx; EDown (wait_sem prod) (- EINTR); EDown &mtx 0;
      ELoad (wait_counter prod) (int_val s (wait_counter prod));
      EStore (wait_counter prod) (wrap_int (int_val s (wait_counter prod) - 1));
      EUp &mtx],
     Done (- EINTR)
       (set_sem &mtx (mtx s + 1)
          (set_int (wait_counter prod)
             (wrap_int (int_val s (wait_counter prod) - 1)) s))).
Proof.
  intros Hq Hm. apply Z.ltb_ge in Hq.
  assert (Hm' : (0 <? mtx s + 1) = true) by (apply Z.ltb_lt; lia).
  unfold cond_wait, wait_sem, wait_counter in *.
  destruct (prod =? 0); cbn in *; rewrite Hq; cbn;
    change (nonzero (- EINTR)) with true; cbn; rewrite Hm'; cbn;
    replace (mtx s + 1 - 1 + 1) with (mtx s + 1) by lia; reflexivity.
Qed.

(** The queue was posted: the sleeper takes the post and the mutex. *)
Lemma run_cond_wait_asleep_woken (prod : Z) (sig : bool) (s : kstate) :
  0 < sem_count s (wait_sem prod) ->
  0 < mtx s ->
  run (cond_wait_asleep prod) sig s =
    ([EDown (wait_sem prod) 0; EDown &mtx 0],
     Done 0
       (set_sem &mtx (mtx s - 1)
          (set_sem (wait_sem prod) (sem_count s (wait_sem prod) - 1) s))).
Proof.
  intros Hq Hm. apply Z.ltb_lt in Hq, Hm.
  unfold cond_wait_asleep, wait_sem, wait_counter in *.
  destruct (prod =? 0); cbn in *; rewrite Hq; cbn; rewrite Hm; reflexivity.
Qed.

(** A signal reaches the sleeper before any post: it takes the mutex
    back when that is free, undoes its registration and leaves. *)
Lemma run_cond_wait_asleep_interrupted (prod : Z) (s : kstate) :
  sem_count s (wait_sem prod) <= 0 ->
  0 < mtx s ->
  run (cond_wait_asleep prod) true s =
    ([EDown (wait_sem prod) (- EINTR); EDown &mtx 0;
      ELoad (wait_counter prod) (int_val s (wait_counter prod));
      EStore (wait_counter prod) (wrap_int (int_val s (wait_counter prod) - 1));
      EUp &mtx],
     Done (- EINTR)
       (set_int (wait_counter prod)
          (wrap_int (int_val s (wait_counter prod) - 1)) s)).
Proof.
  intros Hq Hm. apply Z.ltb_ge in Hq. apply Z.ltb_lt in Hm.
  unfold cond_wait_asleep, wait_sem, wait_counter in *.
  destruct (prod =? 0); cbn in *; rewrite Hq; cbn;
    change (nonzero (- EINTR)) with true; cbn; rewrite Hm; cbn;
    replace (mtx s - 1 + 1) with (mtx s) by lia; destruct s; reflexivity.
Qed.

(** ** Writing *)

(** [write] when it does not have to wait: there is room for the bytes
    or there is no consumer.  The bytes that fit are queued; the value
    returned depends on [cons_count]. *)
Lemma run_write_nowait (fuel : nat) (buff size : Z) (sig : bool) (s : kstate) :
  (0 < fuel)%nat ->
  Kfifo.kfifo_wf (cbuffer s) ->
  0 < mtx s ->
  0 <= size <= MAX_KBUF ->
  length (user_read (user_mem s) buff (Z.to_nat size)) = Z.to_nat size ->
  size <= MAX_CBUFFER_LEN - Kfifo.kfifo_len (cbuffer s) \/ cons_count s <= 0 ->
  let kbuffer := user_read (user_mem s) buff (Z.to_nat size) in
  let n := Z.min size (MAX_CBUFFER_LEN - Kfifo.kfifo_len (cbuffer s)) in
  let s1 := set_sem &mtx (mtx s - 1)
              (set_cbuffer (fst (Kfifo.kfifo_in (cbuffer s) kbuffer size)) s) in
  exists t,
    run (fifoproc_write fuel buff size) sig s =
      if cons_count s =? 0
      then (t ++ [EKfifoIn kbuffer size n; ELoad &cons_count 0; EUp &mtx],
            Done (- EPIPE) (set_sem &mtx (mtx s) s1))
      else (t ++ [EKfifoIn kbuffer size n; ELoad &cons_count (cons_count s)]
              ++ signal_trace &nr_cons_waiting &sem_cons s1 ++ [EUp &mtx],
            Done size
              (set_sem &mtx (mtx s) (signalled &nr_cons_waiting &sem_cons s1))).
Proof.
  intros Hf Hwf Hm Hsize Hread Hnowait kbuffer n s1.
  pose proof (KfifoFacts.kfifo_len_range _ Hwf) as Hr.
  assert (Hbig : (MAX_KBUF <? size) = false) by (apply Z.ltb_ge; lia).
  unfold MAX_CBUFFER_LEN, MAX_KBUF in Hr, Hsize, Hnowait.
  set (l := Kfifo.kfifo_len (cbuffer s)) in *.
  destruct fuel as [| fuel]; [lia |].
  apply Z.ltb_lt in Hm.
  assert (Hul : ulong size = size)
    by (apply ulong_small; change (2 ^ 64) with 18446744073709551616; lia).
  assert (Hin : snd (Kfifo.kfifo_in (cbuffer s) kbuffer size) = n).
  { rewrite KfifoFacts.kfifo_in_ret by exact Hwf.
    rewrite KfifoFacts.uint_small
      by (change (2 ^ 32) with 4294967296; lia).
    reflexivity. }
  unfold fifoproc_write. cbn. rewrite Hbig. cbn.
  unfold do_copy_from_user. rewrite Hul. fold kbuffer. cbn.
  fold kbuffer in Hread. rewrite Hread.
  replace (size - Z.of_nat (Z.to_nat size)) with 0 by lia. cbn.
  rewrite Hm. cbn. rewrite while_S. cbn.
  unfold Kfifo.kfifo_avail. rewrite KfifoFacts.kfifo_unused_eq by exact Hwf.
  unfold MAX_CBUFFER_LEN. fold l.
  assert (Hcond : exists t0,
    run (if 4096 - l <? size
         then Act (ALoad &cons_count) (fun r : Z => Ret (0 <? r))
         else Ret false) sig (set_sem &mtx (mtx s - 1) s)
    = (t0, Done false (set_sem &mtx (mtx s - 1) s))).
  { destruct (Z.ltb_spec (4096 - l) size) as [Hlt | Hge].
    - eexists. cbn.
      replace (0 <? cons_count s) with false
        by (symmetry; apply Z.ltb_ge; lia).
      reflexivity.
    - eexists. reflexivity. }
  destruct Hcond as [t0 Hcond]. cbn in Hcond.
  rewrite !run_bind, Hcond. cbn. rewrite Hin.
  exists ([ECopyFromUser buff size kbuffer 0; EDown &mtx 0;
           EKfifoAvail (4096 - l)] ++ t0).
  destruct (cons_count s =? 0) eqn:Hc.
  - apply Z.eqb_eq in Hc. rewrite Hc. cbn.
    replace (mtx s - 1 + 1) with (mtx s) by lia.
    rewrite <- ?app_assoc. reflexivity.
  - cbn. rewrite run_bind, run_cond_signal. cbn.
    rewrite signalled_mtx by done. cbn.
    replace (mtx s - 1 + 1) with (mtx s) by lia.
    rewrite <- ?app_assoc. reflexivity.
Qed.

Lemma int_round_trip (v : Z) :
  - 2 ^ 31 <= v < 2 ^ 31 - 1 -> wrap_int (wrap_int (v + 1) - 1) = v.
Proof.
  intros H. rewrite (wrap_int_small (v + 1)) by lia.
  rewrite wrap_int_small by lia. lia.
Qed.

(** The run of [write] up to the point where it sleeps. *)
Lemma run_write_sleeps (fuel : nat) (buff size : Z) (s : kstate) :
  (0 < fuel)%nat ->
  Kfifo.kfifo_wf (cbuffer s) ->
  0 < mtx s ->
  0 <= size <= MAX_KBUF ->
  length (user_read (user_mem s) buff (Z.to_nat size)) = Z.to_nat size ->
  MAX_CBUFFER_LEN - Kfifo.kfifo_len (cbuffer s) < size ->
  0 < cons_count s ->
  sem_prod s <= 0 ->
  run (fifoproc_write fuel buff size) false s =
    ([ECopyFromUser buff size
        (user_read (user_mem s) buff (Z.to_nat size)) 0;
      EDown &mtx 0;
      EKfifoAvail (Kfifo.kfifo_avail (cbuffer s));
      ELoad &cons_count (cons_count s);
      ELoad &nr_prod_waiting (nr_prod_waiting s);
      EStore &nr_prod_waiting (wrap_int (nr_prod_waiting s + 1));
      EUp &mtx],
     Blocked
       (write_asleep (pred fuel)
          (user_read (user_mem s) buff (Z.to_nat size)) size)
       (set_int &nr_prod_waiting (wrap_int (nr_prod_waiting s + 1)) s)).
Proof.
  intros Hf Hwf Hm Hsize Hread Hfull Hc Hq.
  pose proof (KfifoFacts.kfifo_len_range _ Hwf) as Hr.
  pose proof (KfifoFacts.kfifo_unused_eq _ Hwf) as Hroom.
  assert (Hbig : (MAX_KBUF <? size) = false) by (apply Z.ltb_ge; lia).
  unfold MAX_CBUFFER_LEN, MAX_KBUF in Hr, Hsize, Hfull, Hroom.
  destruct fuel as [| fuel]; [lia |].
  apply Z.ltb_lt in Hm, Hc.
  assert (Hul : ulong size = size)
    by (apply ulong_small; change (2 ^ 64) with 18446744073709551616; lia).
  assert (Hlt : (Kfifo.kfifo_avail (cbuffer s) <? size) = true)
    by (apply Z.ltb_lt; unfold Kfifo.kfifo_avail; lia).
  unfold fifoproc_write, write_asleep, wait_loop_asleep. cbn. rewrite Hbig. cbn.
  unfold do_copy_from_user. rewrite Hul. cbn. rewrite Hread.
  replace (size - Z.of_nat (Z.to_nat size)) with 0 by lia. cbn.
  rewrite Hm. cbn. rewrite while_S. cbn. rewrite Hlt. cbn. rewrite Hc. cbn.
  rewrite !run_bind.
  rewrite run_cond_wait_sleeps by exact Hq. cbn.
  replace (mtx s - 1 + 1) with (mtx s) by lia.
  destruct s; reflexivity.
Qed.

(** X4. There is no room for the bytes and a consumer has the device open:
    [write] registers as a waiting producer, releases the mutex and
    sleeps.  Nothing is queued and nothing else changes; what is left
    to run is the rest of [cond_wait] and the loop again. *)
Theorem write_sleeps_when_full (fuel : nat) (buff size : Z) (s : kstate) :
  (0 < fuel)%nat ->
  Kfifo.kfifo_wf (cbuffer s) ->
  0 < mtx s ->
  0 <= size <= MAX_KBUF ->
  length (user_read (user_mem s) buff (Z.to_nat size)) = Z.to_nat size ->
  MAX_CBUFFER_LEN - Kfifo.kfifo_len (cbuffer s) < size ->
  0 < cons_count s ->
  sem_prod s <= 0 ->
  exists tr s',
    run (fifoproc_write fuel buff size) false s =
      (tr ++ [EUp &mtx],
       Blocked
         (write_asleep (pred fuel)
            (user_read (user_mem s) buff (Z.to_nat size)) size) s') /\
    nr_prod_waiting s' = wrap_int (nr_prod_waiting s + 1) /\
    cbuffer s' = cbuffer s /\ mtx s' = mtx s /\
    prod_count s' = prod_count s /\ cons_count s' = cons_count s /\
    sem_prod s' = sem_prod s /\ sem_cons s' = sem_cons s /\
    nr_cons_waiting s' = nr_cons_waiting s /\ user_mem s' = user_mem s.
Proof.
  intros Hf Hwf Hm Hsize Hread Hfull Hc Hq.
  rewrite (run_write_sleeps fuel buff size s Hf Hwf Hm Hsize Hread Hfull Hc Hq).
  exists [ECopyFromUser buff size
            (user_read (user_mem s) buff (Z.to_nat size)) 0;
          EDown &mtx 0;
          EKfifoAvail (Kfifo.kfifo_avail (cbuffer s));
          ELoad &cons_count (cons_count s);
          ELoad &nr_prod_waiting (nr_prod_waiting s);
          EStore &nr_prod_waiting (wrap_int (nr_prod_waiting s + 1))].
  eexists. split; [reflexivity |].
  cbn. repeat apply conj; reflexivity.
Qed.

(** X5. The same call when a signal reaches the sleeping thread: it returns
    [-EINTR], nothing is queued, the mutex is free, and the registration
    is undone. *)
Theorem write_interrupted_when_full (fuel : nat) (buff size : Z) (s : kstate) :
  (0 < fuel)%nat ->
  Kfifo.kfifo_wf (cbuffer s) ->
  0 < mtx s ->
  0 <= size <= MAX_KBUF ->
  length (user_read (user_mem s) buff (Z.to_nat size)) = Z.to_nat size ->
  MAX_CBUFFER_LEN - Kfifo.kfifo_len (cbuffer s) < size ->
  0 < cons_count s ->
  sem_prod s <= 0 ->
  exists tr,
    run (fifoproc_write fuel buff size) true s =
      (tr,
       Done (- EINTR)
         (set_int &nr_prod_waiting
            (wrap_int (wrap_int (nr_prod_waiting s + 1) - 1)) s)) /\
    (- 2 ^ 31 <= nr_prod_waiting s < 2 ^ 31 - 1 ->
     set_int &nr_prod_waiting
       (wrap_int (wrap_int (nr_prod_waiting s + 1) - 1)) s = s).
Proof.
  intros Hf Hwf Hm Hsize Hread Hfull Hc Hq.
  pose proof (KfifoFacts.kfifo_len_range _ Hwf) as Hr.
  pose proof (KfifoFacts.kfifo_unused_eq _ Hwf) as Hroom.
  assert (Hbig : (MAX_KBUF <? size) = false) by (apply Z.ltb_ge; lia).
  unfold MAX_CBUFFER_LEN, MAX_KBUF in Hr, Hsize, Hfull, Hroom.
  destruct fuel as [| fuel]; [lia |].
  apply Z.ltb_lt in Hm, Hc.
  assert (Hul : ulong size = size)
    by (apply ulong_small; change (2 ^ 64) with 18446744073709551616; lia).
  assert (Hlt : (Kfifo.kfifo_avail (cbuffer s) <? size) = true)
    by (apply Z.ltb_lt; unfold Kfifo.kfifo_avail; lia).
  unfold fifoproc_write. cbn. rewrite Hbig. cbn.
  unfold do_copy_from_user. rewrite Hul. cbn. rewrite Hread.
  replace (size - Z.of_nat (Z.to_nat size)) with 0 by lia. cbn.
  rewrite Hm. cbn. rewrite while_S. cbn. rewrite Hlt. cbn. rewrite Hc. cbn.
  rewrite !run_bind.
  rewrite run_cond_wait_interrupted by (cbn; lia). cbn.
  change (nonzero (- EINTR)) with true. cbn.
  replace (mtx s - 1 + 1) with (mtx s) by lia.
  eexists. split.
  - destruct s; reflexivity.
  - intros Hrange. rewrite int_round_trip by exact Hrange.
    destruct s; reflexivity.
Qed.

(** X1. [write] turns down a request of more than [MAX_KBUF] bytes, and one
    whose bytes cannot all be read from user memory, with [-ENOMEM]: it
    has not touched the mutex, the queue or any counter. *)
Theorem write_rejected_before_mutex (fuel : nat) (buff size : Z) (sig : bool)
    (s : kstate) :
  MAX_KBUF < size \/
  (0 <= size <= MAX_KBUF /\
   length (user_read (user_mem s) buff (Z.to_nat size)) <> Z.to_nat size) ->
  exists tr,
    run (fifoproc_write fuel buff size) sig s = (tr, Done (- ENOMEM) s) /\
    (tr = [] \/ exists bs r, tr = [ECopyFromUser buff size bs r] /\ r <> 0).
Proof.
  intros [Hbig | [Hsize Hfault]].
  - exists []. apply Z.ltb_lt in Hbig. unfold fifoproc_write. rewrite Hbig.
    split; [reflexivity | left; reflexivity].
  - assert (Hsmall : (MAX_KBUF <? size) = false) by (apply Z.ltb_ge; lia).
    assert (Hul : ulong size = size).
    { apply ulong_small. unfold MAX_KBUF in Hsize.
      change (2 ^ 64) with 18446744073709551616. lia. }
    pose proof (user_read_length (user_mem s) buff (Z.to_nat size)) as Hlen.
    set (bs := user_read (user_mem s) buff (Z.to_nat size)) in *.
    assert (Hr : nonzero (size - Z.of_nat (length bs)) = true).
    { unfold nonzero. apply negb_true_iff, Z.eqb_neq. lia. }
    unfold fifoproc_write. rewrite Hsmall. cbn.
    unfold do_copy_from_user. rewrite Hul. fold bs. cbn. rewrite Hr. cbn.
    destruct s. eexists. split; [reflexivity |].
    right. eexists _, _. split; [reflexivity | lia].
Qed.

Lemma write_rejected_before_mutex_witness :
  exists tr,
    run (fifoproc_write 1 500 3) false (loaded 100 abc)
      = (tr, Done (- ENOMEM) (loaded 100 abc)) /\
    (tr = [] \/ exists bs r, tr = [ECopyFromUser 500 3 bs r] /\ r <> 0).
Proof.
  apply write_rejected_before_mutex. right. split.
  - unfold MAX_KBUF. lia.
  - vm_compute. discriminate.
Defined.

(** X2. With room for the bytes and a consumer, [write] queues all the
    bytes behind those already there, wakes one waiting consumer if
    there is any, releases the mutex and returns [size]. *)
Theorem write_stores_and_signals (fuel : nat) (buff size : Z) (sig : bool)
    (s : kstate) :
  (0 < fuel)%nat ->
  Kfifo.kfifo_wf (cbuffer s) ->
  0 < mtx s ->
  0 <= size <= MAX_KBUF ->
  length (user_read (user_mem s) buff (Z.to_nat size)) = Z.to_nat size ->
  size <= MAX_CBUFFER_LEN - Kfifo.kfifo_len (cbuffer s) ->
  cons_count s <> 0 ->
  exists tr s',
    run (fifoproc_write fuel buff size) sig s = (tr, Done size s') /\
    Kfifo.kfifo_contents (cbuffer s')
      = Kfifo.kfifo_contents (cbuffer s)
          ++ user_read (user_mem s) buff (Z.to_nat size) /\
    Kfifo.kfifo_len (cbuffer s') = Kfifo.kfifo_len (cbuffer s) + size /\
    mtx s' = mtx s /\
    nr_cons_waiting s'
      = (if 0 <? nr_cons_waiting s then wrap_int (nr_cons_waiting s - 1)
         else nr_cons_waiting s) /\
    sem_cons s'
      = (if 0 <? nr_cons_waiting s then sem_cons s + 1 else sem_cons s) /\
    sem_prod s' = sem_prod s /\
    nr_prod_waiting s' = nr_prod_waiting s /\
    prod_count s' = prod_count s /\
    cons_count s' = cons_count s.
Proof.
  intros Hf Hwf Hm Hsize Hread Hroom Hc.
  destruct (run_write_nowait fuel buff size sig s Hf Hwf Hm Hsize Hread
              ltac:(left; exact Hroom)) as [t Hrun].
  apply Z.eqb_neq in Hc. rewrite Hc in Hrun.
  pose proof (KfifoFacts.kfifo_len_range _ Hwf) as Hr.
  pose proof (KfifoFacts.kfifo_in_ret (cbuffer s)
                (user_read (user_mem s) buff (Z.to_nat size)) size Hwf) as Hret.
  unfold MAX_KBUF, MAX_CBUFFER_LEN in *.
  rewrite KfifoFacts.uint_small in Hret
    by (change (2 ^ 32) with 4294967296; lia).
  rewrite Z.min_l in Hret by lia.
  assert (Hcont : Kfifo.kfifo_contents
                    (fst (Kfifo.kfifo_in (cbuffer s)
                            (user_read (user_mem s) buff (Z.to_nat size)) size))
                  = Kfifo.kfifo_contents (cbuffer s)
                      ++ user_read (user_mem s) buff (Z.to_nat size)).
  { rewrite KfifoFacts.kfifo_in_contents by (exact Hwf || (rewrite Hret; lia)).
    rewrite Hret, take_ge by lia. reflexivity. }
  assert (Hlen : Kfifo.kfifo_len
                   (fst (Kfifo.kfifo_in (cbuffer s)
                           (user_read (user_mem s) buff (Z.to_nat size)) size))
                 = Kfifo.kfifo_len (cbuffer s) + size).
  { rewrite KfifoFacts.kfifo_in_len, Hret by exact Hwf. reflexivity. }
  eexists _, _. split; [exact Hrun |].
  unfold signalled. cbn.
  destruct (0 <? nr_cons_waiting s); cbn; repeat split; assumption || reflexivity.
Qed.

Lemma pipe_ready_wf (a : Z) : Kfifo.kfifo_wf (cbuffer (pipe_ready a abc)).
Proof. split; vm_compute; first [reflexivity | split; congruence | congruence]. Qed.



Lemma write_stores_and_signals_witness :
  exists tr s',
    run (fifoproc_write 1 100 3) false (pipe_ready 100 abc) = (tr, Done 3 s') /\
    Kfifo.kfifo_contents (cbuffer s')
      = Kfifo.kfifo_contents (cbuffer (pipe_ready 100 abc))
          ++ user_read (user_mem (pipe_ready 100 abc)) 100 (Z.to_nat 3) /\
    Kfifo.kfifo_len (cbuffer s') = Kfifo.kfifo_len (cbuffer (pipe_ready 100 abc)) + 3 /\
    mtx s' = mtx (pipe_ready 100 abc) /\
    nr_cons_waiting s'
      = (if 0 <? nr_cons_waiting (pipe_ready 100 abc)
         then wrap_int (nr_cons_waiting (pipe_ready 100 abc) - 1)
         else nr_cons_waiting (pipe_ready 100 abc)) /\
    sem_cons s'
      = (if 0 <? nr_cons_waiting (pipe_ready 100 abc)
         then sem_cons (pipe_ready 100 abc) + 1
         else sem_cons (pipe_ready 100 abc)) /\
    sem_prod s' = sem_prod (pipe_ready 100 abc) /\
    nr_prod_waiting s' = nr_prod_waiting (pipe_ready 100 abc) /\
    prod_count s' = prod_count (pipe_ready 100 abc) /\
    cons_count s' = cons_count (pipe_ready 100 abc).
Proof.
  apply write_stores_and_signals.
  - lia.
  - solve_kfifo_wf.
  - vm_compute. reflexivity.
  - unfold MAX_KBUF. lia.
  - vm_compute. reflexivity.
  - vm_compute. discriminate.
  - vm_compute. discriminate.
Defined.

(** X3. With no consumer ([cons_count] is 0) [write] does not wait: it
    queues as many of the bytes as fit in the free space (all of them
    when they fit), reads [cons_count], releases the mutex and returns
    [-EPIPE]. *)
Theorem write_no_consumer_epipe (fuel : nat) (buff size : Z) (sig : bool)
    (s : kstate) :
  (0 < fuel)%nat ->
  Kfifo.kfifo_wf (cbuffer s) ->
  0 < mtx s ->
  0 <= size <= MAX_KBUF ->
  length (user_read (user_mem s) buff (Z.to_nat size)) = Z.to_nat size ->
  cons_count s = 0 ->
  exists tr s',
    run (fifoproc_write fuel buff size) sig s =
      (tr ++ [EKfifoIn (user_read (user_mem s) buff (Z.to_nat size)) size
                (Z.min size (MAX_CBUFFER_LEN - Kfifo.kfifo_len (cbuffer s)));
              ELoad &cons_count 0; EUp &mtx],
       Done (- EPIPE) s') /\
    Kfifo.kfifo_contents (cbuffer s')
      = Kfifo.kfifo_contents (cbuffer s)
          ++ take (Z.to_nat (Z.min size
                               (MAX_CBUFFER_LEN - Kfifo.kfifo_len (cbuffer s))))
               (user_read (user_mem s) buff (Z.to_nat size)) /\
    (size <= MAX_CBUFFER_LEN - Kfifo.kfifo_len (cbuffer s) ->
     Kfifo.kfifo_contents (cbuffer s')
       = Kfifo.kfifo_contents (cbuffer s)
           ++ user_read (user_mem s) buff (Z.to_nat size)) /\
    mtx s' = mtx s /\
    sem_prod s' = sem_prod s /\ sem_cons s' = sem_cons s /\
    nr_prod_waiting s' = nr_prod_waiting s /\
    nr_cons_waiting s' = nr_cons_waiting s.
Proof.
  intros Hf Hwf Hm Hsize Hread Hc.
  destruct (run_write_nowait fuel buff size sig s Hf Hwf Hm Hsize Hread
              ltac:(right; lia)) as [t Hrun].
  rewrite Hc in Hrun. cbn in Hrun.
  pose proof (KfifoFacts.kfifo_len_range _ Hwf) as Hr.
  pose proof (KfifoFacts.kfifo_in_ret (cbuffer s)
                (user_read (user_mem s) buff (Z.to_nat size)) size Hwf) as Hret.
  unfold MAX_KBUF, MAX_CBUFFER_LEN in *.
  rewrite KfifoFacts.uint_small in Hret
    by (change (2 ^ 32) with 4294967296; lia).
  assert (Hcont : Kfifo.kfifo_contents
                    (fst (Kfifo.kfifo_in (cbuffer s)
                            (user_read (user_mem s) buff (Z.to_nat size)) size))
                  = Kfifo.kfifo_contents (cbuffer s)
                      ++ take (Z.to_nat (Z.min size
                                 (4096 - Kfifo.kfifo_len (cbuffer s))))
                           (user_read (user_mem s) buff (Z.to_nat size))).
  { rewrite KfifoFacts.kfifo_in_contents by (exact Hwf || (rewrite Hret; lia)).
    rewrite Hret. reflexivity. }
  eexists _, _. split; [exact Hrun |].
  cbn. split; [exact Hcont |]. split; [| repeat split; reflexivity].
  intros Hfit. etransitivity; [exact Hcont |]. f_equal. apply take_ge. lia.
Qed.

Lemma write_no_consumer_epipe_witness :
  exists tr s',
    run (fifoproc_write 1 100 3) false (loaded 100 abc) =
      (tr ++ [EKfifoIn (user_read (user_mem (loaded 100 abc)) 100 (Z.to_nat 3)) 3
                (Z.min 3 (MAX_CBUFFER_LEN
                          - Kfifo.kfifo_len (cbuffer (loaded 100 abc))));
              ELoad &cons_count 0; EUp &mtx],
       Done (- EPIPE) s') /\
    Kfifo.kfifo_contents (cbuffer s')
      = Kfifo.kfifo_contents (cbuffer (loaded 100 abc))
          ++ take (Z.to_nat (Z.min 3
                     (MAX_CBUFFER_LEN
                      - Kfifo.kfifo_len (cbuffer (loaded 100 abc)))))
               (user_read (user_mem (loaded 100 abc)) 100 (Z.to_nat 3)) /\
    (3 <= MAX_CBUFFER_LEN - Kfifo.kfifo_len (cbuffer (loaded 100 abc)) ->
     Kfifo.kfifo_contents (cbuffer s')
       = Kfifo.kfifo_contents (cbuffer (loaded 100 abc))
           ++ user_read (user_mem (loaded 100 abc)) 100 (Z.to_nat 3)) /\
    mtx s' = mtx (loaded 100 abc) /\
    sem_prod s' = sem_prod (loaded 100 abc) /\
    sem_cons s' = sem_cons (loaded 100 abc) /\
    nr_prod_waiting s' = nr_prod_waiting (loaded 100 abc) /\
    nr_cons_waiting s' = nr_cons_waiting (loaded 100 abc).
Proof.
  apply write_no_consumer_epipe.
  - lia.
  - solve_kfifo_wf.
  - vm_compute. reflexivity.
  - unfold MAX_KBUF. lia.
  - vm_compute. reflexivity.
  - vm_compute. reflexivity.
Defined.

Lemma write_sleeps_when_full_witness :
  exists tr s',
    run (fifoproc_write 1 100 4096) false three_queued =
      (tr ++ [EUp &mtx],
       Blocked
         (write_asleep (pred 1)
            (user_read (user_mem three_queued) 100 (Z.to_nat 4096)) 4096) s') /\
    nr_prod_waiting s' = wrap_int (nr_prod_waiting three_queued + 1) /\
    cbuffer s' = cbuffer three_queued /\ mtx s' = mtx three_queued /\
    prod_count s' = prod_count three_queued /\
    cons_count s' = cons_count three_queued /\
    sem_prod s' = sem_prod three_queued /\
    sem_cons s' = sem_cons three_queued /\
    nr_cons_waiting s' = nr_cons_waiting three_queued /\
    user_mem s' = user_mem three_queued.
Proof.
  apply write_sleeps_when_full.
  - lia.
  - solve_kfifo_wf.
  - vm_compute. reflexivity.
  - unfold MAX_KBUF. lia.
  - vm_compute. reflexivity.
  - vm_compute. reflexivity.
  - vm_compute. reflexivity.
  - vm_compute. discriminate.
Defined.

Lemma write_interrupted_when_full_witness :
  exists tr,
    run (fifoproc_write 1 100 4096) true three_queued =
      (tr,
       Done (- EINTR)
         (set_int &nr_prod_waiting
            (wrap_int (wrap_int (nr_prod_waiting three_queued + 1) - 1))
            three_queued)) /\
    (- 2 ^ 31 <= nr_prod_waiting three_queued < 2 ^ 31 - 1 ->
     set_int &nr_prod_waiting
       (wrap_int (wrap_int (nr_prod_waiting three_queued + 1) - 1))
       three_queued = three_queued).
Proof.
  apply write_interrupted_when_full.
  - lia.
  - solve_kfifo_wf.
  - vm_compute. reflexivity.
  - unfold MAX_KBUF. lia.
  - vm_compute. reflexivity.
  - vm_compute. reflexivity.
  - vm_compute. reflexivity.
  - vm_compute. discriminate.
Defined.

(** ** Opening *)

Lemma open_roles (f_mode : Z) :
  (is_reader f_mode = true /\ own_count f_mode = &cons_count /\
   peer_count f_mode = &prod_count /\ isProducer f_mode = 0 /\
   peer_counter f_mode = &nr_prod_waiting /\ peer_sem f_mode = &sem_prod) \/
  (is_reader f_mode = false /\ own_count f_mode = &prod_count /\
   peer_count f_mode = &cons_count /\ isProducer f_mode = 1 /\
   peer_counter f_mode = &nr_cons_waiting /\ peer_sem f_mode = &sem_cons).
Proof.
  unfold own_count, peer_count, isProducer, peer_counter, peer_sem.
  destruct (is_reader f_mode); [left | right]; repeat split.
Qed.

(** The run of [open] when the other role already has a session. *)
Lemma run_open_with_peer (fuel : nat) (f_mode : Z) (sig : bool) (s : kstate) :
  (0 < fuel)%nat ->
  0 < mtx s ->
  int_val s (peer_count f_mode) <> 0 ->
  run (fifoproc_open fuel f_mode) sig s =
    ([EDown &mtx 0;
      ELoad (own_count f_mode) (int_val s (own_count f_mode));
      EStore (own_count f_mode) (wrap_int (int_val s (own_count f_mode) + 1))]
       ++ signal_trace (peer_counter f_mode) (peer_sem f_mode) s
       ++ [ELoad (peer_count f_mode) (int_val s (peer_count f_mode)); EUp &mtx],
     Done 0
       (signalled (peer_counter f_mode) (peer_sem f_mode)
          (set_int (own_count f_mode)
             (wrap_int (int_val s (own_count f_mode) + 1)) s))).
Proof.
  intros Hf Hm Hpeer. destruct fuel as [| fuel]; [lia |].
  apply Z.ltb_lt in Hm. apply Z.eqb_neq in Hpeer.
  unfold fifoproc_open. cbn. rewrite Hm. cbn.
  change (nonzero (Z.land f_mode FMODE_READ)) with (is_reader f_mode).
  destruct (open_roles f_mode)
    as [(Hr & E1 & E2 & _ & E3 & E4) | (Hr & E1 & E2 & _ & E3 & E4)];
    rewrite E1, E2, E3, E4 in *; clear E1 E2 E3 E4;
    rewrite Hr; cbn in Hpeer |- *;
    rewrite !run_bind, run_cond_signal; cbn;
    rewrite while_S; cbn;
    rewrite ?signalled_prod_count, ?signalled_cons_count by done; cbn;
    rewrite Hpeer; cbn;
    rewrite signalled_mtx by done; cbn;
    unfold signal_trace, signalled; cbn;
    replace (mtx s - 1 + 1) with (mtx s) by lia;
    destruct s; cbn;
    match goal with |- context [0 <? ?n] => destruct (0 <? n) end;
    reflexivity.
Qed.

(** X6. [open] by either role, when the other role already has a session,
    returns 0 without sleeping: its own session is counted, one waiter
    of the other role is woken if any is registered, and nothing else
    changes; the mutex is free again. *)
Theorem open_with_peer_returns (fuel : nat) (f_mode : Z) (sig : bool) (s : kstate) :
  (0 < fuel)%nat ->
  0 < mtx s ->
  int_val s (peer_count f_mode) <> 0 ->
  exists tr s',
    run (fifoproc_open fuel f_mode) sig s = (tr, Done 0 s') /\
    int_val s' (own_count f_mode)
      = wrap_int (int_val s (own_count f_mode) + 1) /\
    int_val s' (peer_count f_mode) = int_val s (peer_count f_mode) /\
    int_val s' (peer_counter f_mode)
      = (if 0 <? int_val s (peer_counter f_mode)
         then wrap_int (int_val s (peer_counter f_mode) - 1)
         else int_val s (peer_counter f_mode)) /\
    sem_count s' (peer_sem f_mode)
      = (if 0 <? int_val s (peer_counter f_mode)
         then sem_count s (peer_sem f_mode) + 1
         else sem_count s (peer_sem f_mode)) /\
    int_val s' (wait_counter (isProducer f_mode))
      = int_val s (wait_counter (isProducer f_mode)) /\
    sem_count s' (wait_sem (isProducer f_mode))
      = sem_count s (wait_sem (isProducer f_mode)) /\
    mtx s' = mtx s /\ cbuffer s' = cbuffer s /\ user_mem s' = user_mem s.
Proof.
  intros Hf Hm Hpeer.
  rewrite (run_open_with_peer fuel f_mode sig s Hf Hm Hpeer).
  eexists _, _. split; [reflexivity |].
  unfold signalled.
  destruct (open_roles f_mode)
    as [(Hr & E1 & E2 & E5 & E3 & E4) | (Hr & E1 & E2 & E5 & E3 & E4)];
    rewrite ?E1, ?E2, ?E3, ?E4, ?E5; cbn;
    match goal with |- context [0 <? ?n] => destruct (0 <? n) end;
    cbn; repeat apply conj; reflexivity.
Qed.

(** The run of [open] up to the point where it sleeps. *)
Lemma run_open_without_peer (fuel : nat) (f_mode : Z) (s : kstate) :
  (0 < fuel)%nat ->
  0 < mtx s ->
  int_val s (peer_count f_mode) = 0 ->
  sem_count s (wait_sem (isProducer f_mode)) <= 0 ->
  run (fifoproc_open fuel f_mode) false s =
    ([EDown &mtx 0;
      ELoad (own_count f_mode) (int_val s (own_count f_mode));
      EStore (own_count f_mode) (wrap_int (int_val s (own_count f_mode) + 1))]
       ++ signal_trace (peer_counter f_mode) (peer_sem f_mode) s
       ++ [ELoad (peer_count f_mode) 0;
           ELoad (wait_counter (isProducer f_mode))
             (int_val s (wait_counter (isProducer f_mode)));
           EStore (wait_counter (isProducer f_mode))
             (wrap_int (int_val s (wait_counter (isProducer f_mode)) + 1));
           EUp &mtx],
     Blocked (open_asleep (pred fuel) f_mode)
       (set_int (wait_counter (isProducer f_mode))
          (wrap_int (int_val s (wait_counter (isProducer f_mode)) + 1))
          (signalled (peer_counter f_mode) (peer_sem f_mode)
             (set_int (own_count f_mode)
                (wrap_int (int_val s (own_count f_mode) + 1)) s)))).
Proof.
  intros Hf Hm Hpeer Hq. destruct fuel as [| fuel]; [lia |].
  apply Z.ltb_lt in Hm.
  unfold fifoproc_open, open_asleep, wait_loop_asleep. cbn. rewrite Hm. cbn.
  change (nonzero (Z.land f_mode FMODE_READ)) with (is_reader f_mode).
  destruct (open_roles f_mode)
    as [(Hr & E1 & E2 & E5 & E3 & E4) | (Hr & E1 & E2 & E5 & E3 & E4)];
    rewrite ?E1, ?E2, ?E3, ?E4, ?E5 in *; clear E1 E2 E3 E4 E5;
    rewrite Hr; cbn in Hpeer, Hq |- *;
    rewrite !run_bind, run_cond_signal; cbn;
    rewrite while_S; cbn;
    rewrite ?signalled_prod_count, ?signalled_cons_count by done; cbn;
    rewrite Hpeer; cbn;
    rewrite !run_bind;
    (rewrite run_cond_wait_sleeps
       by (unfold signalled; cbn;
           match goal with |- context [0 <? ?n] => destruct (0 <? n) end;
           cbn; exact Hq));
    cbn; rewrite signalled_mtx by done; cbn;
    unfold signal_trace, signalled; cbn;
    replace (mtx s - 1 + 1) with (mtx s) by lia;
    destruct s; cbn in *; subst;
    match goal with |- context [0 <? ?n] => destruct (0 <? n) end;
    reflexivity.
Qed.

(** X7. [open] by either role, when the other role has no session and
    nobody posted this role's queue: the thread counts its session,
    wakes a waiter of the other role if any is registered, registers as
    waiting, releases the mutex and sleeps.  What it has left to run is
    the rest of [cond_wait] and the loop again. *)
Theorem open_without_peer_sleeps (fuel : nat) (f_mode : Z) (s : kstate) :
  (0 < fuel)%nat ->
  0 < mtx s ->
  int_val s (peer_count f_mode) = 0 ->
  sem_count s (wait_sem (isProducer f_mode)) <= 0 ->
  exists tr s',
    run (fifoproc_open fuel f_mode) false s
      = (tr ++ [EUp &mtx], Blocked (open_asleep (pred fuel) f_mode) s') /\
    int_val s' (own_count f_mode)
      = wrap_int (int_val s (own_count f_mode) + 1) /\
    int_val s' (wait_counter (isProducer f_mode))
      = wrap_int (int_val s (wait_counter (isProducer f_mode)) + 1) /\
    int_val s' (peer_count f_mode) = 0 /\
    int_val s' (peer_counter f_mode)
      = (if 0 <? int_val s (peer_counter f_mode)
         then wrap_int (int_val s (peer_counter f_mode) - 1)
         else int_val s (peer_counter f_mode)) /\
    sem_count s' (peer_sem f_mode)
      = (if 0 <? int_val s (peer_counter f_mode)
         then sem_count s (peer_sem f_mode) + 1
         else sem_count s (peer_sem f_mode)) /\
    sem_count s' (wait_sem (isProducer f_mode))
      = sem_count s (wait_sem (isProducer f_mode)) /\
    mtx s' = mtx s /\ cbuffer s' = cbuffer s /\ user_mem s' = user_mem s.
Proof.
  intros Hf Hm Hpeer Hq.
  rewrite (run_open_without_peer fuel f_mode s Hf Hm Hpeer Hq).
  exists ([EDown &mtx 0;
      ELoad (own_count f_mode) (int_val s (own_count f_mode));
      EStore (own_count f_mode) (wrap_int (int_val s (own_count f_mode) + 1))]
       ++ signal_trace (peer_counter f_mode) (peer_sem f_mode) s
       ++ [ELoad (peer_count f_mode) 0;
           ELoad (wait_counter (isProducer f_mode))
             (int_val s (wait_counter (isProducer f_mode)));
           EStore (wait_counter (isProducer f_mode))
             (wrap_int (int_val s (wait_counter (isProducer f_mode)) + 1))]).
  eexists. split.
  { f_equal. rewrite <- !app_assoc. reflexivity. }
  unfold signalled.
  destruct (open_roles f_mode)
    as [(Hr & E1 & E2 & E5 & E3 & E4) | (Hr & E1 & E2 & E5 & E3 & E4)];
    rewrite ?E1, ?E2, ?E3, ?E4, ?E5 in *; cbn in *;
    match goal with |- context [0 <? ?n] => destruct (0 <? n) end;
    cbn; repeat apply conj; (reflexivity || assumption).
Qed.

(** X8. The same [open] when a signal reaches the sleeping thread: it
    returns [-EINTR] with the mutex free and its registration as a
    waiter undone, but the session it counted at line 68 (or 83) stays
    counted. *)
Theorem open_interrupted_keeps_session (fuel : nat) (f_mode : Z) (s : kstate) :
  (0 < fuel)%nat ->
  0 < mtx s ->
  int_val s (peer_count f_mode) = 0 ->
  sem_count s (wait_sem (isProducer f_mode)) <= 0 ->
  exists tr s',
    run (fifoproc_open fuel f_mode) true s = (tr, Done (- EINTR) s') /\
    int_val s' (own_count f_mode)
      = wrap_int (int_val s (own_count f_mode) + 1) /\
    int_val s' (own_count f_mode) <> int_val s (own_count f_mode) /\
    int_val s' (wait_counter (isProducer f_mode))
      = wrap_int
          (wrap_int (int_val s (wait_counter (isProducer f_mode)) + 1) - 1) /\
    mtx s' = mtx s /\
    cbuffer s' = cbuffer s.
Proof.
  intros Hf Hm Hpeer Hq. destruct fuel as [| fuel]; [lia |].
  pose proof (wrap_int_succ_neq (int_val s (own_count f_mode))) as Hneq.
  assert (Hm0 : 0 <= mtx s - 1) by lia.
  apply Z.ltb_lt in Hm.
  unfold fifoproc_open. cbn. rewrite Hm. cbn.
  change (nonzero (Z.land f_mode FMODE_READ)) with (is_reader f_mode).
  destruct (open_roles f_mode)
    as [(Hr & E1 & E2 & E5 & E3 & E4) | (Hr & E1 & E2 & E5 & E3 & E4)];
    rewrite ?E1, ?E2, ?E3, ?E4, ?E5 in *; clear E1 E2 E3 E4 E5;
    rewrite Hr; cbn in Hpeer, Hq, Hneq |- *;
    rewrite !run_bind, run_cond_signal; cbn;
    rewrite while_S; cbn;
    rewrite ?signalled_prod_count, ?signalled_cons_count by done; cbn;
    rewrite Hpeer; cbn;
    rewrite !run_bind;
    (rewrite run_cond_wait_interrupted
       by (unfold signalled; cbn;
           match goal with |- context [0 <? ?n] => destruct (0 <? n) end;
           cbn; assumption));
    cbn; change (nonzero (- EINTR)) with true; cbn;
    rewrite ?signalled_mtx by done; cbn;
    eexists _, _; (split; [reflexivity |]);
    unfold signalled; cbn;
    match goal with |- context [0 <? ?n] => destruct (0 <? n) end;
    cbn; repeat split; (assumption || lia).
Qed.

(** X9. A call that finds the mutex taken waits for it, and returns [-EINTR]
    without having changed anything when a signal comes first. *)
Theorem call_finds_mutex_taken (fuel : nat) (c : call) (sig : bool) (s : kstate) :
  mtx s <= 0 ->
  match c with
  | Write buff size =>
      0 <= size <= MAX_KBUF /\
      length (user_read (user_mem s) buff (Z.to_nat size)) = Z.to_nat size
  | _ => True
  end ->
  exists tr p,
    run (call_prog fuel c) sig s =
      (if sig
       then (tr ++ [EDown &mtx (- EINTR)], Done (- EINTR) s)
       else (tr, Blocked p s)) /\
    (forall e, e ∈ tr -> exists from n bs, e = ECopyFromUser from n bs 0).
Proof.
  intros Hm Hc. apply Z.ltb_ge in Hm.
  destruct c as [f_mode | f_mode | buff size | buff size]; cbn.
  - eexists [], _. unfold fifoproc_open. cbn. rewrite Hm.
    split; [destruct sig; reflexivity | intros e He; inversion He].
  - eexists [], _. unfold fifoproc_release. cbn. rewrite Hm.
    split; [destruct sig; reflexivity | intros e He; inversion He].
  - eexists [], _. unfold fifoproc_read. cbn. rewrite Hm.
    split; [destruct sig; reflexivity | intros e He; inversion He].
  - destruct Hc as [Hsize Hread].
    assert (Hbig : (MAX_KBUF <? size) = false) by (apply Z.ltb_ge; lia).
    assert (Hul : ulong size = size).
    { apply ulong_small. unfold MAX_KBUF in Hsize.
      change (2 ^ 64) with 18446744073709551616. lia. }
    eexists [ECopyFromUser buff size
               (user_read (user_mem s) buff (Z.to_nat size)) 0], _.
    unfold fifoproc_write. rewrite Hbig. cbn.
    unfold do_copy_from_user. rewrite Hul. cbn. rewrite Hread.
    replace (size - Z.of_nat (Z.to_nat size)) with 0 by lia. cbn.
    rewrite Hm.
    split; [destruct sig; reflexivity |].
    intros e He. apply list_elem_of_singleton in He. eauto.
Qed.

(** ** Closing *)

(** The run of [release] when the mutex is free. *)
Lemma run_release (f_mode : Z) (sig : bool) (s : kstate) :
  0 < mtx s ->
  let s1 := signalled (peer_counter f_mode) (peer_sem f_mode)
              (set_int (own_count f_mode)
                 (wrap_int (int_val s (own_count f_mode) - 1)) s) in
  let both := (prod_count s1 =? 0) && (cons_count s1 =? 0) in
  exists tr,
    run (fifoproc_release f_mode) sig s =
      (tr,
       Done 0
         (if both then set_cbuffer (Kfifo.kfifo_reset (cbuffer s)) s1 else s1)) /\
    (EKfifoReset ∈ tr <-> both = true).
Proof.
  intros Hm s1 both. apply Z.ltb_lt in Hm.
  unfold fifoproc_release. cbn. rewrite Hm. cbn.
  change (nonzero (Z.land f_mode FMODE_READ)) with (is_reader f_mode).
  subst both s1.
  destruct (open_roles f_mode)
    as [(Hr & E1 & E2 & E5 & E3 & E4) | (Hr & E1 & E2 & E5 & E3 & E4)];
    rewrite ?E1, ?E2, ?E3, ?E4, ?E5 in *; clear E1 E2 E3 E4 E5;
    rewrite Hr; cbn;
    rewrite !run_bind, run_cond_signal; cbn;
    rewrite ?signalled_prod_count, ?signalled_cons_count by done; cbn;
    rewrite ?signalled_mtx, ?signalled_cbuffer by done; cbn;
    unfold signal_trace, signalled; cbn;
    match goal with |- context [0 <? ?n] => destruct (0 <? n) end;
    match goal with |- context [?a =? 0] => destruct (a =? 0) end; cbn;
    try match goal with |- context [?a =? 0] => destruct (a =? 0) end; cbn;
    replace (mtx s - 1 + 1) with (mtx s) by lia;
    (eexists; split; [reflexivity |]);
    (split; [intros H; repeat (apply elem_of_cons in H as [H | H];
                               [first [discriminate H | reflexivity] |]);
             inversion H
            | intros H; first [discriminate H | repeat constructor]]).
Qed.

Lemma int_val_set_cbuffer (k : Kfifo.kfifo) (s : kstate) (r : int_ref) :
  int_val (set_cbuffer k s) r = int_val s r.
Proof. destruct r; reflexivity. Qed.

Lemma sem_count_set_cbuffer (k : Kfifo.kfifo) (s : kstate) (r : sem_ref) :
  sem_count (set_cbuffer k s) r = sem_count s r.
Proof. destruct r; reflexivity. Qed.

(** X10. [release] with the mutex free returns 0 with the mutex free again;
    the caller's session is uncounted, one waiter of the other role is
    woken if any is registered, and the ring is reset exactly when
    [prod_count] and [cons_count] are then both 0: otherwise it is left
    as it was. *)
Theorem release_effect (f_mode : Z) (sig : bool) (s : kstate) :
  0 < mtx s ->
  exists tr s',
    run (fifoproc_release f_mode) sig s = (tr, Done 0 s') /\
    int_val s' (own_count f_mode)
      = wrap_int (int_val s (own_count f_mode) - 1) /\
    int_val s' (peer_count f_mode) = int_val s (peer_count f_mode) /\
    int_val s' (peer_counter f_mode)
      = (if 0 <? int_val s (peer_counter f_mode)
         then wrap_int (int_val s (peer_counter f_mode) - 1)
         else int_val s (peer_counter f_mode)) /\
    sem_count s' (peer_sem f_mode)
      = (if 0 <? int_val s (peer_counter f_mode)
         then sem_count s (peer_sem f_mode) + 1
         else sem_count s (peer_sem f_mode)) /\
    cbuffer s'
      = (if (prod_count s' =? 0) && (cons_count s' =? 0)
         then Kfifo.kfifo_reset (cbuffer s)
         else cbuffer s) /\
    (EKfifoReset ∈ tr <-> prod_count s' = 0 /\ cons_count s' = 0) /\
    mtx s' = mtx s /\ user_mem s' = user_mem s.
Proof.
  intros Hm.
  destruct (run_release f_mode sig s Hm) as [tr [Hrun Hreset]].
  cbv zeta in Hrun, Hreset.
  set (s1 := signalled (peer_counter f_mode) (peer_sem f_mode)
               (set_int (own_count f_mode)
                  (wrap_int (int_val s (own_count f_mode) - 1)) s)) in *.
  assert (H1 :
    int_val s1 (own_count f_mode)
      = wrap_int (int_val s (own_count f_mode) - 1) /\
    int_val s1 (peer_count f_mode) = int_val s (peer_count f_mode) /\
    int_val s1 (peer_counter f_mode)
      = (if 0 <? int_val s (peer_counter f_mode)
         then wrap_int (int_val s (peer_counter f_mode) - 1)
         else int_val s (peer_counter f_mode)) /\
    sem_count s1 (peer_sem f_mode)
      = (if 0 <? int_val s (peer_counter f_mode)
         then sem_count s (peer_sem f_mode) + 1
         else sem_count s (peer_sem f_mode)) /\
    cbuffer s1 = cbuffer s /\ mtx s1 = mtx s /\ user_mem s1 = user_mem s).
  { subst s1. unfold signalled.
    destruct (open_roles f_mode)
      as [(Hr & E1 & E2 & E5 & E3 & E4) | (Hr & E1 & E2 & E5 & E3 & E4)];
      rewrite ?E1, ?E2, ?E3, ?E4, ?E5; cbn;
      match goal with |- context [0 <? ?n] => destruct (0 <? n) end;
      cbn; repeat apply conj; reflexivity. }
  clearbody s1.
  destruct H1 as (F1 & F2 & F3 & F4 & F5 & F6 & F7).
  eexists tr, _. split; [exact Hrun |].
  rewrite Hreset, andb_true_iff, !Z.eqb_eq.
  destruct ((prod_count s1 =? 0) && (cons_count s1 =? 0)) eqn:Hb;
    rewrite ?int_val_set_cbuffer, ?sem_count_set_cbuffer; cbn;
    rewrite ?Hb; repeat apply conj; first [ assumption | reflexivity | exact (fun H => H) ].
Qed.

(** X11. Opening and closing again, while the other role has a session and
    none of its threads sleeps, leaves every global as it was. *)
Theorem open_release_round_trip (fuel : nat) (f_mode : Z) (sig sig' : bool)
    (s : kstate) :
  (0 < fuel)%nat ->
  0 < mtx s ->
  int_val s (peer_count f_mode) <> 0 ->
  int_val s (peer_counter f_mode) <= 0 ->
  - 2 ^ 31 <= int_val s (own_count f_mode) < 2 ^ 31 - 1 ->
  exists tr tr' s1,
    run (fifoproc_open fuel f_mode) sig s = (tr, Done 0 s1) /\
    run (fifoproc_release f_mode) sig' s1 = (tr', Done 0 s).
Proof.
  intros Hf Hm Hpeer Hnw Hrange.
  pose proof (run_open_with_peer fuel f_mode sig s Hf Hm Hpeer) as Hopen.
  set (s1 := signalled (peer_counter f_mode) (peer_sem f_mode)
               (set_int (own_count f_mode)
                  (wrap_int (int_val s (own_count f_mode) + 1)) s)) in *.
  assert (Hm1 : 0 < mtx s1).
  { subst s1. rewrite signalled_mtx.
    - destruct (own_count f_mode); exact Hm.
    - unfold peer_sem. destruct (is_reader f_mode); done. }
  destruct (run_release f_mode sig' s1 Hm1) as [tr' [Hrun _]].
  eexists _, tr', s1. split; [exact Hopen |].
  rewrite Hrun. f_equal. f_equal.
  apply Z.eqb_neq in Hpeer. apply Z.ltb_ge in Hnw.
  subst s1. unfold signalled.
  destruct (open_roles f_mode)
    as [(Hr & E1 & E2 & E5 & E3 & E4) | (Hr & E1 & E2 & E5 & E3 & E4)];
    rewrite ?E1, ?E2, ?E3, ?E4, ?E5 in *; cbn in *;
    rewrite Hnw; cbn; rewrite Hnw; cbn; rewrite Hpeer; rewrite ?andb_false_r;
    rewrite (wrap_int_small (_ + 1)) by lia;
    rewrite wrap_int_small by lia;
    destruct s; cbn; f_equal; lia.
Qed.

Lemma open_reader (fuel : nat) (f_mode : Z) :
  is_reader f_mode = true -> fifoproc_open fuel f_mode = fifoproc_open fuel FMODE_READ.
Proof.
  intros H. unfold fifoproc_open.
  change (nonzero (Z.land f_mode FMODE_READ)) with (is_reader f_mode).
  rewrite H. reflexivity.
Qed.

Lemma open_writer (fuel : nat) (f_mode : Z) :
  is_reader f_mode = false -> fifoproc_open fuel f_mode = fifoproc_open fuel FMODE_WRITE.
Proof.
  intros H. unfold fifoproc_open.
  change (nonzero (Z.land f_mode FMODE_READ)) with (is_reader f_mode).
  rewrite H. reflexivity.
Qed.

(** The sleeper of [open] once its queue has been posted and the
    other role has a session. *)
Lemma run_open_asleep_woken (n : nat) (f_mode : Z) (sig : bool) (s : kstate) :
  (0 < n)%nat ->
  0 < sem_count s (wait_sem (isProducer f_mode)) ->
  0 < mtx s ->
  int_val s (peer_count f_mode) <> 0 ->
  run (open_asleep n f_mode) sig s =
    ([EDown (wait_sem (isProducer f_mode)) 0; EDown &mtx 0;
      ELoad (peer_count f_mode) (int_val s (peer_count f_mode)); EUp &mtx],
     Done 0
       (set_sem (wait_sem (isProducer f_mode))
          (sem_count s (wait_sem (isProducer f_mode)) - 1) s)).
Proof.
  intros Hn Hq Hm Hpeer. destruct n as [| n]; [lia |].
  apply Z.eqb_neq in Hpeer.
  unfold open_asleep, wait_loop_asleep.
  rewrite !run_bind, run_cond_wait_asleep_woken by assumption.
  cbn. rewrite while_S. cbn.
  destruct (open_roles f_mode)
    as [(Hr & E1 & E2 & E5 & E3 & E4) | (Hr & E1 & E2 & E5 & E3 & E4)];
    rewrite ?E1, ?E2, ?E3, ?E4, ?E5 in *; clear E1 E2 E3 E4 E5;
    cbn in *; rewrite Hpeer; cbn;
    replace (mtx s - 1 + 1) with (mtx s) by lia;
    destruct s; reflexivity.
Qed.

(** X12. The rendezvous of [open]: on a device nobody has open, the first
    thread to open it sleeps; a thread of the other role then opens it
    without waiting and posts the sleeper's queue; the sleeper wakes up
    and returns 0.  Each role then has one session, nobody is registered
    as waiting, both queues are empty again and the mutex is free. *)
Theorem open_rendezvous (cb : Kfifo.kfifo) (um : gmap Z byte) (f1 f2 : nat)
    (m1 m2 : Z) (sig sig' : bool) :
  is_reader m1 <> is_reader m2 ->
  let a := run (fifoproc_open (S (S f1)) m1) false (idle_device cb um) in
  let b := run (fifoproc_open (S f2) m2) sig (after a) in
  let c := run (rest a) sig' (after b) in
  snd a = Blocked (open_asleep (S f1) m1) (after a) /\
  snd b = Done 0 (after b) /\
  snd c = Done 0 (mkState cb 1 1 1 0 0 0 0 um).
Proof.
  intros Hroles a b c.
  assert (Ha : snd a = Blocked (open_asleep (S f1) m1) (after a)
               /\ after a = set_int (wait_counter (isProducer m1)) 1
                              (set_int (own_count m1) 1 (idle_device cb um))).
  { subst a.
    rewrite (run_open_without_peer (S (S f1)) m1 (idle_device cb um));
      [ | lia | reflexivity
        | destruct (open_roles m1) as [(_ & _ & E & _) | (_ & _ & E & _)];
          rewrite E; reflexivity
        | destruct (open_roles m1) as [(_ & _ & _ & E & _) | (_ & _ & _ & E & _)];
          rewrite E; cbn; lia ].
    unfold after. cbn [snd outcome_state pred].
    split; [reflexivity |].
    destruct (open_roles m1)
      as [(Hr & E1 & E2 & E5 & E3 & E4) | (Hr & E1 & E2 & E5 & E3 & E4)];
      rewrite ?E1, ?E2, ?E3, ?E4, ?E5; reflexivity. }
  destruct Ha as [Ha Hsa]. split; [exact Ha |].
  assert (Hrest : rest a = open_asleep (S f1) m1).
  { unfold rest. rewrite Ha. reflexivity. }
  assert (Hb : snd b = Done 0 (after b)
               /\ after b = set_sem (wait_sem (isProducer m1)) 1
                              (mkState cb 1 1 1 0 0 0 0 um)).
  { subst b. rewrite Hsa.
    destruct (is_reader m1) eqn:H1, (is_reader m2) eqn:H2; try done;
      unfold own_count, isProducer; rewrite H1;
      rewrite ?(open_reader _ m2 H2), ?(open_writer _ m2 H2);
      rewrite run_open_with_peer by eval_side;
      split; reflexivity. }
  destruct Hb as [Hb Hsb]. split; [exact Hb |].
  subst c. rewrite Hrest, Hsb.
  rewrite run_open_asleep_woken;
    [ | lia
      | destruct (open_roles m1) as [(_ & _ & _ & E & _) | (_ & _ & _ & E & _)];
        rewrite E; cbn; lia
      | destruct (open_roles m1) as [(_ & _ & _ & E & _) | (_ & _ & _ & E & _)];
        rewrite E; cbn; lia
      | destruct (open_roles m1)
          as [(_ & _ & E & E' & _) | (_ & _ & E & E' & _)];
        rewrite E, E'; cbn; lia ].
  destruct (open_roles m1) as [(_ & _ & _ & E & _) | (_ & _ & _ & E & _)];
    rewrite E; reflexivity.
Qed.

(** *** Instances *)

(** A producer opens the device on which a consumer sleeps. *)
Lemma open_with_peer_returns_witness :
  let s := after (consumer_asleep 100 abc) in
  exists tr s',
    run (fifoproc_open 1 FMODE_WRITE) false s = (tr, Done 0 s') /\
    int_val s' (own_count FMODE_WRITE)
      = wrap_int (int_val s (own_count FMODE_WRITE) + 1) /\
    int_val s' (peer_count FMODE_WRITE) = int_val s (peer_count FMODE_WRITE) /\
    int_val s' (peer_counter FMODE_WRITE)
      = (if 0 <? int_val s (peer_counter FMODE_WRITE)
         then wrap_int (int_val s (peer_counter FMODE_WRITE) - 1)
         else int_val s (peer_counter FMODE_WRITE)) /\
    sem_count s' (peer_sem FMODE_WRITE)
      = (if 0 <? int_val s (peer_counter FMODE_WRITE)
         then sem_count s (peer_sem FMODE_WRITE) + 1
         else sem_count s (peer_sem FMODE_WRITE)) /\
    int_val s' (wait_counter (isProducer FMODE_WRITE))
      = int_val s (wait_counter (isProducer FMODE_WRITE)) /\
    sem_count s' (wait_sem (isProducer FMODE_WRITE))
      = sem_count s (wait_sem (isProducer FMODE_WRITE)) /\
    mtx s' = mtx s /\ cbuffer s' = cbuffer s /\ user_mem s' = user_mem s.
Proof.
  intros s.
  apply (open_with_peer_returns 1 FMODE_WRITE false s).
  - eval_side.
  - eval_side.
  - eval_side.
Defined.

(** A consumer opens the fresh device. *)
Lemma open_without_peer_sleeps_witness :
  let s := loaded 100 abc in
  exists tr s',
    run (fifoproc_open 1 FMODE_READ) false s
      = (tr ++ [EUp &mtx], Blocked (open_asleep (pred 1) FMODE_READ) s') /\
    int_val s' (own_count FMODE_READ)
      = wrap_int (int_val s (own_count FMODE_READ) + 1) /\
    int_val s' (wait_counter (isProducer FMODE_READ))
      = wrap_int (int_val s (wait_counter (isProducer FMODE_READ)) + 1) /\
    int_val s' (peer_count FMODE_READ) = 0 /\
    int_val s' (peer_counter FMODE_READ)
      = (if 0 <? int_val s (peer_counter FMODE_READ)
         then wrap_int (int_val s (peer_counter FMODE_READ) - 1)
         else int_val s (peer_counter FMODE_READ)) /\
    sem_count s' (peer_sem FMODE_READ)
      = (if 0 <? int_val s (peer_counter FMODE_READ)
         then sem_count s (peer_sem FMODE_READ) + 1
         else sem_count s (peer_sem FMODE_READ)) /\
    sem_count s' (wait_sem (isProducer FMODE_READ))
      = sem_count s (wait_sem (isProducer FMODE_READ)) /\
    mtx s' = mtx s /\ cbuffer s' = cbuffer s /\ user_mem s' = user_mem s.
Proof.
  intros s.
  apply (open_without_peer_sleeps 1 FMODE_READ s).
  - eval_side.
  - eval_side.
  - eval_side.
  - eval_side.
Defined.

Lemma open_interrupted_keeps_session_witness :
  exists tr s',
    run (fifoproc_open 1 FMODE_READ) true (loaded 100 abc)
      = (tr, Done (- EINTR) s') /\
    int_val s' (own_count FMODE_READ)
      = wrap_int (int_val (loaded 100 abc) (own_count FMODE_READ) + 1) /\
    int_val s' (own_count FMODE_READ)
      <> int_val (loaded 100 abc) (own_count FMODE_READ) /\
    int_val s' (wait_counter (isProducer FMODE_READ))
      = wrap_int
          (wrap_int
             (int_val (loaded 100 abc) (wait_counter (isProducer FMODE_READ)) + 1)
           - 1) /\
    mtx s' = mtx (loaded 100 abc) /\
    cbuffer s' = cbuffer (loaded 100 abc).
Proof.
  apply open_interrupted_keeps_session.
  - eval_side.
  - eval_side.
  - eval_side.
  - eval_side.
Defined.

(** A thread is inside the critical section when another one writes. *)
Lemma call_finds_mutex_taken_witness :
  exists tr p,
    run (call_prog 1 (Write 100 3)) true (set_sem &mtx 0 (loaded 100 abc)) =
      (if true
       then (tr ++ [EDown &mtx (- EINTR)],
             Done (- EINTR) (set_sem &mtx 0 (loaded 100 abc)))
       else (tr, Blocked p (set_sem &mtx 0 (loaded 100 abc)))) /\
    (forall e, e ∈ tr -> exists from n bs, e = ECopyFromUser from n bs 0).
Proof.
  apply call_finds_mutex_taken.
  - eval_side.
  - split; [unfold MAX_KBUF; lia | vm_compute; reflexivity].
Defined.

(** The last consumer closes while three bytes are queued and no
    producer is left. *)
Lemma release_effect_witness :
  let s := set_int &cons_count 1 abc_queued in
  exists tr s',
    run (fifoproc_release FMODE_READ) false s = (tr, Done 0 s') /\
    int_val s' (own_count FMODE_READ)
      = wrap_int (int_val s (own_count FMODE_READ) - 1) /\
    int_val s' (peer_count FMODE_READ) = int_val s (peer_count FMODE_READ) /\
    int_val s' (peer_counter FMODE_READ)
      = (if 0 <? int_val s (peer_counter FMODE_READ)
         then wrap_int (int_val s (peer_counter FMODE_READ) - 1)
         else int_val s (peer_counter FMODE_READ)) /\
    sem_count s' (peer_sem FMODE_READ)
      = (if 0 <? int_val s (peer_counter FMODE_READ)
         then sem_count s (peer_sem FMODE_READ) + 1
         else sem_count s (peer_sem FMODE_READ)) /\
    cbuffer s'
      = (if (prod_count s' =? 0) && (cons_count s' =? 0)
         then Kfifo.kfifo_reset (cbuffer s)
         else cbuffer s) /\
    (EKfifoReset ∈ tr <-> prod_count s' = 0 /\ cons_count s' = 0) /\
    mtx s' = mtx s /\ user_mem s' = user_mem s.
Proof.
  intros s.
  apply (release_effect FMODE_READ false s).
  eval_side.
Defined.

Lemma open_release_round_trip_witness :
  exists tr tr' s1,
    run (fifoproc_open 1 FMODE_WRITE) false (pipe_ready 100 abc) = (tr, Done 0 s1) /\
    run (fifoproc_release FMODE_WRITE) false s1 = (tr', Done 0 (pipe_ready 100 abc)).
Proof.
  apply open_release_round_trip.
  - eval_side.
  - eval_side.
  - eval_side.
  - eval_side.
  - eval_side.
Defined.

Lemma open_rendezvous_witness :
  let a := run (fifoproc_open 2 FMODE_WRITE) false
             (idle_device (Kfifo.kfifo_alloc MAX_CBUFFER_LEN []) ∅) in
  let b := run (fifoproc_open 1 FMODE_READ) false (after a) in
  let c := run (rest a) false (after b) in
  snd a = Blocked (open_asleep 1 FMODE_WRITE) (after a) /\
  snd b = Done 0 (after b) /\
  snd c = Done 0 (mkState (Kfifo.kfifo_alloc MAX_CBUFFER_LEN []) 1 1 1 0 0 0 0 ∅).
Proof.
  apply (open_rendezvous (Kfifo.kfifo_alloc MAX_CBUFFER_LEN []) ∅ 0 0
           FMODE_WRITE FMODE_READ false false).
  eval_side.
Defined.

(** ** Reading from an empty buffer *)

(** The run of [read] up to the point where it sleeps. *)
Lemma run_read_sleeps (fuel : nat) (buff size : Z) (s : kstate) :
  (0 < fuel)%nat ->
  0 < mtx s ->
  Kfifo.kfifo_len (cbuffer s) = 0 ->
  0 < prod_count s ->
  sem_cons s <= 0 ->
  run (fifoproc_read fuel buff size) false s =
    ([EDown &mtx 0; EKfifoLen 0; ELoad &prod_count (prod_count s);
      ELoad &nr_cons_waiting (nr_cons_waiting s);
      EStore &nr_cons_waiting (wrap_int (nr_cons_waiting s + 1));
      EUp &mtx],
     Blocked (read_asleep (pred fuel) buff size)
       (set_int &nr_cons_waiting (wrap_int (nr_cons_waiting s + 1)) s)).
Proof.
  intros Hf Hm Hlen Hp Hq.
  destruct fuel as [| fuel]; [lia |].
  apply Z.ltb_lt in Hm, Hp.
  unfold fifoproc_read, read_asleep, wait_loop_asleep. cbn. rewrite Hm. cbn.
  rewrite while_S. cbn. rewrite Hlen. cbn. rewrite Hp. cbn.
  rewrite !run_bind.
  rewrite run_cond_wait_sleeps by exact Hq. cbn.
  replace (mtx s - 1 + 1) with (mtx s) by lia.
  destruct s; reflexivity.
Qed.

(** X13. The buffer is empty and a producer has the device open: [read]
    registers as a waiting consumer, releases the mutex and sleeps.
    Nothing is copied to the user and nothing else changes; what is left
    to run is the rest of [cond_wait] and the loop again. *)
Theorem read_sleeps_when_empty (fuel : nat) (buff size : Z) (s : kstate) :
  (0 < fuel)%nat ->
  0 < mtx s ->
  Kfifo.kfifo_len (cbuffer s) = 0 ->
  0 < prod_count s ->
  sem_cons s <= 0 ->
  exists tr s',
    run (fifoproc_read fuel buff size) false s =
      (tr ++ [EUp &mtx], Blocked (read_asleep (pred fuel) buff size) s') /\
    nr_cons_waiting s' = wrap_int (nr_cons_waiting s + 1) /\
    cbuffer s' = cbuffer s /\ mtx s' = mtx s /\
    prod_count s' = prod_count s /\ cons_count s' = cons_count s /\
    sem_prod s' = sem_prod s /\ sem_cons s' = sem_cons s /\
    nr_prod_waiting s' = nr_prod_waiting s /\ user_mem s' = user_mem s.
Proof.
  intros Hf Hm Hlen Hp Hq.
  rewrite (run_read_sleeps fuel buff size s Hf Hm Hlen Hp Hq).
  exists [EDown &mtx 0; EKfifoLen 0; ELoad &prod_count (prod_count s);
          ELoad &nr_cons_waiting (nr_cons_waiting s);
          EStore &nr_cons_waiting (wrap_int (nr_cons_waiting s + 1))].
  eexists. split; [reflexivity |].
  cbn. repeat apply conj; reflexivity.
Qed.

(** X14. The same call when a signal is pending: [read] returns [-EINTR]
    with the mutex free, has copied nothing to the user, and has undone
    its registration, so the state is the one it started from. *)
Theorem read_interrupted_when_empty (fuel : nat) (buff size : Z) (s : kstate) :
  (0 < fuel)%nat ->
  0 < mtx s ->
  Kfifo.kfifo_len (cbuffer s) = 0 ->
  0 < prod_count s ->
  sem_cons s <= 0 ->
  - 2 ^ 31 <= nr_cons_waiting s < 2 ^ 31 - 1 ->
  exists tr,
    run (fifoproc_read fuel buff size) true s = (tr, Done (- EINTR) s) /\
    (forall e, e ∈ tr ->
       match e with
       | ECopyToUser _ _ _ _ | EKfifoOut _ _ _ => False
       | _ => True
       end).
Proof.
  intros Hf Hm Hlen Hp Hq Hrange.
  destruct fuel as [| fuel]; [lia |].
  apply Z.ltb_lt in Hm, Hp.
  unfold fifoproc_read. cbn. rewrite Hm. cbn.
  rewrite while_S. cbn. rewrite Hlen. cbn. rewrite Hp. cbn.
  rewrite !run_bind.
  rewrite run_cond_wait_interrupted by (cbn; lia). cbn.
  change (nonzero (- EINTR)) with true. cbn.
  replace (mtx s - 1 + 1) with (mtx s) by lia.
  rewrite int_round_trip by exact Hrange.
  eexists. split.
  - destruct s; reflexivity.
  - intros e He. repeat (apply elem_of_cons in He as [-> | He]; [exact I |]).
    apply elem_of_nil in He. destruct He.
Qed.

(** ** Writing and reading together *)

Arguments write_locked : simpl never.

(** [write] up to the loop: the bytes are in [kbuffer] and the mutex is
    taken. *)
Lemma run_write_enter (fuel : nat) (buff size : Z) (sig : bool) (s : kstate) :
  0 <= size <= MAX_KBUF ->
  length (user_read (user_mem s) buff (Z.to_nat size)) = Z.to_nat size ->
  0 < mtx s ->
  run (fifoproc_write fuel buff size) sig s =
    prepend [ECopyFromUser buff size
               (user_read (user_mem s) buff (Z.to_nat size)) 0;
             EDown &mtx 0]
      (run (write_locked fuel (user_read (user_mem s) buff (Z.to_nat size)) size)
         sig (set_sem &mtx (mtx s - 1) s)).
Proof.
  intros Hsize Hread Hm.
  assert (Hbig : (MAX_KBUF <? size) = false) by (apply Z.ltb_ge; lia).
  unfold MAX_KBUF in Hsize. apply Z.ltb_lt in Hm.
  assert (Hul : ulong size = size)
    by (apply ulong_small; change (2 ^ 64) with 18446744073709551616; lia).
  unfold fifoproc_write, write_locked. rewrite Hbig. cbn.
  unfold do_copy_from_user. rewrite Hul. cbn. rewrite Hread.
  replace (size - Z.of_nat (Z.to_nat size)) with 0 by lia. cbn.
  rewrite Hm. cbn.
  match goal with |- context [run ?p sig ?st] => destruct (run p sig st) end.
  reflexivity.
Qed.

(** A producer asleep in [write] whose queue is posted, with the mutex
    free, takes the post and the mutex and tests the room again. *)
Lemma run_write_asleep_woken (n : nat) (kbuffer : list byte) (size : Z)
    (sig : bool) (s : kstate) :
  0 < sem_prod s ->
  0 < mtx s ->
  run (write_asleep n kbuffer size) sig s =
    prepend [EDown &sem_prod 0; EDown &mtx 0]
      (run (write_locked n kbuffer size) sig
         (set_sem &mtx (mtx s - 1) (set_sem &sem_prod (sem_prod s - 1) s))).
Proof.
  intros Hq Hm. apply Z.ltb_lt in Hq, Hm.
  unfold write_asleep, wait_loop_asleep, write_locked, cond_wait_asleep.
  cbn. rewrite Hq. cbn. rewrite Hm. cbn.
  match goal with |- context [run ?p sig ?st] => destruct (run p sig st) end.
  reflexivity.
Qed.

(** The same for a consumer asleep in [read]: it goes on exactly as a
    [read] called at that moment. *)
Lemma run_read_asleep_woken (n : nat) (buff size : Z) (sig : bool) (s : kstate) :
  0 < sem_cons s ->
  0 < mtx s ->
  run (read_asleep n buff size) sig s =
    prepend [EDown &sem_cons 0]
      (run (fifoproc_read n buff size) sig
         (set_sem &sem_cons (sem_cons s - 1) s)).
Proof.
  intros Hq Hm. apply Z.ltb_lt in Hq, Hm.
  unfold read_asleep, wait_loop_asleep, fifoproc_read, cond_wait_asleep.
  cbn. rewrite Hq. cbn. rewrite Hm. cbn. reflexivity.
Qed.

(** What [write] does from the loop on when the bytes fit and a consumer
    has the device open. *)
Lemma write_locked_result (fuel : nat) (kbuffer : list byte) (size : Z)
    (sig : bool) (s : kstate) :
  (0 < fuel)%nat ->
  Kfifo.kfifo_wf (cbuffer s) ->
  0 <= size <= MAX_KBUF ->
  length kbuffer = Z.to_nat size ->
  size <= MAX_CBUFFER_LEN - Kfifo.kfifo_len (cbuffer s) ->
  cons_count s <> 0 ->
  exists tr s',
    run (write_locked fuel kbuffer size) sig s = (tr, Done size s') /\
    Kfifo.kfifo_wf (cbuffer s') /\
    Kfifo.kfifo_contents (cbuffer s')
      = Kfifo.kfifo_contents (cbuffer s) ++ kbuffer /\
    Kfifo.kfifo_len (cbuffer s') = Kfifo.kfifo_len (cbuffer s) + size /\
    mtx s' = mtx s + 1 /\
    user_mem s' = user_mem s /\
    prod_count s' = prod_count s /\ cons_count s' = cons_count s /\
    sem_prod s' = sem_prod s /\ nr_prod_waiting s' = nr_prod_waiting s /\
    nr_cons_waiting s'
      = (if 0 <? nr_cons_waiting s then wrap_int (nr_cons_waiting s - 1)
         else nr_cons_waiting s) /\
    sem_cons s'
      = (if 0 <? nr_cons_waiting s then sem_cons s + 1 else sem_cons s).
Proof.
  intros Hf Hwf Hsize Hkb Hroom Hc.
  pose proof (KfifoFacts.kfifo_len_range _ Hwf) as Hr.
  pose proof (KfifoFacts.kfifo_in_ret (cbuffer s) kbuffer size Hwf) as Hret.
  pose proof (KfifoFacts.kfifo_in_wf (cbuffer s) kbuffer size Hwf) as Hwf'.
  unfold MAX_KBUF, MAX_CBUFFER_LEN in *.
  rewrite KfifoFacts.uint_small in Hret
    by (change (2 ^ 32) with 4294967296; lia).
  rewrite Z.min_l in Hret by lia.
  assert (Hcont : Kfifo.kfifo_contents (fst (Kfifo.kfifo_in (cbuffer s) kbuffer size))
                  = Kfifo.kfifo_contents (cbuffer s) ++ kbuffer).
  { rewrite KfifoFacts.kfifo_in_contents by (exact Hwf || (rewrite Hret; lia)).
    rewrite Hret, take_ge by lia. reflexivity. }
  assert (Hlen : Kfifo.kfifo_len (fst (Kfifo.kfifo_in (cbuffer s) kbuffer size))
                 = Kfifo.kfifo_len (cbuffer s) + size).
  { rewrite KfifoFacts.kfifo_in_len, Hret by exact Hwf. reflexivity. }
  destruct fuel as [| fuel]; [lia |].
  assert (Hlt : (Kfifo.kfifo_avail (cbuffer s) <? size) = false).
  { apply Z.ltb_ge. unfold Kfifo.kfifo_avail.
    rewrite KfifoFacts.kfifo_unused_eq by exact Hwf.
    unfold MAX_CBUFFER_LEN. lia. }
  apply Z.eqb_neq in Hc.
  unfold write_locked. rewrite while_S. cbn. rewrite Hlt. cbn.
  rewrite Hc. cbn. rewrite run_bind, run_cond_signal. cbn.
  eexists _, _. split; [reflexivity |].
  unfold signalled. cbn.
  destruct (0 <? nr_cons_waiting s); cbn;
    repeat apply conj; first [ assumption | reflexivity ].
Qed.

(** The whole call in that case. *)
Lemma write_result (fuel : nat) (buff size : Z) (sig : bool) (s : kstate) :
  (0 < fuel)%nat ->
  Kfifo.kfifo_wf (cbuffer s) ->
  0 < mtx s ->
  0 <= size <= MAX_KBUF ->
  length (user_read (user_mem s) buff (Z.to_nat size)) = Z.to_nat size ->
  size <= MAX_CBUFFER_LEN - Kfifo.kfifo_len (cbuffer s) ->
  cons_count s <> 0 ->
  exists tr s',
    run (fifoproc_write fuel buff size) sig s = (tr, Done size s') /\
    Kfifo.kfifo_wf (cbuffer s') /\
    Kfifo.kfifo_contents (cbuffer s')
      = Kfifo.kfifo_contents (cbuffer s)
          ++ user_read (user_mem s) buff (Z.to_nat size) /\
    Kfifo.kfifo_len (cbuffer s') = Kfifo.kfifo_len (cbuffer s) + size /\
    mtx s' = mtx s /\
    user_mem s' = user_mem s /\
    prod_count s' = prod_count s /\ cons_count s' = cons_count s /\
    sem_prod s' = sem_prod s /\ nr_prod_waiting s' = nr_prod_waiting s /\
    nr_cons_waiting s'
      = (if 0 <? nr_cons_waiting s then wrap_int (nr_cons_waiting s - 1)
         else nr_cons_waiting s) /\
    sem_cons s'
      = (if 0 <? nr_cons_waiting s then sem_cons s + 1 else sem_cons s).
Proof.
  intros Hf Hwf Hm Hsize Hread Hroom Hc.
  rewrite run_write_enter by assumption.
  destruct (write_locked_result fuel
              (user_read (user_mem s) buff (Z.to_nat size)) size sig
              (set_sem &mtx (mtx s - 1) s) Hf Hwf Hsize Hread Hroom Hc)
    as (tr & s' & Hrun & H1 & H2 & H3 & H4 & H5 & H6 & H7 & H8 & H9 & H10 & H11).
  rewrite Hrun. cbn in *.
  eexists _, s'. split; [reflexivity |].
  repeat apply conj; first [ assumption | lia ].
Qed.

(** What [read] does on a buffer that holds bytes, whether or not the
    copy to the user succeeds. *)
Lemma read_result (fuel : nat) (buff size : Z) (sig : bool) (s : kstate) :
  (0 < fuel)%nat ->
  Kfifo.kfifo_wf (cbuffer s) ->
  0 < mtx s ->
  0 < Kfifo.kfifo_len (cbuffer s) ->
  0 <= size ->
  let count := Z.min size (Kfifo.kfifo_len (cbuffer s)) in
  exists tr v s',
    run (fifoproc_read fuel buff size) sig s = (tr, Done v s') /\
    (user_mapped (user_mem s) buff (Z.to_nat count) ->
     v = count /\
     user_read (user_mem s') buff (Z.to_nat count)
       = take (Z.to_nat count) (Kfifo.kfifo_contents (cbuffer s))) /\
    Kfifo.kfifo_wf (cbuffer s') /\
    Kfifo.kfifo_contents (cbuffer s')
      = drop (Z.to_nat count) (Kfifo.kfifo_contents (cbuffer s)) /\
    Kfifo.kfifo_len (cbuffer s') = Kfifo.kfifo_len (cbuffer s) - count /\
    mtx s' = mtx s /\
    prod_count s' = prod_count s /\ cons_count s' = cons_count s /\
    sem_cons s' = sem_cons s /\ nr_cons_waiting s' = nr_cons_waiting s /\
    nr_prod_waiting s'
      = (if 0 <? nr_prod_waiting s then wrap_int (nr_prod_waiting s - 1)
         else nr_prod_waiting s) /\
    sem_prod s'
      = (if 0 <? nr_prod_waiting s then sem_prod s + 1 else sem_prod s).
Proof.
  intros Hf Hwf Hm Hlen Hsize count.
  destruct (run_read_nonempty fuel buff size sig s Hf Hwf Hm Hlen Hsize)
    as [t Hrun].
  pose proof (KfifoFacts.kfifo_len_range _ Hwf) as Hr.
  unfold MAX_CBUFFER_LEN in Hr.
  pose proof (KfifoFacts.kfifo_contents_length _ Hwf) as Hcl.
  set (l := Kfifo.kfifo_len (cbuffer s)) in *.
  fold count in Hrun.
  set (bytes := take (Z.to_nat count) (Kfifo.kfifo_contents (cbuffer s))) in *.
  assert (Hcount : 0 <= count <= l) by (subst count; lia).
  assert (Hbl : length bytes = Z.to_nat count)
    by (subst bytes; rewrite length_take; lia).
  assert (Hret : snd (Kfifo.kfifo_out (cbuffer s) count) = count).
  { rewrite KfifoFacts.kfifo_out_ret.
    rewrite KfifoFacts.uint_small by lia. fold l. lia. }
  assert (Hcp : do_copy_to_user (user_mem s) buff bytes count
                = user_write (user_mem s) buff bytes).
  { unfold do_copy_to_user. rewrite ulong_small by lia.
    rewrite take_ge by lia. reflexivity. }
  pose proof (KfifoFacts.kfifo_out_contents (cbuffer s) count Hwf) as Hc.
  pose proof (KfifoFacts.kfifo_out_len (cbuffer s) count Hwf) as Hl.
  pose proof (KfifoFacts.kfifo_out_wf (cbuffer s) count Hwf) as Hwf'.
  rewrite Hret in Hc, Hl. fold l in Hl.
  rewrite Hcp in Hrun.
  eexists _, _, _. split; [exact Hrun |].
  cbn. rewrite signalled_cbuffer. cbn.
  split.
  { intros Hmap. rewrite <- Hbl in Hmap.
    destruct (user_write_mapped _ _ _ Hmap) as [Hw0 Hrd].
    rewrite Hw0. cbn. split; [reflexivity |].
    rewrite <- Hbl. exact Hrd. }
  unfold signalled. cbn.
  destruct (0 <? nr_prod_waiting s); cbn;
    repeat apply conj; first [ assumption | reflexivity ].
Qed.

(** X15. Bytes come out in the order they went in: after a [write] of bytes
    that fit, a [read] of [n] bytes into mapped user memory delivers the
    first [n] bytes of what was queued before followed by what was
    written, and leaves the rest queued.  On an empty buffer a [read]
    of as many bytes as were written returns just those. *)
Theorem write_then_read_fifo (f1 f2 : nat) (src size dst n : Z)
    (sig1 sig2 : bool) (s : kstate) :
  (0 < f1)%nat ->
  (0 < f2)%nat ->
  Kfifo.kfifo_wf (cbuffer s) ->
  0 < mtx s ->
  0 < size <= MAX_KBUF ->
  length (user_read (user_mem s) src (Z.to_nat size)) = Z.to_nat size ->
  size <= MAX_CBUFFER_LEN - Kfifo.kfifo_len (cbuffer s) ->
  cons_count s <> 0 ->
  0 <= n ->
  let written := user_read (user_mem s) src (Z.to_nat size) in
  let q := Kfifo.kfifo_contents (cbuffer s) ++ written in
  let count := Z.min n (Kfifo.kfifo_len (cbuffer s) + size) in
  user_mapped (user_mem s) dst (Z.to_nat count) ->
  exists tr1 s1 tr2 s2,
    run (fifoproc_write f1 src size) sig1 s = (tr1, Done size s1) /\
    run (fifoproc_read f2 dst n) sig2 s1 = (tr2, Done count s2) /\
    user_read (user_mem s2) dst (Z.to_nat count) = take (Z.to_nat count) q /\
    Kfifo.kfifo_contents (cbuffer s2) = drop (Z.to_nat count) q /\
    mtx s2 = mtx s /\
    (Kfifo.kfifo_len (cbuffer s) = 0 -> n = size ->
     user_read (user_mem s2) dst (Z.to_nat size) = written /\
     Kfifo.kfifo_contents (cbuffer s2) = []).
Proof.
  intros Hf1 Hf2 Hwf Hm Hsize Hread Hroom Hc Hn written q count Hmap.
  destruct (write_result f1 src size sig1 s Hf1 Hwf Hm ltac:(lia) Hread Hroom Hc)
    as (tr1 & s1 & Hrun1 & Hwf1 & Hq1 & Hl1 & Hm1 & Hu1 & _).
  pose proof (KfifoFacts.kfifo_len_range _ Hwf) as Hr.
  destruct (read_result f2 dst n sig2 s1 Hf2 Hwf1 ltac:(lia) ltac:(lia) Hn)
    as (tr2 & v & s2 & Hrun2 & Hcopy & Hwf2 & Hq2 & Hl2 & Hm2 & _).
  rewrite Hl1, Hu1, Hq1 in *. fold written q count in Hcopy, Hq2, Hl2.
  destruct (Hcopy Hmap) as [-> Hread2].
  exists tr1, s1, tr2, s2.
  repeat apply conj; try assumption; try congruence.
  intros Hempty ->.
  assert (Hcount : count = size) by (subst count; lia).
  rewrite Hcount in *.
  assert (Hq : q = written).
  { subst q. rewrite (KfifoFacts.kfifo_len_0_contents _ Hwf Hempty). reflexivity. }
  rewrite Hq in *. rewrite Hread2, Hq2.
  rewrite take_ge, drop_ge by (subst written; lia). done.
Qed.

(** X16. A consumer asleep in [read] on an empty buffer is woken by the next
    [write], and when it runs again it delivers the first bytes of what
    that [write] queued.  Its registration in [nr_cons_waiting] and the
    post on [sem_cons] have cancelled out, and the mutex is free. *)
Theorem sleeping_read_gets_written_bytes (fr fw : nat) (src size dst n : Z)
    (sigw sigr : bool) (s : kstate) :
  (1 < fr)%nat ->
  (0 < fw)%nat ->
  Kfifo.kfifo_wf (cbuffer s) ->
  0 < mtx s ->
  Kfifo.kfifo_len (cbuffer s) = 0 ->
  0 < prod_count s ->
  cons_count s <> 0 ->
  sem_cons s = 0 ->
  0 <= nr_cons_waiting s < 2 ^ 31 - 1 ->
  0 < size <= MAX_KBUF ->
  length (user_read (user_mem s) src (Z.to_nat size)) = Z.to_nat size ->
  0 <= n ->
  user_mapped (user_mem s) dst (Z.to_nat (Z.min n size)) ->
  let a := run (fifoproc_read fr dst n) false s in
  let b := run (fifoproc_write fw src size) sigw (after a) in
  let c := run (rest a) sigr (after b) in
  snd a = Blocked (read_asleep (pred fr) dst n) (after a) /\
  snd b = Done size (after b) /\
  snd c = Done (Z.min n size) (after c) /\
  user_read (user_mem (after c)) dst (Z.to_nat (Z.min n size))
    = take (Z.to_nat (Z.min n size))
        (user_read (user_mem s) src (Z.to_nat size)) /\
  Kfifo.kfifo_contents (cbuffer (after c))
    = drop (Z.to_nat (Z.min n size))
        (user_read (user_mem s) src (Z.to_nat size)) /\
  nr_cons_waiting (after c) = nr_cons_waiting s /\
  sem_cons (after c) = 0 /\
  mtx (after c) = mtx s.
Proof.
  intros Hfr Hfw Hwf Hm Hlen Hp Hc Hq Hw Hsize Hread Hn Hmap a b c.
  subst c b a. unfold after, rest.
  rewrite (run_read_sleeps fr dst n s ltac:(lia) Hm Hlen Hp ltac:(lia)).
  cbn [snd outcome_state outcome_prog].
  set (sa := set_int &nr_cons_waiting (wrap_int (nr_cons_waiting s + 1)) s).
  assert (Hwa : nr_cons_waiting sa = nr_cons_waiting s + 1).
  { subst sa. cbn. apply wrap_int_small. lia. }
  destruct (write_result fw src size sigw sa Hfw Hwf Hm ltac:(lia) Hread
              ltac:(change (cbuffer sa) with (cbuffer s); unfold MAX_CBUFFER_LEN,
                    MAX_KBUF in *; lia) Hc)
    as (tr1 & sb & Hrun1 & Hwf1 & Hq1 & Hl1 & Hm1 & Hu1 & Hp1 & Hc1 & Hsp1
        & Hnp1 & Hnc1 & Hsc1).
  rewrite Hrun1. cbn [snd outcome_state].
  change (cbuffer sa) with (cbuffer s) in *.
  change (user_mem sa) with (user_mem s) in *.
  change (mtx sa) with (mtx s) in *.
  change (sem_cons sa) with (sem_cons s) in *.
  rewrite Hwa in Hnc1, Hsc1.
  replace (0 <? nr_cons_waiting s + 1) with true in Hnc1, Hsc1
    by (symmetry; apply Z.ltb_lt; lia).
  replace (nr_cons_waiting s + 1 - 1) with (nr_cons_waiting s) in Hnc1 by lia.
  rewrite wrap_int_small in Hnc1 by lia.
  rewrite (KfifoFacts.kfifo_len_0_contents _ Hwf Hlen) in Hq1. cbn in Hq1.
  rewrite Hlen, Z.add_0_l in Hl1.
  rewrite run_read_asleep_woken by lia.
  set (sb' := set_sem &sem_cons (sem_cons sb - 1) sb).
  destruct (read_result (pred fr) dst n sigr sb' ltac:(lia) Hwf1
              ltac:(change (mtx sb') with (mtx sb); lia)
              ltac:(change (cbuffer sb') with (cbuffer sb); lia) Hn)
    as (tr2 & v & sc & Hrun2 & Hcopy & Hwf2 & Hq2 & Hl2 & Hm2 & Hp2 & Hc2 & Hsc2
        & Hnc2 & _).
  change (cbuffer sb') with (cbuffer sb) in *.
  change (user_mem sb') with (user_mem sb) in *.
  change (mtx sb') with (mtx sb) in *.
  change (sem_cons sb') with (sem_cons sb - 1) in *.
  change (nr_cons_waiting sb') with (nr_cons_waiting sb) in *.
  rewrite Hl1, Hq1, Hu1 in *.
  destruct (Hcopy Hmap) as [-> Hread2].
  rewrite Hrun2. rewrite prepend_snd. cbn [snd outcome_state].
  repeat apply conj; try reflexivity; try assumption; lia.
Qed.

(** X17. A producer asleep in [write] on a buffer without room is woken by
    the next [read], and when that [read] made room enough, the producer
    queues the bytes it had copied from the user when it was called,
    behind what the [read] left.  Its registration in [nr_prod_waiting]
    and the post on [sem_prod] have cancelled out, and the mutex is
    free.  This holds whether or not the [read] could copy to its
    user. *)
Theorem sleeping_write_completes_after_read (fw fr : nat) (src size dst n : Z)
    (sigr sigw : bool) (s : kstate) :
  (1 < fw)%nat ->
  (0 < fr)%nat ->
  Kfifo.kfifo_wf (cbuffer s) ->
  0 < mtx s ->
  0 <= size <= MAX_KBUF ->
  length (user_read (user_mem s) src (Z.to_nat size)) = Z.to_nat size ->
  MAX_CBUFFER_LEN - Kfifo.kfifo_len (cbuffer s) < size ->
  0 < cons_count s ->
  sem_prod s = 0 ->
  0 <= nr_prod_waiting s < 2 ^ 31 - 1 ->
  0 <= n ->
  size <= MAX_CBUFFER_LEN - Kfifo.kfifo_len (cbuffer s)
          + Z.min n (Kfifo.kfifo_len (cbuffer s)) ->
  let written := user_read (user_mem s) src (Z.to_nat size) in
  let a := run (fifoproc_write fw src size) false s in
  let b := run (fifoproc_read fr dst n) sigr (after a) in
  let c := run (rest a) sigw (after b) in
  snd a = Blocked (write_asleep (pred fw) written size) (after a) /\
  cbuffer (after a) = cbuffer s /\
  (exists v, snd b = Done v (after b)) /\
  snd c = Done size (after c) /\
  Kfifo.kfifo_contents (cbuffer (after c))
    = drop (Z.to_nat (Z.min n (Kfifo.kfifo_len (cbuffer s))))
        (Kfifo.kfifo_contents (cbuffer s))
      ++ written /\
  nr_prod_waiting (after c) = nr_prod_waiting s /\
  sem_prod (after c) = 0 /\
  mtx (after c) = mtx s.
Proof.
  intros Hfw Hfr Hwf Hm Hsize Hread Hfull Hc Hq Hw Hn Hroom written a b c.
  subst c b a. unfold after, rest.
  pose proof (KfifoFacts.kfifo_len_range _ Hwf) as Hr.
  rewrite (run_write_sleeps fw src size s ltac:(lia) Hwf Hm Hsize Hread Hfull Hc
             ltac:(lia)).
  cbn [snd outcome_state outcome_prog]. fold written.
  set (sa := set_int &nr_prod_waiting (wrap_int (nr_prod_waiting s + 1)) s).
  assert (Hwa : nr_prod_waiting sa = nr_prod_waiting s + 1).
  { subst sa. cbn. apply wrap_int_small. lia. }
  unfold MAX_KBUF, MAX_CBUFFER_LEN in *.
  destruct (read_result fr dst n sigr sa Hfr Hwf Hm
              ltac:(change (cbuffer sa) with (cbuffer s); lia) Hn)
    as (tr1 & v & sb & Hrun1 & _ & Hwf1 & Hq1 & Hl1 & Hm1 & Hp1 & Hc1 & Hsc1
        & Hnc1 & Hnp1 & Hsp1).
  rewrite Hrun1. cbn [snd outcome_state].
  change (cbuffer sa) with (cbuffer s) in *.
  change (mtx sa) with (mtx s) in *.
  change (sem_prod sa) with (sem_prod s) in *.
  change (cons_count sa) with (cons_count s) in *.
  rewrite Hwa in Hnp1, Hsp1.
  replace (0 <? nr_prod_waiting s + 1) with true in Hnp1, Hsp1
    by (symmetry; apply Z.ltb_lt; lia).
  replace (nr_prod_waiting s + 1 - 1) with (nr_prod_waiting s) in Hnp1 by lia.
  rewrite wrap_int_small in Hnp1 by lia.
  rewrite run_write_asleep_woken by lia.
  set (sb' := set_sem &mtx (mtx sb - 1) (set_sem &sem_prod (sem_prod sb - 1) sb)).
  destruct (write_locked_result (pred fw) written size sigw sb' ltac:(lia) Hwf1
              ltac:(unfold MAX_KBUF; lia) Hread
              ltac:(change (cbuffer sb') with (cbuffer sb);
                    unfold MAX_CBUFFER_LEN; lia)
              ltac:(change (cons_count sb') with (cons_count sb); lia))
    as (tr2 & sc & Hrun2 & Hwf2 & Hq2 & Hl2 & Hm2 & Hu2 & Hp2 & Hc2 & Hsp2
        & Hnp2 & _).
  change (cbuffer sb') with (cbuffer sb) in *.
  change (mtx sb') with (mtx sb - 1) in *.
  change (sem_prod sb') with (sem_prod sb - 1) in *.
  change (nr_prod_waiting sb') with (nr_prod_waiting sb) in *.
  rewrite Hrun2, prepend_snd. cbn [snd outcome_state].
  rewrite Hq2, Hq1.
  repeat apply conj; try reflexivity; try lia.
  eexists. reflexivity.
Qed.

(** *** Instances *)

(** The first few bytes at a user address are mapped. *)
Ltac solve_mapped :=
  let i := fresh "i" in
  let Hi := fresh "Hi" in
  intros i Hi;
  match type of Hi with
  | (_ < ?k)%nat => let k' := eval vm_compute in k in change k with k' in Hi
  end;
  repeat (destruct i as [| i]; [vm_compute; eauto | try lia]).

Lemma three_queued_wf : Kfifo.kfifo_wf (cbuffer three_queued).
Proof. solve_kfifo_wf. Qed.

(** A consumer reads from the pipe both ends have open, before anything
    was written. *)
Lemma read_sleeps_when_empty_witness :
  let s := pipe_ready 100 abc in
  exists tr s',
    run (fifoproc_read 1 100 3) false s =
      (tr ++ [EUp &mtx], Blocked (read_asleep (pred 1) 100 3) s') /\
    nr_cons_waiting s' = wrap_int (nr_cons_waiting s + 1) /\
    cbuffer s' = cbuffer s /\ mtx s' = mtx s /\
    prod_count s' = prod_count s /\ cons_count s' = cons_count s /\
    sem_prod s' = sem_prod s /\ sem_cons s' = sem_cons s /\
    nr_prod_waiting s' = nr_prod_waiting s /\ user_mem s' = user_mem s.
Proof.
  intros s.
  apply (read_sleeps_when_empty 1 100 3 s).
  - eval_side.
  - eval_side.
  - eval_side.
  - eval_side.
  - eval_side.
Defined.

Lemma read_interrupted_when_empty_witness :
  let s := pipe_ready 100 abc in
  exists tr,
    run (fifoproc_read 1 100 3) true s = (tr, Done (- EINTR) s) /\
    (forall e, e ∈ tr ->
       match e with
       | ECopyToUser _ _ _ _ | EKfifoOut _ _ _ => False
       | _ => True
       end).
Proof.
  intros s.
  apply (read_interrupted_when_empty 1 100 3 s).
  - eval_side.
  - eval_side.
  - eval_side.
  - eval_side.
  - eval_side.
  - eval_side.
Defined.

(** Three bytes written to the empty pipe and read back. *)
Lemma write_then_read_fifo_witness :
  let s := pipe_ready 100 abc in
  let written := user_read (user_mem s) 100 (Z.to_nat 3) in
  let q := Kfifo.kfifo_contents (cbuffer s) ++ written in
  let count := Z.min 3 (Kfifo.kfifo_len (cbuffer s) + 3) in
  exists tr1 s1 tr2 s2,
    run (fifoproc_write 1 100 3) false s = (tr1, Done 3 s1) /\
    run (fifoproc_read 1 100 3) false s1 = (tr2, Done count s2) /\
    user_read (user_mem s2) 100 (Z.to_nat count) = take (Z.to_nat count) q /\
    Kfifo.kfifo_contents (cbuffer s2) = drop (Z.to_nat count) q /\
    mtx s2 = mtx s /\
    (Kfifo.kfifo_len (cbuffer s) = 0 -> 3 = 3 ->
     user_read (user_mem s2) 100 (Z.to_nat 3) = written /\
     Kfifo.kfifo_contents (cbuffer s2) = []).
Proof.
  intros s.
  apply (write_then_read_fifo 1 1 100 3 100 3 false false s).
  - eval_side.
  - eval_side.
  - apply pipe_ready_wf.
  - eval_side.
  - eval_side.
  - eval_side.
  - eval_side.
  - eval_side.
  - eval_side.
  - solve_mapped.
Defined.

(** The consumer reads first and sleeps; the producer writes three
    bytes; the consumer gets them. *)
Lemma sleeping_read_gets_written_bytes_witness :
  let s := pipe_ready 100 abc in
  let a := run (fifoproc_read 2 100 3) false s in
  let b := run (fifoproc_write 1 100 3) false (after a) in
  let c := run (rest a) false (after b) in
  snd a = Blocked (read_asleep (pred 2) 100 3) (after a) /\
  snd b = Done 3 (after b) /\
  snd c = Done (Z.min 3 3) (after c) /\
  user_read (user_mem (after c)) 100 (Z.to_nat (Z.min 3 3))
    = take (Z.to_nat (Z.min 3 3)) (user_read (user_mem s) 100 (Z.to_nat 3)) /\
  Kfifo.kfifo_contents (cbuffer (after c))
    = drop (Z.to_nat (Z.min 3 3)) (user_read (user_mem s) 100 (Z.to_nat 3)) /\
  nr_cons_waiting (after c) = nr_cons_waiting s /\
  sem_cons (after c) = 0 /\
  mtx (after c) = mtx s.
Proof.
  intros s.
  apply (sleeping_read_gets_written_bytes 2 1 100 3 100 3 false false s).
  - eval_side.
  - eval_side.
  - apply pipe_ready_wf.
  - eval_side.
  - eval_side.
  - eval_side.
  - eval_side.
  - eval_side.
  - eval_side.
  - eval_side.
  - eval_side.
  - eval_side.
  - solve_mapped.
Defined.

(** Three bytes are queued; the producer writes a page and sleeps; the
    consumer reads the three bytes; the producer queues the page. *)
Lemma sleeping_write_completes_after_read_witness :
  let s := three_queued in
  let written := user_read (user_mem s) 100 (Z.to_nat 4096) in
  let a := run (fifoproc_write 2 100 4096) false s in
  let b := run (fifoproc_read 1 100 3) false (after a) in
  let c := run (rest a) false (after b) in
  snd a = Blocked (write_asleep (pred 2) written 4096) (after a) /\
  cbuffer (after a) = cbuffer s /\
  (exists v, snd b = Done v (after b)) /\
  snd c = Done 4096 (after c) /\
  Kfifo.kfifo_contents (cbuffer (after c))
    = drop (Z.to_nat (Z.min 3 (Kfifo.kfifo_len (cbuffer s))))
        (Kfifo.kfifo_contents (cbuffer s))
      ++ written /\
  nr_prod_waiting (after c) = nr_prod_waiting s /\
  sem_prod (after c) = 0 /\
  mtx (after c) = mtx s.
Proof.
  intros s.
  apply (sleeping_write_completes_after_read 2 1 100 4096 100 3 false false s).
  - eval_side.
  - eval_side.
  - apply three_queued_wf.
  - eval_side.
  - eval_side.
  - eval_side.
  - eval_side.
  - eval_side.
  - eval_side.
  - eval_side.
  - eval_side.
  - eval_side.
Defined.

(** ** The locking discipline on every control path *)

Lemma held_rev (tr : list event) : held (rev tr) = holds_mtx false tr.
Proof.
  unfold holds_mtx. rewrite <- fold_left_rev_right.
  induction (rev tr) as [| e h IH]; [reflexivity |].
  simpl. rewrite IH. reflexivity.
Qed.

Lemma nonzero_false (r : Z) : nonzero r = false -> r = 0.
Proof. unfold nonzero. intros H. apply negb_false_iff, Z.eqb_eq in H. exact H. Qed.

Lemma nonzero_true (r : Z) : nonzero r = true -> (r =? 0) = false.
Proof. unfold nonzero. intros H. apply negb_true_iff in H. exact H. Qed.

(** A loop keeps what holds when its test starts. *)
Lemma safe_while {A : Type} (ok : list event -> event -> Prop)
    (Inv : list event -> Prop) (Q : option A -> list event -> Prop)
    (cond : prog bool) (body : prog (option A)) :
  (forall h, Inv h ->
     safe ok h cond (fun b h' =>
       if b : bool
       then safe ok h' body (fun r h'' =>
              match r with
              | Some v => Q (Some v) h''
              | None => Inv h''
              end)
       else Q None h')) ->
  forall n h, Inv h -> safe ok h (while n cond body) Q.
Proof.
  intros Hstep n. induction n as [| n IH]; intros h Hh; [exact I |].
  rewrite while_S. apply safe_bind.
  eapply safe_mono; [| apply Hstep, Hh].
  intros [|] h' Hb; [| exact Hb].
  apply safe_bind. eapply safe_mono; [| exact Hb].
  intros [v |] h'' Hr; [exact Hr | apply IH, Hr].
Qed.

Section discipline_facts.

Variable rel : bool.

(** The signalling block keeps the mutex as it is. *)
Lemma cond_signal_safe (c : int_ref) (sem : sem_ref) (h : list event)
    (Q : unit -> list event -> Prop) :
  waiting_counter sem = Some c ->
  (forall l, held (l ++ h) = held h -> Q tt (l ++ h)) ->
  safe (discipline rel) h (cond_signal c sem) Q.
Proof.
  intros Hc HQ. unfold cond_signal. cbn. intros n. split.
  { destruct sem, c; try discriminate; cbn; discriminate. }
  destruct (Z.ltb_spec 0 n) as [Hn | Hn]; cbn.
  - intros v. split.
    { destruct sem, c; try discriminate; cbn; discriminate. }
    intros []. split.
    { destruct sem, c; try discriminate; cbn; discriminate. }
    intros []. split.
    + cbn. rewrite Hc. eexists _, _, _. split; [reflexivity | exact Hn].
    + apply (HQ [_; _; _; _]). destruct sem; try discriminate; reflexivity.
  - apply (HQ [_]). reflexivity.
Qed.

(** [cond_wait], entered with the mutex: it returns 0 with the mutex
    and [-EINTR] without it. *)
Lemma cond_wait_safe (prod : Z) (h : list event) :
  safe (discipline rel) h (cond_wait prod)
    (fun v h' => (v = 0 /\ held h' = true) \/ (v = - EINTR /\ held h' = false)).
Proof.
  unfold cond_wait.
  destruct (prod =? 0); cbn; (intros []; split; [exact I |]);
    (intros r; split; [reflexivity |]);
    destruct (nonzero r) eqn:Hr; cbn.
  all: try (intros r'; split; [reflexivity |];
            intros v; split; [discriminate |];
            intros []; split; [discriminate |];
            intros []; split; [exact I |];
            right; split; reflexivity).
  all: intros r'; split; [reflexivity |];
       destruct (nonzero r') eqn:Hr'; cbn;
       [ right; split; [reflexivity |];
         rewrite (nonzero_true _ Hr'); reflexivity
       | left; split; [reflexivity |];
         rewrite (nonzero_false _ Hr'); reflexivity ].
Qed.

(** One round of a wait loop, entered with the mutex: it leaves with
    [-EINTR] and without the mutex, or goes round with it. *)
Lemma wait_body_safe (counter : int_ref) (prod : Z) (h : list event) :
  session_count counter = false ->
  safe (discipline rel) h
    (incr counter;;
     r ← cond_wait prod;
     if nonzero r then Return (- EINTR) else fallthrough)
    (fun r h' =>
       match r with
       | Some v => v = - EINTR /\ held h' = false
       | None => held h' = true
       end).
Proof.
  intros Hc. cbn. intros v. split; [cbn; rewrite Hc; discriminate |].
  intros []. split; [cbn; rewrite Hc; discriminate |].
  apply safe_bind. eapply safe_mono; [| apply cond_wait_safe].
  intros r h' [[-> Hh] | [-> Hh]]; cbn.
  - exact Hh.
  - change (nonzero (- EINTR)) with true. cbn. split; [reflexivity | exact Hh].
Qed.

(** A wait loop, entered with the mutex: it is left by [return -EINTR]
    without the mutex, or falls through with it. *)
Lemma wait_loop_safe (n : nat) (cond : prog bool) (counter : int_ref) (prod : Z)
    (Q : option Z -> list event -> Prop) :
  session_count counter = false ->
  (forall h, held h = true ->
     safe (discipline rel) h cond (fun _ h' => held h' = true)) ->
  (forall h, held h = false -> Q (Some (- EINTR)) h) ->
  (forall h, held h = true -> Q None h) ->
  forall h, held h = true ->
    safe (discipline rel) h
      (while n cond
         (incr counter;;
          r ← cond_wait prod;
          if nonzero r then Return (- EINTR) else fallthrough))
      Q.
Proof.
  intros Hc Hcond Hret Hfall.
  apply (safe_while (discipline rel) (fun h => held h = true)).
  intros h Hh. eapply safe_mono; [| apply Hcond, Hh].
  intros [|] h' Hh'; cbv beta iota.
  - eapply safe_mono; [| apply wait_body_safe, Hc].
    intros [v |] h'' Hv; [| exact Hv].
    destruct Hv as [-> Hv]. apply Hret, Hv.
  - apply Hfall, Hh'.
Qed.

(** [open] on every path. *)
Lemma open_discipline (fuel : nat) (f_mode : Z) :
  safe (discipline rel) [] (fifoproc_open fuel f_mode)
    (fun v h => held h = false /\ (v = 0 \/ v = - EINTR)).
Proof.
  unfold fifoproc_open. cbn. intros r. split; [reflexivity |].
  destruct (nonzero r) eqn:Hr; cbn.
  { rewrite (nonzero_true _ Hr). split; [reflexivity | right; reflexivity]. }
  rewrite (nonzero_false _ Hr).
  apply safe_bind.
  destruct (nonzero (Z.land f_mode FMODE_READ)); cbn;
    (intros v; split; [reflexivity |]);
    (intros []; split; [reflexivity |]);
    apply safe_bind; (apply cond_signal_safe; [reflexivity |]);
    intros l Hh; cbn in Hh;
    (apply wait_loop_safe;
     [ reflexivity
     | intros h1 Hh1; cbn; intros c; split; [intros _; exact Hh1 | exact Hh1]
     | intros h1 Hh1; cbn; split; [exact Hh1 | right; reflexivity]
     | intros h1 Hh1; cbn; intros []; split; [exact I |];
       split; [reflexivity | left; reflexivity]
     | exact Hh ]).
Qed.

(** [release] on every path. *)
Lemma release_discipline (f_mode : Z) :
  rel = true ->
  safe (discipline rel) [] (fifoproc_release f_mode)
    (fun v h => held h = false /\ (v = 0 \/ v = - EINTR)).
Proof.
  intros Hrel.
  unfold fifoproc_release. cbn. intros r. split; [reflexivity |].
  destruct (nonzero r) eqn:Hr; cbn.
  { rewrite (nonzero_true _ Hr). split; [reflexivity | right; reflexivity]. }
  rewrite (nonzero_false _ Hr).
  apply safe_bind.
  destruct (nonzero (Z.land f_mode FMODE_READ)); cbn;
    (intros v; split; [reflexivity |]);
    (intros []; split; [reflexivity |]);
    (apply cond_signal_safe; [reflexivity |]);
    intros l Hh; cbn in Hh; cbn;
    (intros p; split; [intros _; exact Hh |]);
    (destruct (p =? 0); cbn;
     [ intros c; split; [intros _; exact Hh |];
       destruct (c =? 0); cbn;
       [ intros []; split; [split; [exact Hh | exact Hrel] |] | ]
     | ]);
    (intros []; split; [exact I |]);
    (split; [reflexivity | left; reflexivity]).
Qed.

(** [read] on every path. *)
Lemma read_discipline (fuel : nat) (buff size : Z) :
  safe (discipline rel) [] (fifoproc_read fuel buff size)
    (fun v h => held h = false /\ may_return (Read buff size) v h).
Proof.
  unfold fifoproc_read. cbn. intros r. split; [reflexivity |].
  destruct (nonzero r) eqn:Hr; cbn.
  { rewrite (nonzero_true _ Hr). split; [reflexivity | right; left; reflexivity]. }
  rewrite (nonzero_false _ Hr).
  apply safe_bind.
  apply wait_loop_safe; [reflexivity | | | | reflexivity].
  - intros h Hh. cbn. intros l. split; [exact Hh |].
    destruct (l =? 0); cbn; [| exact Hh].
    intros p. split; [intros _; exact Hh | exact Hh].
  - intros h Hh. cbn. split; [exact Hh | right; left; reflexivity].
  - intros h Hh. cbn. intros e. split; [exact Hh |].
    destruct e; cbn.
    { intros []. split; [exact I |].
      split; [reflexivity | left; reflexivity]. }
    intros l. split; [exact Hh |].
    apply safe_bind.
    assert (Hlen : safe (discipline rel) (EKfifoLen l :: EKfifoIsEmpty false :: h)
                     (if l <=? size then kfifo_len &cbuffer else Ret size)
                     (fun _ h' => held h' = true /\ exists l', h' = l' ++ h)).
    { destruct (l <=? size); cbn.
      - intros l'. split; [exact Hh |]. split; [exact Hh |].
        exists [EKfifoLen l'; EKfifoLen l; EKfifoIsEmpty false]. reflexivity.
      - split; [exact Hh |].
        exists [EKfifoLen l; EKfifoIsEmpty false]. reflexivity. }
    eapply safe_mono; [| exact Hlen].
    intros len h' [Hh' _]. cbn.
    intros [kbuffer n]. split; [exact Hh' |]. cbn.
    apply safe_bind. apply cond_signal_safe; [reflexivity |].
    intros l0 Hl0. cbn in Hl0. cbn.
    intros []. split; [exact I |].
    intros r0. split; [reflexivity |].
    destruct (nonzero r0); cbn.
    + split; [reflexivity | right; right; left; reflexivity].
    + split; [reflexivity |]. right; right; right.
      exists (wrap_int len), kbuffer, n. split; [| reflexivity].
      do 2 (apply elem_of_cons; right).
      apply elem_of_app. right. apply elem_of_cons. left. reflexivity.
Qed.

(** [write] on every path. *)
Lemma write_discipline (fuel : nat) (buff size : Z) :
  safe (discipline rel) [] (fifoproc_write fuel buff size)
    (fun v h => held h = false /\ may_return (Write buff size) v h).
Proof.
  unfold fifoproc_write.
  destruct (MAX_KBUF <? size); cbn.
  { split; [reflexivity | right; right; left; reflexivity]. }
  intros [kbuffer r]. split; [reflexivity |]. cbn.
  destruct (nonzero r); cbn.
  { split; [reflexivity | right; right; left; reflexivity]. }
  intros r0. split; [reflexivity |].
  destruct (nonzero r0) eqn:Hr; cbn.
  { rewrite (nonzero_true _ Hr). split; [reflexivity | right; left; reflexivity]. }
  rewrite (nonzero_false _ Hr).
  apply safe_bind.
  apply wait_loop_safe; [reflexivity | | | | reflexivity].
  - intros h Hh. cbn. intros a. split; [exact Hh |].
    destruct (a <? size); cbn; [| exact Hh].
    intros c. split; [intros _; exact Hh | exact Hh].
  - intros h Hh. cbn. split; [exact Hh | right; left; reflexivity].
  - intros h Hh. cbn. intros n. split; [exact Hh |].
    intros c. split; [intros _; exact Hh |].
    destruct (c =? 0); cbn.
    + intros []. split; [exact I |].
      split; [reflexivity | right; right; right; reflexivity].
    + apply safe_bind. apply cond_signal_safe; [reflexivity |].
      intros l Hl. cbn in Hl. cbn.
      intros []. split; [exact I |].
      split; [reflexivity | left; reflexivity].
Qed.

End discipline_facts.

(** Every call keeps the discipline and returns without the mutex. *)
Lemma call_discipline (fuel : nat) (c : call) :
  safe (discipline (is_release c)) [] (call_prog fuel c)
    (fun v h => held h = false /\ may_return c v h).
Proof.
  destruct c as [f_mode | f_mode | buff size | buff size]; cbn [call_prog is_release].
  - apply open_discipline.
  - apply release_discipline. reflexivity.
  - apply read_discipline.
  - apply write_discipline.
Qed.

(** What the discipline says of an event on a path of a call. *)
Lemma path_discipline (fuel : nat) (c : call) (pre post : list event)
    (e : event) (p' : prog Z) :
  path (call_prog fuel c) (pre ++ e :: post) p' ->
  discipline (is_release c) (rev pre) e.
Proof.
  intros Hp.
  pose proof (safe_path_ok _ _ _ _ _ _ pre post e
                (call_discipline fuel c) Hp eq_refl) as H.
  rewrite app_nil_r in H. exact H.
Qed.

(** X18. On every control path of every call, whatever the other threads do:
    the ring buffer and the counts of open sessions are touched only by
    a thread that holds the mutex. *)
Theorem shared_data_under_mutex (fuel : nat) (c : call) (pre post : list event)
    (e : event) (p' : prog Z) :
  path (call_prog fuel c) (pre ++ e :: post) p' ->
  touches_shared e = true ->
  holds_mtx false pre = true.
Proof.
  intros Hp He. apply path_discipline in Hp.
  rewrite <- held_rev.
  destruct e; cbn in He, Hp; try discriminate; try exact Hp.
  - apply Hp, He.
  - apply Hp, He.
  - apply Hp.
Qed.

(** X19. On every control path of every call a thread waits for a semaphore,
    and copies from or to user memory, only while it does not hold the
    mutex. *)
Theorem waits_outside_mutex (fuel : nat) (c : call) (pre post : list event)
    (e : event) (p' : prog Z) :
  path (call_prog fuel c) (pre ++ e :: post) p' ->
  may_wait e = true ->
  holds_mtx false pre = false.
Proof.
  intros Hp He. apply path_discipline in Hp.
  rewrite <- held_rev.
  destruct e; cbn in He, Hp; try discriminate; exact Hp.
Qed.

(** X20. On every control path of every call, a queue semaphore is posted
    only right after the thread read a positive number of registered
    sleepers and stored the number it read next, less one. *)
Theorem post_follows_decrement (fuel : nat) (c : call) (pre post : list event)
    (sem : sem_ref) (p' : prog Z) :
  path (call_prog fuel c) (pre ++ EUp sem :: post) p' ->
  sem <> &mtx ->
  exists counter v v' pre',
    waiting_counter sem = Some counter /\
    pre = pre' ++ [ELoad counter v; ELoad counter v';
                   EStore counter (wrap_int (v' - 1))] /\
    0 < v.
Proof.
  intros Hp Hsem. apply path_discipline in Hp. cbn in Hp.
  destruct (waiting_counter sem) as [counter |] eqn:Hc;
    [| destruct sem; done].
  destruct Hp as (v & v' & h' & Hh & Hv).
  exists counter, v, v', (rev h'). split; [reflexivity |].
  split; [| exact Hv].
  rewrite <- (rev_involutive pre), Hh. cbn.
  rewrite <- !app_assoc. reflexivity.
Qed.

(** X21. Only [release] resets the ring buffer: no control path of [open],
    [read] or [write] does. *)
Theorem reset_only_in_release (fuel : nat) (c : call) (pre post : list event)
    (p' : prog Z) :
  path (call_prog fuel c) (pre ++ EKfifoReset :: post) p' ->
  exists f_mode, c = Release f_mode.
Proof.
  intros Hp. apply path_discipline in Hp. destruct Hp as [_ Hrel].
  destruct c as [f_mode | f_mode | buff size | buff size]; try discriminate.
  exists f_mode. reflexivity.
Qed.

(** X22. Every call that returns, on whatever path, returns without the
    mutex, and with one of a few values: [open] and [release] with 0 or
    [-EINTR]; [write] with [size], [-EINTR], [-ENOMEM] or [-EPIPE];
    [read] with 0, [-EINTR], [-ENOMEM] or the count [kfifo_out] gave
    it. *)
Theorem returns_without_mutex (fuel : nat) (c : call) (tr : list event) (v : Z) :
  path (call_prog fuel c) tr (Ret v) ->
  holds_mtx false tr = false /\ may_return c v tr.
Proof.
  intros Hp.
  pose proof (safe_path_ret _ _ _ _ _ _ (call_discipline fuel c) Hp) as [Hh Hv].
  rewrite app_nil_r in Hh, Hv. rewrite held_rev in Hh.
  split; [exact Hh |].
  destruct c as [f_mode | f_mode | buff size | buff size]; cbn in *;
    try exact Hv.
  destruct Hv as [Hv | [Hv | [Hv | (len & buf & r & Hin & Hv)]]]; auto.
  right; right; right. exists len, buf, r. split; [| exact Hv].
  apply list_elem_of_In, in_rev, list_elem_of_In. exact Hin.
Qed.

(** *** Instances *)

(** The events of a run and what is left of the program make a path. *)
Lemma path_of_run {A : Type} (p : prog A) (sig : bool) (s : kstate)
    (tr : list event) (p' : prog A) :
  fst (run p sig s) = tr ->
  outcome_prog (snd (run p sig s)) = p' ->
  path p tr p'.
Proof. intros <- <-. apply run_path. Qed.

(** A producer writes three bytes to the pipe both ends have open: it
    holds the mutex when it queues them. *)
Lemma shared_data_under_mutex_witness :
  holds_mtx false
    [ECopyFromUser 100 3 abc 0; EDown &mtx 0; EKfifoAvail 4096] = true.
Proof.
  apply (shared_data_under_mutex 1 (Write 100 3)
           [ECopyFromUser 100 3 abc 0; EDown &mtx 0; EKfifoAvail 4096]
           [ELoad &cons_count 1; ELoad &nr_cons_waiting 0; EUp &mtx]
           (EKfifoIn abc 3 3) (Ret 3)).
  - apply (path_of_run _ false (pipe_ready 100 abc)); vm_compute; reflexivity.
  - reflexivity.
Defined.

(** A consumer reads the three bytes queued: it has released the mutex
    when it copies them to the user. *)
Lemma waits_outside_mutex_witness :
  holds_mtx false
    [EDown &mtx 0; EKfifoLen 3; EKfifoIsEmpty false; EKfifoLen 3; EKfifoLen 3;
     EKfifoOut 3 abc 3; ELoad &nr_prod_waiting 0; EUp &mtx] = false.
Proof.
  apply (waits_outside_mutex 1 (Read 100 3)
           [EDown &mtx 0; EKfifoLen 3; EKfifoIsEmpty false; EKfifoLen 3;
            EKfifoLen 3; EKfifoOut 3 abc 3; ELoad &nr_prod_waiting 0; EUp &mtx]
           [] (ECopyToUser 100 abc 3 0) (Ret 3)).
  - apply (path_of_run _ false abc_queued); vm_compute; reflexivity.
  - reflexivity.
Defined.

(** A producer writes while a consumer sleeps in [read]. *)
Lemma post_follows_decrement_witness :
  exists counter v v' pre',
    waiting_counter &sem_cons = Some counter /\
    [ECopyFromUser 100 3 abc 0; EDown &mtx 0; EKfifoAvail 4096;
     EKfifoIn abc 3 3; ELoad &cons_count 1; ELoad &nr_cons_waiting 1;
     ELoad &nr_cons_waiting 1; EStore &nr_cons_waiting 0]
      = pre' ++ [ELoad counter v; ELoad counter v';
                 EStore counter (wrap_int (v' - 1))] /\
    0 < v.
Proof.
  apply (post_follows_decrement 1 (Write 100 3)
           [ECopyFromUser 100 3 abc 0; EDown &mtx 0; EKfifoAvail 4096;
            EKfifoIn abc 3 3; ELoad &cons_count 1; ELoad &nr_cons_waiting 1;
            ELoad &nr_cons_waiting 1; EStore &nr_cons_waiting 0]
           [EUp &mtx] &sem_cons (Ret 3)).
  - apply (path_of_run _ false
             (after (run (fifoproc_read 1 100 3) false (pipe_ready 100 abc))));
      vm_compute; reflexivity.
  - discriminate.
Defined.

(** The last consumer closes the device. *)
Lemma reset_only_in_release_witness :
  exists f_mode, Release FMODE_READ = Release f_mode.
Proof.
  apply (reset_only_in_release 1 (Release FMODE_READ)
           [EDown &mtx 0; ELoad &cons_count 1; EStore &cons_count 0;
            ELoad &nr_prod_waiting 0; ELoad &prod_count 0; ELoad &cons_count 0]
           [EUp &mtx] (Ret 0)).
  apply (path_of_run _ false (set_int &cons_count 1 abc_queued));
    vm_compute; reflexivity.
Defined.

Lemma returns_without_mutex_witness :
  holds_mtx false
    [EDown &mtx 0; EKfifoLen 3; EKfifoIsEmpty false; EKfifoLen 3; EKfifoLen 3;
     EKfifoOut 3 abc 3; ELoad &nr_prod_waiting 0; EUp &mtx;
     ECopyToUser 100 abc 3 0] = false /\
  may_return (Read 100 3) 3
    [EDown &mtx 0; EKfifoLen 3; EKfifoIsEmpty false; EKfifoLen 3; EKfifoLen 3;
     EKfifoOut 3 abc 3; ELoad &nr_prod_waiting 0; EUp &mtx;
     ECopyToUser 100 abc 3 0].
Proof.
  apply (returns_without_mutex 1 (Read 100 3)).
  apply (path_of_run _ false abc_queued); vm_compute; reflexivity.
Defined.

(** ** The mutex is not always exclusive *)

Lemma astep_down_free (p : sem_ref) (sig : bool) (s : kstate) :
  0 < sem_count s p ->
  astep (ADown p) sig s = Some (0, set_sem p (sem_count s p - 1) s).
Proof. intros H. apply Z.ltb_lt in H. cbn. rewrite H. reflexivity. Qed.

(** X23. The count of the semaphore [mtx] can reach 2, so that two threads
    can be between [down_interruptible(&mtx)] and [up(&mtx)] at once.
    A first thread sleeps in [cond_wait]; a second one takes the mutex;
    a signal reaches the first, whose [down_interruptible(&mtx)] at
    line 48 fails, and which goes on to [up(&mtx)] at line 50 although
    it does not hold the mutex; the second thread then releases the
    mutex it took. *)
Theorem mutex_count_can_reach_two :
  exists g, reachable g /\ mtx (fst g) = 2.
Proof.
  set (s0 := modulo_fifo_init (replicate 4096 Byte.x00) ∅).
  set (a := run (call_prog 1 (Open FMODE_READ)) false s0).
  set (pool1 := <[1%nat := (rest a, false)]> (∅ : gmap nat (prog Z * bool))).
  assert (H1 : reachable (after a, pool1)).
  { apply (reachable_run s0 ∅ 1%nat 1%nat (Open FMODE_READ)).
    - apply reachable_init. vm_compute. reflexivity.
    - exact I. }
  set (s1 := set_sem &mtx (sem_count (after a) &mtx - 1) (after a)).
  set (b := run (rest a) true s1).
  evar (k : Z -> prog Z).
  assert (Hk : call_prog 1 (Open FMODE_READ) = Act (ADown &mtx) k)
    by (subst k; reflexivity).
  set (c := run (k 0) false (after b)).
  exists (after c,
          <[2%nat := (rest c, false)]>
            (<[1%nat := (rest b, true)]>
               (<[1%nat := (rest a, true)]>
                  (<[2%nat := (k 0, false)]>
                     (<[2%nat := (call_prog 1 (Open FMODE_READ), false)]> pool1))))).
  split.
  - destruct H1 as (mem & um & Hmem & Hsteps).
    exists mem, um. split; [exact Hmem |].
    eapply rtc_trans; [exact Hsteps |].
    eapply rtc_l.
    { apply (gstep_call (after a) pool1 2%nat 1%nat (Open FMODE_READ)).
      subst pool1. rewrite lookup_insert_ne by done. exact I. }
    eapply rtc_l.
    { eapply (gstep_act (after a) _ 2%nat (ADown &mtx) k false 0 s1).
      - rewrite lookup_insert_eq, Hk. reflexivity.
      - apply astep_down_free. vm_compute. reflexivity. }
    eapply rtc_l.
    { eapply (gstep_signal s1 _ 1%nat (rest a) false).
      rewrite !lookup_insert_ne by done. subst pool1.
      rewrite lookup_insert_eq. reflexivity. }
    eapply rtc_trans.
    { apply (run_gsteps (rest a) true s1 _ 1%nat). apply lookup_insert_eq. }
    apply (run_gsteps (k 0) false (after b) _ 2%nat).
    rewrite lookup_insert_ne by done. rewrite lookup_insert_ne by done.
    apply lookup_insert_eq.
  - vm_compute. reflexivity.
Qed.

(** ** Closing the last session *)

(** [read] finds the buffer empty and no producer: it returns 0 and
    leaves the state as it is. *)
Lemma run_read_no_producer (fuel : nat) (buff size : Z) (sig : bool) (s : kstate) :
  (0 < fuel)%nat ->
  Kfifo.kfifo_wf (cbuffer s) ->
  0 < mtx s ->
  Kfifo.kfifo_len (cbuffer s) = 0 ->
  prod_count s = 0 ->
  snd (run (fifoproc_read fuel buff size) sig s) = Done 0 s.
Proof.
  intros Hf Hwf Hm Hlen Hp.
  destruct fuel as [| fuel]; [lia |].
  apply Z.ltb_lt in Hm.
  unfold fifoproc_read. cbn. rewrite Hm. cbn. rewrite while_S. cbn.
  rewrite Hlen. cbn. rewrite Hp. cbn.
  rewrite KfifoFacts.kfifo_is_empty_len, Hlen by exact Hwf. cbn.
  destruct s; cbn in *. do 2 f_equal; lia.
Qed.

(** X27. When the only session left is closed, the bytes still queued are
    thrown away: [release] resets the ring buffer, both session counts
    are 0 afterwards, and a [read] made then returns 0 instead of the
    bytes that were queued. *)
Theorem last_release_discards_queue (fuel : nat) (f_mode buff size : Z)
    (sig sig' : bool) (s : kstate) :
  (0 < fuel)%nat ->
  Kfifo.kfifo_wf (cbuffer s) ->
  0 < mtx s ->
  int_val s (own_count f_mode) = 1 ->
  int_val s (peer_count f_mode) = 0 ->
  exists tr s',
    run (fifoproc_release f_mode) sig s = (tr, Done 0 s') /\
    EKfifoReset ∈ tr /\
    Kfifo.kfifo_contents (cbuffer s') = [] /\
    Kfifo.kfifo_len (cbuffer s') = 0 /\
    prod_count s' = 0 /\ cons_count s' = 0 /\
    mtx s' = mtx s /\
    snd (run (fifoproc_read fuel buff size) sig' s') = Done 0 s'.
Proof.
  intros Hf Hwf Hm Hown Hpeer.
  destruct (run_release f_mode sig s Hm) as [tr [Hrun Hreset]].
  cbv zeta in Hrun, Hreset. rewrite Hown in Hrun, Hreset.
  change (wrap_int (1 - 1)) with 0 in Hrun, Hreset.
  set (s1 := signalled (peer_counter f_mode) (peer_sem f_mode)
               (set_int (own_count f_mode) 0 s)) in *.
  assert (H1 : prod_count s1 = 0 /\ cons_count s1 = 0 /\ mtx s1 = mtx s).
  { subst s1. unfold signalled.
    destruct (open_roles f_mode)
      as [(Hr & E1 & E2 & E5 & E3 & E4) | (Hr & E1 & E2 & E5 & E3 & E4)];
      rewrite ?E1, ?E2, ?E3, ?E4, ?E5 in *; cbn in *;
      match goal with |- context [0 <? ?n] => destruct (0 <? n) end;
      cbn; repeat apply conj; first [ assumption | reflexivity ]. }
  destruct H1 as (Hp1 & Hc1 & Hm1).
  rewrite Hp1, Hc1 in Hrun, Hreset. cbn in Hrun, Hreset.
  pose proof (KfifoFacts.kfifo_reset_wf _ Hwf) as Hwf'.
  set (s' := set_cbuffer (Kfifo.kfifo_reset (cbuffer s)) s1) in *.
  assert (Hfields :
    cbuffer s' = Kfifo.kfifo_reset (cbuffer s) /\
    prod_count s' = 0 /\ cons_count s' = 0 /\ mtx s' = mtx s).
  { subst s'. destruct s1; cbn in *.
    repeat apply conj; first [ assumption | reflexivity ]. }
  clearbody s'.
  destruct Hfields as (Fc & Fp & Fk & Fm).
  exists tr, s'. split; [exact Hrun |].
  split; [apply Hreset; reflexivity |].
  rewrite Fc.
  split; [apply KfifoFacts.kfifo_len_0_contents; [exact Hwf' | reflexivity] |].
  split; [reflexivity |].
  split; [exact Fp |]. split; [exact Fk |]. split; [exact Fm |].
  apply run_read_no_producer; try assumption.
  - rewrite Fc. exact Hwf'.
  - lia.
  - rewrite Fc. reflexivity.
Qed.

(** The last consumer closes while three bytes are queued. *)
Lemma last_release_discards_queue_witness :
  let s := set_int &cons_count 1 abc_queued in
  exists tr s',
    run (fifoproc_release FMODE_READ) false s = (tr, Done 0 s') /\
    EKfifoReset ∈ tr /\
    Kfifo.kfifo_contents (cbuffer s') = [] /\
    Kfifo.kfifo_len (cbuffer s') = 0 /\
    prod_count s' = 0 /\ cons_count s' = 0 /\
    mtx s' = mtx s /\
    snd (run (fifoproc_read 1 100 3) false s') = Done 0 s'.
Proof.
  intros s.
  apply (last_release_discards_queue 1 FMODE_READ 100 3 false false s).
  - eval_side.
  - apply abc_queued_wf.
  - eval_side.
  - eval_side.
  - eval_side.
Defined.

(** ** Loading the module *)

(** X29. [modulo_fifo_init] returns 0 exactly when none of its tests
    sees a failure: [alloc_chrdev_region], [kfifo_alloc] and [cdev_add]
    return 0, [cdev_alloc] does not return [NULL], [class_create] does
    not return an error pointer, and [device_create] does not return
    [NULL].  It has then set the mutex to 1 and both queues to 0.  A
    [device_create] that fails with an error pointer passes the test of
    line 246: [modulo_fifo_init] then returns 0 all the same, although
    no device file was made. *)
Theorem init_zero_iff_no_test_fails (k : Loading.kernel)
    (dev : device_create_result) :
  Loading.answers_ok k ->
  (fst (Loading.modulo_fifo_init (with_device_create k dev)) = 0 <->
   Loading.alloc_chrdev_region_ret k = 0 /\
   Loading.kfifo_alloc_ret k = 0 /\
   Loading.cdev_alloc_null k = false /\
   Loading.cdev_add_ret k = 0 /\
   Loading.class_create_err k = None /\
   dev <> device_NULL) /\
  (fst (Loading.modulo_fifo_init (with_device_create k dev)) = 0 ->
   exists pre post,
     snd (Loading.modulo_fifo_init (with_device_create k dev))
       = pre ++ [Loading.sema_init &mtx (mtx (modulo_fifo_init [] ∅));
                 Loading.sema_init &sem_prod (sem_prod (modulo_fifo_init [] ∅));
                 Loading.sema_init &sem_cons (sem_cons (modulo_fifo_init [] ∅))]
             ++ post) /\
  (Loading.alloc_chrdev_region_ret k = 0 ->
   Loading.kfifo_alloc_ret k = 0 ->
   Loading.cdev_alloc_null k = false ->
   Loading.cdev_add_ret k = 0 ->
   Loading.class_create_err k = None ->
   forall err,
     Loading.modulo_fifo_init (with_device_create k (device_ERR_PTR err))
       = (0, [Loading.alloc_chrdev_region 0; Loading.kfifo_alloc 0;
              Loading.cdev_alloc false; Loading.cdev_init; Loading.cdev_add 0;
              Loading.sema_init &mtx 1; Loading.sema_init &sem_prod 0;
              Loading.sema_init &sem_cons 0; Loading.class_create None;
              Loading.device_create false; Loading.printk])).
Proof.
  intros Hok. unfold Loading.answers_ok, Loading.MAX_ERRNO in Hok.
  unfold Loading.modulo_fifo_init, with_device_create.
  destruct k as [r1 r2 n3 r4 e5 n6]; cbn in *.
  split; [| split].
  3: { intros -> -> -> -> -> err. reflexivity. }
  all: unfold nonzero.
  all: destruct (Z.eqb_spec r1 0) as [-> | H1]; cbn;
    [| first [ split; [discriminate | intros (? & _); contradiction]
             | discriminate ]].
  all: destruct (Z.eqb_spec r2 0) as [-> | H2]; cbn;
    [| first [ split; [discriminate | intros (_ & ? & _); contradiction]
             | discriminate ]].
  all: destruct n3; cbn;
    [first [ split; [discriminate | intros (_ & _ & ? & _); discriminate]
           | discriminate ] |].
  all: destruct (Z.eqb_spec r4 0) as [-> | H4]; cbn;
    [| first [ split; [discriminate | intros (_ & _ & _ & ? & _); contradiction]
             | discriminate ]].
  all: destruct e5 as [err |]; cbn;
    [assert (Herr : wrap_int err <> 0)
       by (rewrite wrap_int_small by lia; lia);
     first [ split; [intros H; contradiction
                    | intros (_ & _ & _ & _ & ? & _); discriminate]
           | intros H; contradiction ] |].
  all: destruct dev as [| err |]; cbn;
    try (split; [discriminate | intros (_ & _ & _ & _ & _ & ?); contradiction]);
    try discriminate.
  all: try (split; [intros _; repeat split; discriminate | reflexivity]).
  all: intros _;
    exists [Loading.alloc_chrdev_region 0; Loading.kfifo_alloc 0;
            Loading.cdev_alloc false; Loading.cdev_init; Loading.cdev_add 0],
           [Loading.class_create None; Loading.device_create false; Loading.printk];
    reflexivity.
Qed.

(** Everything succeeds but [device_create], which returns
    [ERR_PTR(-ENOMEM)]. *)
Lemma init_zero_iff_no_test_fails_witness :
  let k := {| Loading.alloc_chrdev_region_ret := 0;
              Loading.kfifo_alloc_ret := 0;
              Loading.cdev_alloc_null := false;
              Loading.cdev_add_ret := 0;
              Loading.class_create_err := None;
              Loading.device_create_null := false |} in
  let dev := device_ERR_PTR (- ENOMEM) in
  (fst (Loading.modulo_fifo_init (with_device_create k dev)) = 0 <->
   Loading.alloc_chrdev_region_ret k = 0 /\
   Loading.kfifo_alloc_ret k = 0 /\
   Loading.cdev_alloc_null k = false /\
   Loading.cdev_add_ret k = 0 /\
   Loading.class_create_err k = None /\
   dev <> device_NULL) /\
  (fst (Loading.modulo_fifo_init (with_device_create k dev)) = 0 ->
   exists pre post,
     snd (Loading.modulo_fifo_init (with_device_create k dev))
       = pre ++ [Loading.sema_init &mtx (mtx (modulo_fifo_init [] ∅));
                 Loading.sema_init &sem_prod (sem_prod (modulo_fifo_init [] ∅));
                 Loading.sema_init &sem_cons (sem_cons (modulo_fifo_init [] ∅))]
             ++ post) /\
  (Loading.alloc_chrdev_region_ret k = 0 ->
   Loading.kfifo_alloc_ret k = 0 ->
   Loading.cdev_alloc_null k = false ->
   Loading.cdev_add_ret k = 0 ->
   Loading.class_create_err k = None ->
   forall err,
     Loading.modulo_fifo_init (with_device_create k (device_ERR_PTR err))
       = (0, [Loading.alloc_chrdev_region 0; Loading.kfifo_alloc 0;
              Loading.cdev_alloc false; Loading.cdev_init; Loading.cdev_add 0;
              Loading.sema_init &mtx 1; Loading.sema_init &sem_prod 0;
              Loading.sema_init &sem_cons 0; Loading.class_create None;
              Loading.device_create false; Loading.printk])).
Proof.
  intros k dev. apply (init_zero_iff_no_test_fails k dev).
  exact I.
Defined.

(** X30. On none of its paths does [modulo_fifo_init] give back the device
    numbers, the memory of the ring buffer or the [cdev]: the only thing
    it ever undoes is the device class, when [device_create] fails.  So
    when it fails after [alloc_chrdev_region] succeeded, the device
    numbers stay allocated. *)
Theorem init_gives_back_only_class (k : Loading.kernel) (c : Loading.kcall) :
  c ∈ snd (Loading.modulo_fifo_init k) ->
  Loading.gives_back c = true ->
  c = Loading.class_destroy /\
  Loading.device_create_null k = true /\
  fst (Loading.modulo_fifo_init k) = - ENOMEM.
Proof.
  unfold Loading.modulo_fifo_init.
  destruct k as [r1 r2 n3 r4 e5 n6]; cbn.
  destruct (nonzero r1); cbn;
    [| destruct (nonzero r2); cbn;
       [| destruct n3; cbn;
          [| destruct (nonzero r4); cbn;
             [| destruct e5 as [err |]; cbn; [| destruct n6; cbn]]]]];
    intros Hin Hc;
    repeat (apply elem_of_cons in Hin as [-> | Hin];
            [first [discriminate Hc | repeat split] |]);
    apply elem_of_nil in Hin; destruct Hin.
Qed.

Lemma init_gives_back_only_class_witness :
  let k := {| Loading.alloc_chrdev_region_ret := 0;
              Loading.kfifo_alloc_ret := 0;
              Loading.cdev_alloc_null := false;
              Loading.cdev_add_ret := 0;
              Loading.class_create_err := None;
              Loading.device_create_null := true |} in
  Loading.class_destroy = Loading.class_destroy /\
  Loading.device_create_null k = true /\
  fst (Loading.modulo_fifo_init k) = - ENOMEM.
Proof.
  intros k.
  apply (init_gives_back_only_class k Loading.class_destroy).
  - vm_compute. repeat constructor.
  - reflexivity.
Defined.

(** ** What an interrupted [open] leaves behind *)

(** X28. A consumer's [open] on the idle device is interrupted while it
    waits for a producer: it returns [-EINTR], so that no file is open
    for reading, but [cons_count] stays at 1.  A producer's [open] then
    returns 0 without waiting for a consumer, and its [write] queues
    the bytes and returns [size] instead of [-EPIPE]. *)
Theorem interrupted_open_lets_producer_in (cb : Kfifo.kfifo) (um : gmap Z byte)
    (f1 f2 f3 : nat) (m1 m2 src size : Z) (sig sig' : bool) :
  is_reader m1 = true ->
  is_reader m2 = false ->
  (0 < f1)%nat -> (0 < f2)%nat -> (0 < f3)%nat ->
  Kfifo.kfifo_wf cb ->
  0 <= size <= MAX_KBUF ->
  length (user_read um src (Z.to_nat size)) = Z.to_nat size ->
  size <= MAX_CBUFFER_LEN - Kfifo.kfifo_len cb ->
  let a := run (fifoproc_open f1 m1) true (idle_device cb um) in
  let b := run (fifoproc_open f2 m2) sig (after a) in
  let c := run (fifoproc_write f3 src size) sig' (after b) in
  snd a = Done (- EINTR) (mkState cb 0 1 1 0 0 0 0 um) /\
  snd b = Done 0 (mkState cb 1 1 1 0 0 0 0 um) /\
  snd c = Done size (after c) /\
  Kfifo.kfifo_contents (cbuffer (after c))
    = Kfifo.kfifo_contents cb ++ user_read um src (Z.to_nat size).
Proof.
  intros H1 H2 Hf1 Hf2 Hf3 Hwf Hsize Hread Hroom a b c.
  destruct f1 as [| f1]; [lia |]. destruct f2 as [| f2]; [lia |].
  assert (Ha : snd a = Done (- EINTR) (mkState cb 0 1 1 0 0 0 0 um)).
  { subst a. rewrite (open_reader _ m1 H1). vm_compute. reflexivity. }
  assert (Hb : snd b = Done 0 (mkState cb 1 1 1 0 0 0 0 um)).
  { subst b. unfold after. rewrite Ha. cbn [outcome_state].
    rewrite (open_writer _ m2 H2). vm_compute. reflexivity. }
  split; [exact Ha |]. split; [exact Hb |].
  assert (Hab : after b = mkState cb 1 1 1 0 0 0 0 um)
    by (unfold after; rewrite Hb; reflexivity).
  subst c. rewrite Hab.
  destruct (write_result f3 src size sig' (mkState cb 1 1 1 0 0 0 0 um)
              Hf3 Hwf ltac:(cbn; lia) Hsize Hread Hroom ltac:(cbn; lia))
    as (tr & s' & Hrun & _ & Hq & _).
  unfold after. rewrite Hrun. cbn [snd outcome_state].
  split; [reflexivity | exact Hq].
Qed.

Lemma interrupted_open_lets_producer_in_witness :
  let cb := Kfifo.kfifo_alloc MAX_CBUFFER_LEN (replicate 4096 Byte.x00) in
  let um := user_bytes 100 abc in
  let a := run (fifoproc_open 1 FMODE_READ) true (idle_device cb um) in
  let b := run (fifoproc_open 1 FMODE_WRITE) false (after a) in
  let c := run (fifoproc_write 1 100 3) false (after b) in
  snd a = Done (- EINTR) (mkState cb 0 1 1 0 0 0 0 um) /\
  snd b = Done 0 (mkState cb 1 1 1 0 0 0 0 um) /\
  snd c = Done 3 (after c) /\
  Kfifo.kfifo_contents (cbuffer (after c))
    = Kfifo.kfifo_contents cb ++ user_read um 100 (Z.to_nat 3).
Proof.
  intros cb um.
  apply (interrupted_open_lets_producer_in cb um 1 1 1 FMODE_READ FMODE_WRITE
           100 3 false false).
  - reflexivity.
  - reflexivity.
  - lia.
  - lia.
  - lia.
  - apply KfifoFacts.kfifo_alloc_wf. reflexivity.
  - unfold MAX_KBUF. lia.
  - vm_compute. reflexivity.
  - vm_compute. discriminate.
Defined.

(** ** Writes and the capacity *)

Lemma pipe_ready_page_wf : Kfifo.kfifo_wf (cbuffer (pipe_ready 100 page)).
Proof. solve_kfifo_wf. Qed.

(** C1: a [write] of more than [MAX_KBUF] = 4096 bytes returns
    [-ENOMEM] whatever the state: it has made no step at all, so the
    state, and with it the length of the buffer, is as before.  A
    [write] of exactly 4096 bytes to the empty buffer, with a consumer
    and the mutex free, returns 4096, and the buffer then holds these
    4096 bytes. *)
Theorem C1_write_capacity (fuel : nat) (buff size : Z) (sig : bool) (s : kstate) :
  (MAX_KBUF < size ->
   run (fifoproc_write fuel buff size) sig s = ([], Done (- ENOMEM) s)) /\
  (size = MAX_KBUF ->
   (0 < fuel)%nat ->
   Kfifo.kfifo_wf (cbuffer s) ->
   0 < mtx s ->
   Kfifo.kfifo_len (cbuffer s) = 0 ->
   0 < cons_count s ->
   length (user_read (user_mem s) buff (Z.to_nat size)) = Z.to_nat size ->
   exists tr s',
     run (fifoproc_write fuel buff size) sig s = (tr, Done size s') /\
     Kfifo.kfifo_contents (cbuffer s')
       = user_read (user_mem s) buff (Z.to_nat size) /\
     Kfifo.kfifo_len (cbuffer s') = MAX_CBUFFER_LEN).
Proof.
  split.
  - intros Hbig. apply Z.ltb_lt in Hbig.
    unfold fifoproc_write. rewrite Hbig. reflexivity.
  - intros Hsize Hf Hwf Hm Hlen Hc Hread.
    destruct (write_result fuel buff size sig s Hf Hwf Hm
                ltac:(unfold MAX_KBUF in *; lia) Hread
                ltac:(unfold MAX_KBUF, MAX_CBUFFER_LEN in *; lia)
                ltac:(lia))
      as (tr & s' & Hrun & _ & Hq & Hl & _).
    exists tr, s'. split; [exact Hrun |].
    rewrite (KfifoFacts.kfifo_len_0_contents _ Hwf Hlen) in Hq.
    split; [exact Hq |].
    rewrite Hl, Hlen, Hsize. reflexivity.
Qed.

(** 4097 bytes are turned down; 4096 bytes fill the empty pipe. *)
Lemma C1_write_capacity_witness :
  run (fifoproc_write 1 100 4097) false (pipe_ready 100 page)
    = ([], Done (- ENOMEM) (pipe_ready 100 page)) /\
  exists tr s',
    run (fifoproc_write 1 100 4096) false (pipe_ready 100 page)
      = (tr, Done 4096 s') /\
    Kfifo.kfifo_contents (cbuffer s')
      = user_read (user_mem (pipe_ready 100 page)) 100 (Z.to_nat 4096) /\
    Kfifo.kfifo_len (cbuffer s') = MAX_CBUFFER_LEN.
Proof.
  split.
  - apply (proj1 (C1_write_capacity 1 100 4097 false (pipe_ready 100 page))).
    unfold MAX_KBUF. lia.
  - apply (proj2 (C1_write_capacity 1 100 4096 false (pipe_ready 100 page))).
    + reflexivity.
    + lia.
    + apply pipe_ready_page_wf.
    + eval_side.
    + eval_side.
    + eval_side.
    + eval_side.
Defined.

(** ** Writing when nobody reads *)

Lemma full_no_consumer_wf : Kfifo.kfifo_wf (cbuffer full_no_consumer).
Proof. solve_kfifo_wf. Qed.

(** C2: a [write] of at most 4096 bytes made while [cons_count] is 0,
    with the mutex free, does not wait and returns [-EPIPE].  Before it
    reads [cons_count] it has queued as many of its bytes as fit in the
    free space of the buffer: all of them when they fit, none when the
    buffer is full. *)
Theorem C2_write_without_consumer (fuel : nat) (buff size : Z) (sig : bool)
    (s : kstate) :
  (0 < fuel)%nat ->
  Kfifo.kfifo_wf (cbuffer s) ->
  0 < mtx s ->
  0 <= size <= MAX_KBUF ->
  length (user_read (user_mem s) buff (Z.to_nat size)) = Z.to_nat size ->
  cons_count s = 0 ->
  let bytes := user_read (user_mem s) buff (Z.to_nat size) in
  let room := MAX_CBUFFER_LEN - Kfifo.kfifo_len (cbuffer s) in
  exists tr s',
    run (fifoproc_write fuel buff size) sig s =
      (tr ++ [EKfifoIn bytes size (Z.min size room);
              ELoad &cons_count 0; EUp &mtx],
       Done (- EPIPE) s') /\
    Kfifo.kfifo_contents (cbuffer s')
      = Kfifo.kfifo_contents (cbuffer s)
          ++ take (Z.to_nat (Z.min size room)) bytes /\
    Kfifo.kfifo_len (cbuffer s')
      = Kfifo.kfifo_len (cbuffer s) + Z.min size room /\
    (size <= room ->
     Kfifo.kfifo_contents (cbuffer s') = Kfifo.kfifo_contents (cbuffer s) ++ bytes) /\
    (room = 0 ->
     Kfifo.kfifo_contents (cbuffer s') = Kfifo.kfifo_contents (cbuffer s)) /\
    mtx s' = mtx s.
Proof.
  intros Hf Hwf Hm Hsize Hread Hc bytes room.
  destruct (run_write_nowait fuel buff size sig s Hf Hwf Hm Hsize Hread
              ltac:(right; lia)) as [t Hrun].
  rewrite Hc in Hrun. cbn in Hrun. fold bytes room in Hrun.
  pose proof (KfifoFacts.kfifo_len_range _ Hwf) as Hr.
  pose proof (KfifoFacts.kfifo_in_ret (cbuffer s) bytes size Hwf) as Hret.
  pose proof (KfifoFacts.kfifo_in_len (cbuffer s) bytes size Hwf) as Hlen.
  unfold MAX_KBUF in Hsize.
  rewrite KfifoFacts.uint_small in Hret
    by (change (2 ^ 32) with 4294967296; lia).
  fold room in Hret.
  assert (Hcont : Kfifo.kfifo_contents
                    (fst (Kfifo.kfifo_in (cbuffer s) bytes size))
                  = Kfifo.kfifo_contents (cbuffer s)
                      ++ take (Z.to_nat (Z.min size room)) bytes).
  { rewrite KfifoFacts.kfifo_in_contents
      by (exact Hwf || (rewrite Hret; subst bytes; lia)).
    rewrite Hret. reflexivity. }
  rewrite Hret in Hlen.
  eexists _, _. split; [exact Hrun |].
  cbn. split; [exact Hcont |]. split; [exact Hlen |].
  split; [| split; [| reflexivity]].
  - intros Hfit. rewrite Hcont. f_equal. apply take_ge. subst bytes. lia.
  - intros Hfull. rewrite Hcont, Hfull.
    replace (Z.min size 0) with 0 by lia. cbn. apply app_nil_r.
Qed.

(** Three bytes fit in the fresh buffer. *)
Lemma C2_write_without_consumer_witness :
  let s := loaded 100 abc in
  let bytes := user_read (user_mem s) 100 (Z.to_nat 3) in
  let room := MAX_CBUFFER_LEN - Kfifo.kfifo_len (cbuffer s) in
  exists tr s',
    run (fifoproc_write 1 100 3) false s =
      (tr ++ [EKfifoIn bytes 3 (Z.min 3 room); ELoad &cons_count 0; EUp &mtx],
       Done (- EPIPE) s') /\
    Kfifo.kfifo_contents (cbuffer s')
      = Kfifo.kfifo_contents (cbuffer s) ++ take (Z.to_nat (Z.min 3 room)) bytes /\
    Kfifo.kfifo_len (cbuffer s') = Kfifo.kfifo_len (cbuffer s) + Z.min 3 room /\
    (3 <= room ->
     Kfifo.kfifo_contents (cbuffer s') = Kfifo.kfifo_contents (cbuffer s) ++ bytes) /\
    (room = 0 ->
     Kfifo.kfifo_contents (cbuffer s') = Kfifo.kfifo_contents (cbuffer s)) /\
    mtx s' = mtx s.
Proof.
  intros s.
  apply (C2_write_without_consumer 1 100 3 false s).
  - lia.
  - solve_kfifo_wf.
  - eval_side.
  - eval_side.
  - eval_side.
  - eval_side.
Defined.

(** C2, on a full buffer: not every [write] made without a consumer
    queues its bytes before it returns [-EPIPE].  [cons_count] is 0, the
    buffer holds 4096 bytes, and a [write] of three bytes returns
    [-EPIPE] with the buffer as it was, none of the three bytes in it. *)
Lemma C2_counterexample :
  cons_count full_no_consumer = 0 /\
  exists tr s',
    run (fifoproc_write 1 100 3) false full_no_consumer
      = (tr, Done (- EPIPE) s') /\
    Kfifo.kfifo_len (cbuffer s') = Kfifo.kfifo_len (cbuffer full_no_consumer) /\
    Kfifo.kfifo_contents (cbuffer s')
      = Kfifo.kfifo_contents (cbuffer full_no_consumer) /\
    ~ (Kfifo.kfifo_contents (cbuffer s')
       = Kfifo.kfifo_contents (cbuffer full_no_consumer)
           ++ user_read (user_mem full_no_consumer) 100 3).
Proof.
  split; [vm_compute; reflexivity |].
  destruct (run_write_nowait 1 100 3 false full_no_consumer
              ltac:(lia) full_no_consumer_wf ltac:(eval_side) ltac:(eval_side)
              ltac:(eval_side) ltac:(right; eval_side)) as [t Hrun].
  cbv zeta in Hrun.
  replace (cons_count full_no_consumer =? 0) with true in Hrun
    by (vm_compute; reflexivity).
  pose proof (KfifoFacts.kfifo_in_ret (cbuffer full_no_consumer)
                (user_read (user_mem full_no_consumer) 100 (Z.to_nat 3)) 3
                full_no_consumer_wf) as Hret.
  assert (Hl : Kfifo.kfifo_len (cbuffer full_no_consumer) = 4096)
    by (vm_compute; reflexivity).
  rewrite Hl in Hret. change (Z.min (uint 3) (MAX_CBUFFER_LEN - 4096)) with 0 in Hret.
  pose proof (KfifoFacts.kfifo_in_len (cbuffer full_no_consumer)
                (user_read (user_mem full_no_consumer) 100 (Z.to_nat 3)) 3
                full_no_consumer_wf) as Hlen.
  pose proof (KfifoFacts.kfifo_in_contents (cbuffer full_no_consumer)
                (user_read (user_mem full_no_consumer) 100 (Z.to_nat 3)) 3
                full_no_consumer_wf) as Hcont.
  rewrite Hret in Hlen, Hcont. cbn in Hcont.
  rewrite app_nil_r in Hcont. specialize (Hcont ltac:(lia)).
  eexists _, _. split; [exact Hrun |].
  cbn. split; [lia |]. split; [exact Hcont |].
  rewrite Hcont. intros Heq.
  apply (f_equal length) in Heq. rewrite length_app in Heq.
  assert (Hu : length (user_read (user_mem full_no_consumer) 100 3) = 3%nat)
    by (vm_compute; reflexivity).
  rewrite Hu in Heq. lia.
Qed.

(** ** How [cond_wait] returns *)





(** ** An interrupted [open] *)

(** C4: a consumer opens the device while no producer has it open, and
    sleeps; a signal reaches it.  [open] returns [-EINTR] with the mutex
    free and the registration as a waiter undone, but [cons_count] is
    one more than before the call: line 79 returns without undoing the
    [cons_count++] of line 68. *)
Theorem C4_interrupted_open_keeps_count (fuel : nat) (s : kstate) :
  (0 < fuel)%nat ->
  0 < mtx s ->
  prod_count s = 0 ->
  sem_cons s <= 0 ->
  let a := run (fifoproc_open fuel FMODE_READ) false s in
  let b := run (rest a) true (after a) in
  snd a = Blocked (open_asleep (pred fuel) FMODE_READ) (after a) /\
  snd b = Done (- EINTR) (after b) /\
  cons_count (after b) = wrap_int (cons_count s + 1) /\
  cons_count (after b) <> cons_count s /\
  nr_cons_waiting (after b)
    = wrap_int (wrap_int (nr_cons_waiting s + 1) - 1) /\
  mtx (after b) = mtx s /\
  cbuffer (after b) = cbuffer s.
Proof.
  intros Hf Hm Hp Hq a b.
  pose proof (wrap_int_succ_neq (cons_count s)) as Hneq.
  pose proof (run_open_without_peer fuel FMODE_READ s Hf Hm Hp Hq) as Ha.
  change (own_count FMODE_READ) with &cons_count in Ha.
  change (peer_count FMODE_READ) with &prod_count in Ha.
  change (peer_counter FMODE_READ) with &nr_prod_waiting in Ha.
  change (peer_sem FMODE_READ) with &sem_prod in Ha.
  change (isProducer FMODE_READ) with 0 in Ha.
  change (wait_counter 0) with &nr_cons_waiting in Ha.
  cbn [int_val] in Ha.
  set (s1 := signalled &nr_prod_waiting &sem_prod
               (set_int &cons_count (wrap_int (cons_count s + 1)) s)) in *.
  assert (Hs1 : cons_count s1 = wrap_int (cons_count s + 1) /\
                nr_cons_waiting s1 = nr_cons_waiting s /\
                mtx s1 = mtx s /\ sem_cons s1 = sem_cons s /\
                cbuffer s1 = cbuffer s).
  { subst s1. unfold signalled. cbn.
    destruct (0 <? nr_prod_waiting s); cbn; repeat apply conj; reflexivity. }
  destruct Hs1 as (F1 & F2 & F3 & F4 & F5).
  set (sa := set_int &nr_cons_waiting (wrap_int (nr_cons_waiting s + 1)) s1) in *.
  assert (Haa : after a = sa) by (subst a; unfold after; rewrite Ha; reflexivity).
  assert (Hra : rest a = open_asleep (pred fuel) FMODE_READ)
    by (subst a; unfold rest; rewrite Ha; reflexivity).
  split; [subst a; rewrite Ha; reflexivity |].
  subst b. rewrite Hra, Haa.
  unfold open_asleep, wait_loop_asleep.
  change (isProducer FMODE_READ) with 0.
  rewrite !run_bind.
  rewrite run_cond_wait_asleep_interrupted
    by (subst sa; cbn; lia).
  cbn. change (nonzero (- EINTR)) with true. cbn.
  unfold after. cbn.
  subst sa. cbn. rewrite F1, F3, F5.
  repeat apply conj; first [ reflexivity | exact Hneq ].
Qed.

(** The consumer opens the fresh device. *)
Lemma C4_interrupted_open_keeps_count_witness :
  let s := loaded 100 abc in
  let a := run (fifoproc_open 1 FMODE_READ) false s in
  let b := run (rest a) true (after a) in
  snd a = Blocked (open_asleep (pred 1) FMODE_READ) (after a) /\
  snd b = Done (- EINTR) (after b) /\
  cons_count (after b) = wrap_int (cons_count s + 1) /\
  cons_count (after b) <> cons_count s /\
  nr_cons_waiting (after b)
    = wrap_int (wrap_int (nr_cons_waiting s + 1) - 1) /\
  mtx (after b) = mtx s /\
  cbuffer (after b) = cbuffer s.
Proof.
  intros s.
  apply (C4_interrupted_open_keeps_count 1 s).
  - lia.
  - eval_side.
  - eval_side.
  - eval_side.
Defined.

(** ** When the ring buffer is reset *)



(** ** The signalling block *)


